(** * Valgrind's demangler (coregrind/m_demangle/demangle.c)

    A shallow embedding of the three decoding stages driven by
    [VG_(demangle)]: the Z-decoder [VG_(maybe_Z_demangle)], the Rust
    heuristic [rust_is_mangled] with its helpers [is_prefixed_hash] and
    [looks_like_rust], the in-place Rust decoder [rust_demangle_sym] with
    [unescape], and the orchestrator [VG_(demangle)] itself.

    Memory blocks are lists of characters, stores are bounds-checked, and
    every [vg_assert] of the source is an explicit outcome. *)

From Stdlib Require Import Ascii String ZArith Lia List Bool.
From stdpp Require Import base list strings gmap.

Local Open Scope char_scope.
Local Open Scope nat_scope.

(* ===================================================================== *)
(** * Characters, blocks and C strings *)
(* ===================================================================== *)

(** [HChar] is the source's name for [char]. *)
Abbreviation HChar := ascii (only parsing).

Definition NUL : HChar := "000".

(** A string literal of the source, without its terminator. *)
Definition lit (s : string) : list HChar := list_ascii_of_string s.

(** A block of memory is the list of its bytes.  A C string lives at the
    start of a block and ends at the first NUL byte; when the list holds
    no NUL the terminator is the byte just after it, so that a list of
    non-NUL characters denotes the C string with those characters. *)
Definition char_at (m : list HChar) (i : nat) : HChar := default NUL (m !! i).

(** [*p] for a pointer [p] represented by the suffix of the block it points into. *)
Definition deref (p : list HChar) : HChar := char_at p 0.

(** Modelled from the spec: [vg_assert] and [vg_assert2] are macros of
    pub_core_libcassert.h, which is not part of the sources at hand; a
    failed assertion is "a fatal programming-error condition": it stops the
    process.  Here are the assertions of the source. *)
Inductive assertion : Type :=
| A_eclassTag_range      (* vg_assert( *eclassTag >= 0 && *eclassTag <= 9999) *)
| A_eclassPrio_range     (* vg_assert( *eclassPrio >= 0 && *eclassPrio <= 9) *)
| A_VG_Z_prefix          (* vg_assert2(0, "symbol with a 'VG_Z_' prefix ...") *)
| A_delimiter            (* vg_assert(sym[i] == '_') *)
| A_never_after.         (* vg_assert(out <= never_after) *)

(** What running a piece of the program can end in. *)
Inductive outcome (A : Type) : Type :=
| Ret (a : A)            (* it returns *)
| Abort (w : assertion)  (* an assertion fails: the process is stopped *)
| Trap                   (* a store outside its block, or a NULL dereference *)
| OutOfFuel.             (* the loop bound of the model was too small *)

Arguments Ret {A} a.
Arguments Abort {A} w.
Arguments Trap {A}.
Arguments OutOfFuel {A}.

Definition bind {A B : Type} (m : outcome A) (k : A -> outcome B) : outcome B :=
  match m with
  | Ret a => k a
  | Abort w => Abort w
  | Trap => Trap
  | OutOfFuel => OutOfFuel
  end.

Notation "'do' x <- m ; k" := (bind m (fun x => k))
  (at level 10, x pattern, m at level 100, k at level 200).

(** [m[i] = c]: a store into a block, trapping outside of it. *)
Definition store (m : list HChar) (i : nat) (c : HChar) : outcome (list HChar) :=
  if i <? length m then Ret (<[i:=c]> m) else Trap.

(** Modelled from the spec: [VG_(strlen)] is declared in pub_core_libcbase.h,
    which is not part of the sources at hand; it is the C [strlen], the
    number of bytes before the terminator ("up to the terminating NUL"). *)
Fixpoint strlen (m : list HChar) : nat :=
  match m with
  | [] => 0
  | c :: m' => if (c =? NUL)%char then 0 else S (strlen m')
  end.

(** The characters of the C string held by a block. *)
Definition cstr (m : list HChar) : list HChar := take (strlen m) m.

(** Modelled from the spec: [VG_(strncmp)] is declared in
    pub_core_libcbase.h, which is not part of the sources at hand; it is the
    C [strncmp], used by the source only to test for "the literal sequence".
    [strncmp s1 s2 n] is [true] when the C function returns 0: the first [n]
    characters agree, the comparison stopping at a common terminator. *)
Fixpoint strncmp (s1 s2 : list HChar) (n : nat) : bool :=
  match n with
  | 0 => true
  | S n' =>
      let c1 := deref s1 in
      let c2 := deref s2 in
      if (c1 =? c2)%char
      then if (c1 =? NUL)%char then true else strncmp (drop 1 s1) (drop 1 s2) n'
      else false
  end.

(** Modelled from the spec: [VG_(isdigit)] is declared in
    pub_core_libcbase.h, which is not part of the sources at hand; the
    header field it checks is made of "decimal digits". *)
Definition VG_isdigit (c : HChar) : bool := ("0" <=? c)%char && (c <=? "9")%char.

(** [(Int)c]: the digits and letters the source converts are all below 128,
    where signed and unsigned [char] agree. *)
Definition Int_of_HChar (c : HChar) : Z := Z.of_N (N_of_ascii c).

(* ===================================================================== *)
(** * DEMANGLE Z-ENCODED NAMES *)
(* ===================================================================== *)

Module ZDemangle.

(** The function's statics: two buffers and their common size. *)
Record statics : Type := {
  sobuf : list HChar;
  fnbuf : list HChar;
  buf_len : nat
}.

(** Before the first call: [sobuf] and [fnbuf] are NULL, [buf_len] is 0. *)
Definition statics_init : statics := {| sobuf := []; fnbuf := []; buf_len := 0 |}.

(** The static buffer a returned pointer designates. *)
Inductive bufptr : Type := SOBUF | FNBUF.

(** The caller's cells behind the OUT parameters.  [None] in a pointer
    cell stands for whatever the caller had there. *)
Record outs : Type := {
  so_v : option bufptr;
  fn_v : option bufptr;
  isWrap_v : bool;
  eclassTag_v : Z;
  eclassPrio_v : Z
}.

Definition set_so (o : outs) (p : bufptr) : outs :=
  {| so_v := Some p; fn_v := fn_v o; isWrap_v := isWrap_v o;
     eclassTag_v := eclassTag_v o; eclassPrio_v := eclassPrio_v o |}.
Definition set_fn (o : outs) (p : bufptr) : outs :=
  {| so_v := so_v o; fn_v := Some p; isWrap_v := isWrap_v o;
     eclassTag_v := eclassTag_v o; eclassPrio_v := eclassPrio_v o |}.
Definition set_isWrap (o : outs) (b : bool) : outs :=
  {| so_v := so_v o; fn_v := fn_v o; isWrap_v := b;
     eclassTag_v := eclassTag_v o; eclassPrio_v := eclassPrio_v o |}.
Definition set_eclassTag (o : outs) (t : Z) : outs :=
  {| so_v := so_v o; fn_v := fn_v o; isWrap_v := isWrap_v o;
     eclassTag_v := t; eclassPrio_v := eclassPrio_v o |}.
Definition set_eclassPrio (o : outs) (p : Z) : outs :=
  {| so_v := so_v o; fn_v := fn_v o; isWrap_v := isWrap_v o;
     eclassTag_v := eclassTag_v o; eclassPrio_v := p |}.

Section WithUninit.

(** The bytes found in freshly allocated memory, by offset. *)
Variable uninit : nat -> HChar.

(** Modelled from the spec: [VG_(arena_realloc)] is declared in
    pub_core_mallocfree.h, which is not part of the sources at hand; the
    buffers are "sized to the input length" by it: the block gets the
    requested size, keeps its old bytes, and its new bytes hold anything. *)
Definition arena_realloc (blk : list HChar) (len : nat) : list HChar :=
  take len (blk ++ map uninit (seq (length blk) (len - length blk))).

(** The macros [EMITSO] and [EMITFN]:
    [buf[i++] = ch; buf[i] = 0]. *)
Definition EMIT (buf : list HChar) (i : nat) (ch : HChar)
  : outcome (list HChar * nat) :=
  do b1 <- store buf i ch;
  do b2 <- store b1 (S i) NUL;
  Ret (b2, S i).

Definition EMITSO (so : bool) (buf : list HChar) (soi : nat) (ch : HChar)
  : outcome (list HChar * nat) :=
  if so then EMIT buf soi ch else Ret (buf, soi).

Definition EMITFN (buf : list HChar) (fni : nat) (ch : HChar)
  : outcome (list HChar * nat) :=
  EMIT buf fni ch.

(** The [switch] on the selector of a Z-escape, the same in both decoding
    loops; [None] is its [default:] branch. *)
Definition z_escape (c : HChar) : option HChar :=
  if (c =? "a")%char then Some "*"
  else if (c =? "c")%char then Some ":"
  else if (c =? "d")%char then Some "."
  else if (c =? "h")%char then Some "-"
  else if (c =? "p")%char then Some "+"
  else if (c =? "s")%char then Some " "
  else if (c =? "u")%char then Some "_"
  else if (c =? "A")%char then Some "@"
  else if (c =? "D")%char then Some "$"
  else if (c =? "L")%char then Some "("
  else if (c =? "P")%char then Some "%"
  else if (c =? "R")%char then Some ")"
  else if (c =? "S")%char then Some "/"
  else if (c =? "Z")%char then Some "Z"
  else None.

(** How a decoding loop is left. *)
Inductive loop_exit : Type :=
| L_break (p : list HChar)   (* [break], with [sym + i] *)
| L_error.                   (* [error = True; goto out] *)

(** The loop over the soname; [p] is [sym + i]. *)
Fixpoint soname_loop (so : bool) (p : list HChar) (buf : list HChar) (soi : nat)
  : outcome (loop_exit * list HChar * nat) :=
  match p with
  | [] => Ret (L_error, buf, soi)                       (* sym[i] == 0 *)
  | c :: p1 =>
      if (c =? "_")%char then Ret (L_break p, buf, soi)
      else if (c =? NUL)%char then Ret (L_error, buf, soi)
      else if negb (c =? "Z")%char then
        do (buf', soi') <- EMITSO so buf soi c;
        soname_loop so p1 buf' soi'
      else
        (* a Z-escape: i++; switch (sym[i]) *)
        match p1 with
        | [] => Ret (L_error, buf, soi)
        | d :: p2 =>
            match z_escape d with
            | Some ch =>
                do (buf', soi') <- EMITSO so buf soi ch;
                soname_loop so p2 buf' soi'
            | None => Ret (L_error, buf, soi)
            end
        end
  end.

(** The loop copying an unencoded function name. *)
Fixpoint fn_copy_loop (p : list HChar) (buf : list HChar) (fni : nat)
  : outcome (list HChar * nat) :=
  match p with
  | [] => Ret (buf, fni)
  | c :: p1 =>
      if (c =? NUL)%char then Ret (buf, fni)
      else
        do (buf', fni') <- EMITFN buf fni c;
        fn_copy_loop p1 buf' fni'
  end.

(** The loop decoding an encoded function name; [true] is [error]. *)
Fixpoint fn_decode_loop (p : list HChar) (buf : list HChar) (fni : nat)
  : outcome (bool * list HChar * nat) :=
  match p with
  | [] => Ret (false, buf, fni)
  | c :: p1 =>
      if (c =? NUL)%char then Ret (false, buf, fni)
      else if negb (c =? "Z")%char then
        do (buf', fni') <- EMITFN buf fni c;
        fn_decode_loop p1 buf' fni'
      else
        match p1 with
        | [] => Ret (true, buf, fni)
        | d :: p2 =>
            match z_escape d with
            | Some ch =>
                do (buf', fni') <- EMITFN buf fni ch;
                fn_decode_loop p2 buf' fni'
            | None => Ret (true, buf, fni)
            end
        end
  end.

(** The first [valid]: the twelve bytes of the header. *)
Definition header_valid (sym : list HChar) : bool :=
  (char_at sym 0 =? "_")%char
  && (char_at sym 1 =? "v")%char
  && (char_at sym 2 =? "g")%char
  && ((char_at sym 3 =? "r")%char || (char_at sym 3 =? "w")%char)
  && VG_isdigit (char_at sym 4)
  && VG_isdigit (char_at sym 5)
  && VG_isdigit (char_at sym 6)
  && VG_isdigit (char_at sym 7)
  && VG_isdigit (char_at sym 8)
  && (char_at sym 9 =? "Z")%char
  && ((char_at sym 10 =? "Z")%char || (char_at sym 10 =? "U")%char)
  && (char_at sym 11 =? "_")%char.

(** [valid] after the check that eclass tag 0000 comes with priority 0. *)
Definition valid (sym : list HChar) : bool :=
  let valid := header_valid sym in
  if valid
     && (char_at sym 4 =? "0")%char && (char_at sym 5 =? "0")%char
     && (char_at sym 6 =? "0")%char && (char_at sym 7 =? "0")%char
     && negb (char_at sym 8 =? "0")%char
  then false
  else valid.

Definition is_VG_Z_prefixed (sym : list HChar) : bool :=
  (char_at sym 12 =? "V")%char
  && (char_at sym 13 =? "G")%char
  && (char_at sym 14 =? "_")%char
  && (char_at sym 15 =? "Z")%char
  && (char_at sym 16 =? "_")%char.

Definition eclassTag_of (sym : list HChar) : Z :=
  (1000 * (Int_of_HChar (char_at sym 4) - Int_of_HChar "0")
   + 100 * (Int_of_HChar (char_at sym 5) - Int_of_HChar "0")
   + 10 * (Int_of_HChar (char_at sym 6) - Int_of_HChar "0")
   + 1 * (Int_of_HChar (char_at sym 7) - Int_of_HChar "0"))%Z.

Definition eclassPrio_of (sym : list HChar) : Z :=
  (Int_of_HChar (char_at sym 8) - Int_of_HChar "0")%Z.

(** The label [out:]: [EMITSO(0); EMITFN(0);] and the return value.  The
    message printed when [error] is set is not part of the model. *)
Definition out_label (so : bool) (error : bool) (len : nat)
    (sb : list HChar) (soi : nat) (fb : list HChar) (fni : nat) (o : outs)
  : outcome (bool * statics * outs) :=
  do (sb', _) <- EMITSO so sb soi NUL;
  do (fb', _) <- EMITFN fb fni NUL;
  Ret (negb error, {| sobuf := sb'; fnbuf := fb'; buf_len := len |}, o).

(** [VG_(maybe_Z_demangle)].  [so], [isWrap], [eclassTag] and [eclassPrio]
    tell whether the OUT pointer of that name is non-NULL; [fn] never is. *)
Definition VG_maybe_Z_demangle (sym : list HChar)
    (so isWrap eclassTag eclassPrio : bool) (s : statics) (o : outs)
  : outcome (bool * statics * outs) :=
  let len := strlen sym + 1 in
  let s :=
    if buf_len s <? len
    then {| sobuf := arena_realloc (sobuf s) len;
            fnbuf := arena_realloc (fnbuf s) len;
            buf_len := len |}
    else s in
  do fb <- store (fnbuf s) 0 NUL;
  do sb <- store (sobuf s) 0 NUL;
  let o := if so then set_so o SOBUF else o in
  let o := set_fn o FNBUF in
  if negb (valid sym)
  then Ret (false, {| sobuf := sb; fnbuf := fb; buf_len := buf_len s |}, o)
  else
    let fn_is_encoded := (char_at sym 10 =? "Z")%char in
    let o := if isWrap then set_isWrap o (char_at sym 3 =? "w")%char else o in
    do o <-
      (if eclassTag
       then let t := eclassTag_of sym in
            if ((0 <=? t) && (t <=? 9999))%Z
            then Ret (set_eclassTag o t) else Abort A_eclassTag_range
       else Ret o);
    do o <-
      (if eclassPrio
       then let q := eclassPrio_of sym in
            if ((0 <=? q) && (q <=? 9))%Z
            then Ret (set_eclassPrio o q) else Abort A_eclassPrio_range
       else Ret o);
    if is_VG_Z_prefixed sym then Abort A_VG_Z_prefix
    else
      (* i = 12 *)
      do (ex, sb, soi) <- soname_loop so (drop 12 sym) sb 0;
      match ex with
      | L_error => out_label so true (buf_len s) sb soi fb 0 o
      | L_break p =>
          if negb (deref p =? "_")%char then Abort A_delimiter
          else
            let p := drop 1 p in
            if negb fn_is_encoded
            then
              do (fb, fni) <- fn_copy_loop p fb 0;
              out_label so false (buf_len s) sb soi fb fni o
            else
              do (error, fb, fni) <- fn_decode_loop p fb 0;
              out_label so error (buf_len s) sb soi fb fni o
      end.

End WithUninit.

End ZDemangle.

(* ===================================================================== *)
(** * DEMANGLE RUST NAMES *)
(* ===================================================================== *)

Module Rust.

Definition hash_prefix : list HChar := lit "::h".
Definition hash_prefix_len : nat := 3.
Definition hash_len : nat := 16.

(** The loop of [is_prefixed_hash] over the [hash_len] digits: [n] is
    [end - str]; [None] is its [return False].  [VG_(memset)] has cleared
    the sixteen cells of [seen], and the guards keep every index below 16. *)
Fixpoint seen_loop (n : nat) (str : list HChar) (seen : list bool)
  : option (list bool) :=
  match n with
  | 0 => Some seen
  | S n' =>
      let c := deref str in
      if ("0" <=? c)%char && (c <=? "9")%char then
        seen_loop n' (drop 1 str)
          (<[nat_of_ascii c - nat_of_ascii "0" := true]> seen)
      else if ("a" <=? c)%char && (c <=? "f")%char then
        seen_loop n' (drop 1 str)
          (<[nat_of_ascii c - nat_of_ascii "a" + 10 := true]> seen)
      else None
  end.

(** [for (i = 0; i < 16; i++) if (seen[i]) count++;] *)
Definition count_seen (seen : list bool) : nat :=
  foldl (fun count i => if default false (seen !! i) then S count else count)
        0 (seq 0 16).

Definition is_prefixed_hash (str : list HChar) : bool :=
  if negb (strncmp str hash_prefix hash_prefix_len) then false
  else
    let str := drop hash_prefix_len str in
    match seen_loop hash_len str (replicate 16 false) with
    | None => false
    | Some seen =>
        let count := count_seen seen in
        (5 <=? count) && (count <=? 15)
    end.

(** The escape sequences [looks_like_rust] compares with, by length. *)
Definition tokens3 : list (list HChar) := [lit "$C$"].
Definition tokens4 : list (list HChar) :=
  [lit "$SP$"; lit "$BP$"; lit "$RF$"; lit "$LT$"; lit "$GT$"; lit "$LP$";
   lit "$RP$"].
Definition tokens5 : list (list HChar) :=
  [lit "$u20$"; lit "$u22$"; lit "$u27$"; lit "$u2b$"; lit "$u3b$";
   lit "$u5b$"; lit "$u5d$"; lit "$u7b$"; lit "$u7d$"; lit "$u7e$"].

(** [case 'a' ... 'z': case 'A' ... 'Z': case '0' ... '9':] *)
Definition is_alnum (c : HChar) : bool :=
  (("a" <=? c)%char && (c <=? "z")%char)
  || (("A" <=? c)%char && (c <=? "Z")%char)
  || (("0" <=? c)%char && (c <=? "9")%char).

(** The loop of [looks_like_rust]; [str] and [end_] are offsets into [sym]. *)
Fixpoint looks_like_rust_loop (fuel : nat) (sym : list HChar) (str end_ : nat)
  : outcome bool :=
  match fuel with
  | 0 => OutOfFuel
  | S fuel' =>
      if str <? end_ then
        let p := drop str sym in
        let c := deref p in
        if (c =? "$")%char then
          if existsb (fun t => strncmp p t 3) tokens3
          then looks_like_rust_loop fuel' sym (str + 3) end_
          else if existsb (fun t => strncmp p t 4) tokens4
          then looks_like_rust_loop fuel' sym (str + 4) end_
          else if existsb (fun t => strncmp p t 5) tokens5
          then looks_like_rust_loop fuel' sym (str + 5) end_
          else Ret false
        else if (c =? ".")%char then
          (* Do not allow three or more consecutive dots *)
          if strncmp p (lit "...") 3 then Ret false
          else looks_like_rust_loop fuel' sym (str + 1) end_
        else if is_alnum c || (c =? "_")%char || (c =? ":")%char then
          looks_like_rust_loop fuel' sym (str + 1) end_
        else Ret false
      else Ret true
  end.

(** [looks_like_rust(str, len)]: every turn of the loop advances [str], so
    [len] turns and the final test are all that can happen. *)
Definition looks_like_rust (str : list HChar) (len : nat) : outcome bool :=
  looks_like_rust_loop (S len) str 0 len.

(** [rust_is_mangled]; [None] is the NULL pointer. *)
Definition rust_is_mangled (sym : option (list HChar)) : outcome bool :=
  match sym with
  | None => Ret false
  | Some sym =>
      let len := strlen sym in
      if len <=? hash_prefix_len + hash_len then Ret false
      else
        let len_without_hash := len - (hash_prefix_len + hash_len) in
        if negb (is_prefixed_hash (drop len_without_hash sym)) then Ret false
        else looks_like_rust sym len_without_hash
  end.

(** The block being rewritten and the cursors [in] and [out], as offsets
    from [sym]. *)
Record cursor : Type := {
  buf : list HChar;
  in_ : nat;
  out : nat
}.

(** [unescape(&in, &out, seq, value)] *)
Definition unescape (st : cursor) (seq : list HChar) (value : HChar)
  : outcome (bool * cursor) :=
  let len := strlen seq in
  if negb (strncmp (drop (in_ st) (buf st)) seq len) then Ret (false, st)
  else
    do b <- store (buf st) (out st) value;
    Ret (true, {| buf := b; in_ := in_ st + len; out := out st + 1 |}).

(** The calls of [unescape] in [rust_demangle_sym], in their order. *)
Definition rust_escapes : list (list HChar * HChar) :=
  [(lit "$C$", ","); (lit "$SP$", "@"); (lit "$BP$", "*"); (lit "$RF$", "&");
   (lit "$LT$", "<"); (lit "$GT$", ">"); (lit "$LP$", "("); (lit "$RP$", ")");
   (lit "$u20$", " "); (lit "$u22$", "034" (* the double quote *));
   (lit "$u27$", "'");
   (lit "$u2b$", "+"); (lit "$u3b$", ";"); (lit "$u5b$", "[");
   (lit "$u5d$", "]"); (lit "$u7b$", "{"); (lit "$u7d$", "}");
   (lit "$u7e$", "~")].

(** [unescape(..) || unescape(..) || ...]: the first call that succeeds
    ends the chain. *)
Fixpoint unescape_any (st : cursor) (tbl : list (list HChar * HChar))
  : outcome (bool * cursor) :=
  match tbl with
  | [] => Ret (false, st)
  | (seq, value) :: tbl' =>
      do (ok, st') <- unescape st seq value;
      if ok then Ret (true, st') else unescape_any st' tbl'
  end.

(** How the [while] loop of [rust_demangle_sym] is left. *)
Inductive scan_exit : Type :=
| S_done     (* [in < end] fails: [goto done] *)
| S_fail.    (* [goto fail] *)

(** [*out++ = c; in += n] *)
Definition emit (st : cursor) (c : HChar) (n : nat) : outcome cursor :=
  do b <- store (buf st) (out st) c;
  Ret {| buf := b; in_ := in_ st + n; out := out st + 1 |}.

(** The [while (in < end)] loop.  [end_] is an integer: for a string shorter
    than the hash the source forms a pointer before [sym], which compares
    below [in] on a flat address space. *)
Fixpoint demangle_loop (fuel : nat) (end_ : Z) (st : cursor)
  : outcome (scan_exit * cursor) :=
  match fuel with
  | 0 => OutOfFuel
  | S fuel' =>
      if (Z.of_nat (in_ st) <? end_)%Z then
        let c := char_at (buf st) (in_ st) in
        if (c =? "$")%char then
          do (ok, st') <- unescape_any st rust_escapes;
          if ok then demangle_loop fuel' end_ st' else Ret (S_fail, st')
        else if (c =? "_")%char then
          if ((in_ st =? 0) || (char_at (buf st) (in_ st - 1) =? ":")%char)
             && (char_at (buf st) (in_ st + 1) =? "$")%char
          then demangle_loop fuel' end_
                 {| buf := buf st; in_ := in_ st + 1; out := out st |}
          else
            do st' <- emit st c 1;
            demangle_loop fuel' end_ st'
        else if (c =? ".")%char then
          if (char_at (buf st) (in_ st + 1) =? ".")%char then
            (* ".." becomes "::" *)
            do st1 <- emit st ":" 0;
            do st2 <- emit st1 ":" 2;
            demangle_loop fuel' end_ st2
          else
            (* "." becomes "-" *)
            do st' <- emit st "-" 1;
            demangle_loop fuel' end_ st'
        else if is_alnum c || (c =? ":")%char then
          do st' <- emit st c 1;
          demangle_loop fuel' end_ st'
        else Ret (S_fail, st)
      else Ret (S_done, st)
  end.

(** The scan of [rust_demangle_sym] over a non-NULL [sym]: every turn
    advances [in], which stays below [end], so [sym_len] turns and the final
    test are all that can happen. *)
Definition rust_demangle_scan (sym : list HChar) : outcome (scan_exit * cursor) :=
  let sym_len := strlen sym in
  let end_ := (Z.of_nat sym_len - Z.of_nat (hash_prefix_len + hash_len))%Z in
  demangle_loop (S sym_len) end_ {| buf := sym; in_ := 0; out := 0 |}.

(** [rust_demangle_sym]; [None] is the NULL pointer, and the result is the
    block after the rewriting. *)
Definition rust_demangle_sym (sym : option (list HChar))
  : outcome (option (list HChar)) :=
  match sym with
  | None => Ret None
  | Some sym =>
      let sym_len := strlen sym in
      let never_after := sym_len in
      do (ex, st) <- rust_demangle_scan sym;
      do st <-
        match ex with
        | S_fail => emit st "?" 0
        | S_done => Ret st
        end;
      do st <- emit st NUL 0;
      if out st <=? never_after then Ret (Some (buf st))
      else Abort A_never_after
  end.

End Rust.

(* ===================================================================== *)
(** * The main entry point *)
(* ===================================================================== *)

Module Demangle.

(** An address in the arena [VG_AR_DEMANGLE]. *)
Definition addr : Type := nat.

(** What the run of a call does to the arena and to the stage-1 demangler. *)
Inductive event : Type :=
| E_arena_free (a : addr)                  (* VG_(arena_free)(VG_AR_DEMANGLE, a) *)
| E_cplus_demangle (arg : list HChar).     (* ML_(cplus_demangle)(arg, ...) *)

(** A [const HChar*] held by [VG_(demangle)]. *)
Inductive strptr : Type :=
| P_NULL
| P_orig                 (* the caller's [orig] *)
| P_fnbuf                (* [fnbuf] of [VG_(maybe_Z_demangle)] *)
| P_heap (a : addr).     (* a block of the arena *)

(** The statics of the two functions, the arena and the events so far. *)
Record state : Type := {
  zstatics : ZDemangle.statics;
  demangled : option addr;                 (* [static HChar* demangled] *)
  heap : gmap addr (list HChar);
  trace : list event
}.

Definition state_init : state :=
  {| zstatics := ZDemangle.statics_init; demangled := None;
     heap := ∅; trace := [] |}.

Section WithEnvironment.

Variable uninit : nat -> HChar.

(** Modelled from the spec: [ML_(cplus_demangle)] is the libiberty
    demangler, which is not part of the sources at hand; it is "a pure
    function cxx_demangle(raw) -> Option<OwnedString>" whose result, when
    there is one, is a fresh heap block owned by the caller. *)
Variable cplus_demangle : list HChar -> option (list HChar).

(** Modelled from the spec: [VG_(clo_demangle)] is a command-line option
    declared in pub_core_options.h, which is not part of the sources at
    hand ("command-line flag parsing" is out of scope). *)
Variable clo_demangle : bool.

(** [VG_(maybe_Z_demangle)( orig, NULL, &z_demangled, NULL, NULL, NULL )]:
    the Z-decoding step, giving the new [orig] and the bytes it points to. *)
Definition undo_Z (do_z_demangling : bool) (orig : option (list HChar))
    (st : state) : outcome (strptr * option (list HChar) * state) :=
  let p := match orig with None => P_NULL | Some _ => P_orig end in
  if do_z_demangling then
    match orig with
    | None => Trap                       (* VG_(strlen)(NULL) *)
    | Some sym =>
        do (ok, zs, o) <-
          ZDemangle.VG_maybe_Z_demangle uninit sym false false false false
            (zstatics st)
            {| ZDemangle.so_v := None; ZDemangle.fn_v := None;
               ZDemangle.isWrap_v := false; ZDemangle.eclassTag_v := 0%Z;
               ZDemangle.eclassPrio_v := 0%Z |};
        let st' := {| zstatics := zs; demangled := demangled st;
                      heap := heap st; trace := trace st |} in
        if ok then Ret (P_fnbuf, Some (ZDemangle.fnbuf zs), st')
        else Ret (p, orig, st')
    end
  else Ret (p, orig, st).

(** The test guarding stage 1. *)
Definition wants_cxx (do_cxx_demangling : bool) (orig : option (list HChar))
  : bool :=
  do_cxx_demangling && clo_demangle
  && match orig with
     | None => false
     | Some m => (char_at m 0 =? "_")%char && (char_at m 1 =? "Z")%char
     end.

(** [if (demangled) { VG_(arena_free)(VG_AR_DEMANGLE, demangled);
    demangled = NULL; }]: the block leaves the heap.

    Modelled from the spec: [VG_(arena_free)] is declared in
    pub_core_mallocfree.h, which is not part of the sources at hand; it
    "releases" the block it is given. *)
Definition free_previous (st : state) : state :=
  match demangled st with
  | Some a =>
      {| zstatics := zstatics st; demangled := None;
         heap := delete a (heap st);
         trace := trace st ++ [E_arena_free a] |}
  | None => st
  end.

(** [demangled = ML_(cplus_demangle)(orig, DMGL_ANSI | DMGL_PARAMS)] *)
Definition call_cplus_demangle (m : list HChar) (st : state) : state :=
  let tr := trace st ++ [E_cplus_demangle (cstr m)] in
  match cplus_demangle (cstr m) with
  | None =>
      {| zstatics := zstatics st; demangled := None;
         heap := heap st; trace := tr |}
  | Some blk =>
      let a := fresh (dom (heap st)) in
      {| zstatics := zstatics st; demangled := Some a;
         heap := <[a := blk]> (heap st); trace := tr |}
  end.

(** [VG_(demangle)]: the value left in [*result], and the new state. *)
Definition VG_demangle (do_cxx_demangling do_z_demangling : bool)
    (orig : option (list HChar)) (st : state) : outcome (strptr * state) :=
  (* Possibly undo (2) *)
  do (p_orig, orig, st) <- undo_Z do_z_demangling orig st;
  (* Possibly undo (1) *)
  if wants_cxx do_cxx_demangling orig then
    let st := free_previous st in
    let st := call_cplus_demangle (default [] orig) st in
    match demangled st with
    | Some a =>
        (* Possibly undo (0) *)
        let blk := default [] (heap st !! a) in
        do r <- Rust.rust_is_mangled (Some blk);
        do blk' <-
          (if r then
             do b <- Rust.rust_demangle_sym (Some blk);
             Ret (default blk b)
           else Ret blk);
        Ret (P_heap a,
             {| zstatics := zstatics st; demangled := demangled st;
                heap := <[a := blk']> (heap st); trace := trace st |})
    | None => Ret (p_orig, st)
    end
  else Ret (p_orig, st).

(** The bytes behind the pointer [VG_(demangle)] has returned. *)
Definition string_at (orig : option (list HChar)) (st : state) (p : strptr)
  : option (list HChar) :=
  match p with
  | P_NULL => None
  | P_orig => cstr <$> orig
  | P_fnbuf => Some (cstr (ZDemangle.fnbuf (zstatics st)))
  | P_heap a => cstr <$> (heap st !! a)
  end.

End WithEnvironment.

End Demangle.

(* ===================================================================== *)
(** * What the specification says *)
(* ===================================================================== *)

Module Spec.

(** The escape alphabet: selector letter, decoded character. *)
Definition z_table : list (HChar * HChar) :=
  [("a", "*"); ("c", ":"); ("d", "."); ("h", "-"); ("p", "+"); ("s", " ");
   ("u", "_"); ("A", "@"); ("D", "$"); ("L", "("); ("P", "%"); ("R", ")");
   ("S", "/"); ("Z", "Z")].

(** The character the table gives for a selector, if any. *)
Fixpoint table_char (t : list (HChar * HChar)) (c : HChar) : option HChar :=
  match t with
  | [] => None
  | (k, v) :: t' => if decide (k = c) then Some v else table_char t' c
  end.

(** An encoded field with each Z-escape pair replaced by its table character
    and the other bytes copied; [None] when a [Z] has no selector of the
    table after it. *)
Fixpoint z_decoded (enc : list HChar) : option (list HChar) :=
  match enc with
  | [] => Some []
  | c :: r =>
      if decide (c = "Z") then
        match r with
        | [] => None
        | d :: r' =>
            match table_char z_table d with
            | Some x => cons x <$> z_decoded r'
            | None => None
            end
        end
      else cons c <$> z_decoded r
  end.

(** One of the ten decimal digits, and its value. *)
Definition decimal_digit (d : HChar) : Prop := d ∈ lit "0123456789".

Definition digit_value (d : HChar) : Z := (Z.of_nat (nat_of_ascii d) - 48)%Z.

(** Digits read as a decimal number. *)
Definition decimal (ds : list HChar) : Z :=
  foldl (fun acc d => (10 * acc + digit_value d)%Z) 0%Z ds.

(** The fixed twelve-byte header, followed by [body]. *)
Definition Zheader (sym : list HChar) (w d1 d2 d3 d4 d5 k : HChar)
    (body : list HChar) : Prop :=
  sym = lit "_vg" ++ [w; d1; d2; d3; d4; d5; "Z"; k; "_"] ++ body
  ∧ (w = "r" ∨ w = "w")
  ∧ decimal_digit d1 ∧ decimal_digit d2 ∧ decimal_digit d3
  ∧ decimal_digit d4 ∧ decimal_digit d5
  ∧ (k = "Z" ∨ k = "U").

(** Tag digits 0000 together with a priority digit that is not 0. *)
Definition tag0_with_prio (d1 d2 d3 d4 d5 : HChar) : Prop :=
  d1 = "0" ∧ d2 = "0" ∧ d3 = "0" ∧ d4 = "0" ∧ d5 ≠ "0".

(** One of the sixteen lowercase hexadecimal digits. *)
Definition lower_hex (c : HChar) : Prop := c ∈ lit "0123456789abcdef".

(** How many different values a list of digits uses. *)
Definition distinct_values (hex : list HChar) : nat := length (remove_dups hex).

(** The [$...$] tokens of the Rust escape table. *)
Definition rust_tokens : list (list HChar) :=
  [lit "$C$"; lit "$SP$"; lit "$BP$"; lit "$RF$"; lit "$LT$"; lit "$GT$";
   lit "$LP$"; lit "$RP$"; lit "$u20$"; lit "$u22$"; lit "$u27$"; lit "$u2b$";
   lit "$u3b$"; lit "$u5b$"; lit "$u5d$"; lit "$u7b$"; lit "$u7d$";
   lit "$u7e$"].

(** One of a-z, A-Z, 0-9, [_], [:] and [.]. *)
Definition plain_char (c : HChar) : Prop :=
  c ∈ lit "abcdefghijklmnopqrstuvwxyzABCDEFGHIJKLMNOPQRSTUVWXYZ0123456789_:.".

(** A piece of the name before the hash: one plain character or one token. *)
Definition item (it : list HChar) : Prop :=
  (∃ c, plain_char c ∧ it = [c]) ∨ it ∈ rust_tokens.

(** A run of three or more consecutive dots. *)
Definition three_dots (p : list HChar) : Prop :=
  ∃ a b, p = a ++ lit "..." ++ b.

(** What the heuristic is to accept. *)
Definition looks_mangled (s : list HChar) : Prop :=
  ∃ p hex,
    s = p ++ lit "::h" ++ hex
    ∧ p ≠ []
    ∧ length hex = 16 ∧ Forall lower_hex hex
    ∧ 5 <= distinct_values hex <= 15
    ∧ (∃ items, Forall item items ∧ p = concat items)
    ∧ ¬ three_dots p.

(** The string begins with the two-byte marker [_Z]. *)
Definition begins_with_Z (s : option (list HChar)) : Prop :=
  ∃ m, s = Some m ∧ lit "_Z" `prefix_of` cstr m.

End Spec.

(* ===================================================================== *)
(** * Definitions used by the proofs *)
(* ===================================================================== *)

Import ZDemangle Rust Demangle.

(** [buf] holds the characters [e], none of them NUL, and a terminator at
    index [i] after them: what the [EMIT] macros keep true of a buffer. *)
Definition holds (buf : list HChar) (i : nat) (e : list HChar) : Prop :=
  length e = i ∧ (NUL ∉ e) ∧ (∃ rest, buf = e ++ NUL :: rest).

(** The characters a decoding loop emits and the way it ends, without the buffer. *)
Inductive scan_end : Type :=
| E_delim (p : list HChar)   (* at the delimiter [_] *)
| E_nul                      (* at the terminator *)
| E_bad.                     (* at a selector the [switch] does not know *)

(** [us] tells whether [_] is the delimiter (soname) or a plain byte
    (function name). *)
Fixpoint z_scan (us : bool) (p : list HChar) : list HChar * scan_end :=
  match p with
  | [] => ([], E_nul)
  | c :: p1 =>
      if us && (c =? "_")%char then ([], E_delim p)
      else if (c =? NUL)%char then ([], E_nul)
      else if negb (c =? "Z")%char then
        let '(e, x) := z_scan us p1 in (c :: e, x)
      else
        match p1 with
        | [] => ([], E_bad)
        | d :: p2 =>
            match z_escape d with
            | Some ch => let '(e, x) := z_scan us p2 in (ch :: e, x)
            | None => ([], E_bad)
            end
        end
  end.

(** How the soname loop leaves for each ending of the scan. *)
Definition exit_of (x : scan_end) : loop_exit :=
  match x with E_delim p => L_break p | _ => L_error end.

(** The length of what is left to read after the scan. *)
Definition rest_len (x : scan_end) : nat :=
  match x with E_delim p => strlen p | _ => 0 end.

(** The [error] flag of the loop over an encoded function name. *)
Definition is_bad (x : scan_end) : bool :=
  match x with E_bad => true | _ => false end.

(** The 256 characters, one by one. *)
Ltac ascii_cases c := destruct c as [[|] [|] [|] [|] [|] [|] [|] [|]].

(** The two static buffers have the size recorded in [buf_len]: so it is
    before the first call, and every call keeps it so. *)
Definition statics_wf (s : statics) : Prop :=
  length (sobuf s) = buf_len s ∧ length (fnbuf s) = buf_len s.

(** The soname the loop decodes, and the function name with the success flag. *)
Definition z_soname (sym : list HChar) : list HChar :=
  (z_scan true (drop 12 sym)).1.

Definition z_fnname (sym : list HChar) : list HChar * bool :=
  match (z_scan true (drop 12 sym)).2 with
  | E_delim q =>
      if (char_at sym 10 =? "Z")%char
      then let '(e, x) := z_scan false (drop 1 q) in (e, negb (is_bad x))
      else (cstr (drop 1 q), true)
  | _ => ([], false)
  end.

(** The caller's cells after a call that has not stopped on an assertion. *)
Definition outs_after (so isWrap eclassTag eclassPrio : bool)
    (sym : list HChar) (o : outs) : outs :=
  let o := if so then set_so o SOBUF else o in
  let o := set_fn o FNBUF in
  if valid sym then
    let o := if isWrap then set_isWrap o (char_at sym 3 =? "w")%char else o in
    let o := if eclassTag then set_eclassTag o (eclassTag_of sym) else o in
    if eclassPrio then set_eclassPrio o (eclassPrio_of sym) else o
  else o.

(** Cells of a caller that has not written them. *)
Definition outs_blank : outs :=
  {| so_v := None; fn_v := None; isWrap_v := false;
     eclassTag_v := (-1)%Z; eclassPrio_v := (-1)%Z |}.

(** Fresh memory filled with the letter [x]. *)
Definition uninit_x : nat -> HChar := fun _ => "x".

(** Solves [Spec.Zheader] on a literal. *)
Ltac zheader_tac :=
  split; [reflexivity|];
  repeat split; first [ by left | by right | by compute_done ].

(** The index in [seen] of a lowercase hexadecimal digit. *)
Definition hexval (c : HChar) : nat :=
  if ("0" <=? c)%char && (c <=? "9")%char
  then nat_of_ascii c - nat_of_ascii "0"
  else nat_of_ascii c - nat_of_ascii "a" + 10.

(** [seen] after the digits [hex] have been marked. *)
Definition mark (seen : list bool) (hex : list HChar) : list bool :=
  foldl (fun s c => <[hexval c := true]> s) seen hex.

(** The length of the escape sequence [looks_like_rust] finds at [p]. *)
Definition token_len (p : list HChar) : option nat :=
  if existsb (fun t => strncmp p t 3) tokens3 then Some 3
  else if existsb (fun t => strncmp p t 4) tokens4 then Some 4
  else if existsb (fun t => strncmp p t 5) tokens5 then Some 5
  else None.

(** Three dots in a row somewhere in [p]. *)
Fixpoint has3 (p : list HChar) : bool :=
  match p with
  | [] => false
  | c :: q =>
      ((c =? ".")%char && (deref q =? ".")%char && (deref (drop 1 q) =? ".")%char)
      || has3 q
  end.

(** A character the decoder may leave in its output. *)
Definition good (c : HChar) : Prop := c ≠ NUL ∧ c ≠ "?".

(** The invariant of the Z-decoder's statics, for the whole state. *)
Definition state_wf (st : state) : Prop := statics_wf (zstatics st).

(** A stage-1 demangler for the examples: it knows one Rust symbol and one
    C++ symbol. *)
Definition cxx_test (s : list HChar) : option (list HChar) :=
  if decide (s = lit "_Zrust") then
    Some (lit "_$LT$std..sys..fd..FileDesc$u20$as$u20$core..ops..Drop$GT$::drop::hc68340e1baa4987a" ++ [NUL])
  else if decide (s = lit "_Z3foov") then Some (lit "foo()" ++ [NUL])
  else None.

(** The heap once the buffer [demangled] points to has been given back. *)
Definition heap_released (st : state) : gmap addr (list HChar) :=
  match demangled st with
  | Some a => delete a (heap st)
  | None => heap st
  end.

(** The events of giving that buffer back. *)
Definition release_events (st : state) : list event :=
  match demangled st with
  | Some a => [E_arena_free a]
  | None => []
  end.

(** The state after a first call that has kept a buffer. *)
Definition state_after_foo : state :=
  match VG_demangle uninit_x cxx_test true true true (Some (lit "_Z3foov"))
          state_init with
  | Ret (_, st) => st
  | _ => state_init
  end.

(** The Z-encoding of one character: the escape pair that the [switch] of
    the decoder turns into it, or the character itself when no [case]
    produces it. *)
Definition z_encode_char (c : HChar) : list HChar :=
  if (c =? "*")%char then lit "Za"
  else if (c =? ":")%char then lit "Zc"
  else if (c =? ".")%char then lit "Zd"
  else if (c =? "-")%char then lit "Zh"
  else if (c =? "+")%char then lit "Zp"
  else if (c =? " ")%char then lit "Zs"
  else if (c =? "_")%char then lit "Zu"
  else if (c =? "@")%char then lit "ZA"
  else if (c =? "$")%char then lit "ZD"
  else if (c =? "(")%char then lit "ZL"
  else if (c =? "%")%char then lit "ZP"
  else if (c =? ")")%char then lit "ZR"
  else if (c =? "/")%char then lit "ZS"
  else if (c =? "Z")%char then lit "ZZ"
  else [c].

(** The Z-encoding of a name, character by character. *)
Definition z_encode (s : list HChar) : list HChar := flat_map z_encode_char s.

(** [case 'a' ... 'z': case 'A' ... 'Z': case '0' ... '9': case ':':] and
    [case '_':], the characters [rust_demangle_sym] copies. *)
Definition is_copied (c : HChar) : bool :=
  is_alnum c || (c =? ":")%char || (c =? "_")%char.

(** The character an escape sequence stands for: the [value] of the call of
    [unescape] in [rust_demangle_sym] that has it as [seq]. *)
Definition escape_value (t : list HChar) : HChar :=
  default "?" (snd <$> find (fun e => bool_decide (e.1 = t)) rust_escapes).

(** What the [switch] of [rust_demangle_sym] writes for a name cut into its
    items, single characters and escape sequences.  [colon] is the value of
    the test [in == sym || in[-1] == ':'] at the first item; [lag] tells
    whether [out] is behind [in], in which case the bytes before [in] are
    still those of the name, and otherwise those just written. *)
Fixpoint decode_items (lag colon : bool) (items : list (list HChar))
  : list HChar :=
  match items with
  | [] => []
  | it :: rest =>
      match it with
      | [c] =>
          if (c =? "_")%char then
            if colon && (deref (concat rest) =? "$")%char
            then decode_items true false rest              (* in++ *)
            else "_" :: decode_items lag false rest        (* *out++ = *in++ *)
          else if (c =? ".")%char then
            match rest with
            | _ :: rest' =>
                if (deref (concat rest) =? ".")%char
                then (* ".." becomes "::" *)
                  ":" :: ":" :: decode_items lag (negb lag) rest'
                else (* "." becomes "-" *)
                  "-" :: decode_items lag false rest
            | [] => ["-"]
            end
          else c :: decode_items lag (c =? ":")%char rest  (* *out++ = *in++ *)
      | _ => escape_value it :: decode_items true false rest (* unescape *)
      end
  end.

(** The arena holds the block [demangled] points to and no other. *)
Definition one_buffer (st : state) : Prop :=
  dom (heap st) =@{gset addr}
    match demangled st with Some a => {[a]} | None => ∅ end.

(** The state with other statics for the Z-decoder. *)
Definition with_zstatics (st : state) (zs : statics) : state :=
  {| zstatics := zs; demangled := demangled st; heap := heap st;
     trace := trace st |}.

(* ===================================================================== *)
(** * Proofs *)
(* ===================================================================== *)

(* --------------------------------------------------------------------- *)
(** ** C strings in blocks *)
(* --------------------------------------------------------------------- *)

Lemma store_Ret m i c : i < length m -> store m i c = Ret (<[i:=c]> m).
Proof. intros H. unfold store. apply Nat.ltb_lt in H. by rewrite H. Qed.

Lemma strlen_le m : strlen m <= length m.
Proof. induction m as [|c m IH]; simpl; [lia|]. destruct (c =? NUL)%char; simpl; lia. Qed.

Lemma strlen_no_NUL m : NUL ∉ m -> strlen m = length m.
Proof.
  induction m as [|c m IH]; simpl; intros H; [done|].
  apply not_elem_of_cons in H as [H1 H2].
  destruct (Ascii.eqb_spec c NUL); [congruence|]. by rewrite IH.
Qed.

Lemma cstr_app_NUL a b : NUL ∉ a -> cstr (a ++ NUL :: b) = a.
Proof.
  unfold cstr. induction a as [|c a IH]; simpl; intros H; [done|].
  apply not_elem_of_cons in H as [H1 H2].
  destruct (Ascii.eqb_spec c NUL); [congruence|]. simpl. by rewrite IH.
Qed.

Lemma cstr_id m : NUL ∉ m -> cstr m = m.
Proof. intros H. unfold cstr. rewrite strlen_no_NUL by done. apply firstn_all. Qed.

Lemma length_cstr m : length (cstr m) = strlen m.
Proof. unfold cstr. rewrite length_take. pose proof (strlen_le m). lia. Qed.

(* --------------------------------------------------------------------- *)
(** ** The Z-decoder: the buffers and the loops *)
(* --------------------------------------------------------------------- *)

Lemma holds_cstr buf i e : holds buf i e -> cstr buf = e.
Proof. intros (_ & Hn & rest & ->). by apply cstr_app_NUL. Qed.

Lemma holds_store_0 (buf : list HChar) : 0 < length buf -> holds (<[0:=NUL]> buf) 0 [].
Proof.
  destruct buf as [|c buf]; simpl; [lia|]. intros _.
  split; [done|]. split; [apply not_elem_of_nil|]. by exists buf.
Qed.

Lemma EMIT_holds buf i e ch :
  holds buf i e -> S i < length buf -> ch ≠ NUL ->
  ∃ buf', EMIT buf i ch = Ret (buf', S i)
          ∧ holds buf' (S i) (e ++ [ch]) ∧ length buf' = length buf.
Proof.
  intros (Hl & Hn & rest & ->) Hlt Hch. subst i.
  rewrite length_app in Hlt. simpl in Hlt.
  destruct rest as [|r rest]; simpl in Hlt; [lia|].
  exists (e ++ ch :: NUL :: rest).
  unfold EMIT. rewrite store_Ret by (rewrite length_app; simpl; lia). simpl.
  rewrite (insert_app_r_alt e) by lia. rewrite Nat.sub_diag. simpl.
  rewrite store_Ret by (rewrite length_app; simpl; lia). simpl.
  rewrite (insert_app_r_alt e) by lia.
  replace (S (length e) - length e) with 1 by lia. simpl.
  split; [done|]. split.
  - split; [rewrite length_app; simpl; lia|]. split.
    + rewrite elem_of_app, list_elem_of_singleton. intros [?|?]; congruence.
    + exists rest. by rewrite <- app_assoc.
  - rewrite !length_app. simpl. lia.
Qed.

Lemma EMIT_NUL_holds buf i e :
  holds buf i e -> S i < length buf ->
  ∃ buf', EMIT buf i NUL = Ret (buf', S i)
          ∧ cstr buf' = e ∧ length buf' = length buf.
Proof.
  intros (Hl & Hn & rest & ->) Hlt. subst i.
  rewrite length_app in Hlt. simpl in Hlt.
  destruct rest as [|r rest]; simpl in Hlt; [lia|].
  exists (e ++ NUL :: NUL :: rest).
  unfold EMIT. rewrite store_Ret by (rewrite length_app; simpl; lia). simpl.
  rewrite (insert_app_r_alt e) by lia. rewrite Nat.sub_diag. simpl.
  rewrite store_Ret by (rewrite length_app; simpl; lia). simpl.
  rewrite (insert_app_r_alt e) by lia.
  replace (S (length e) - length e) with 1 by lia. simpl.
  split; [done|]. split; [by apply cstr_app_NUL|].
  rewrite !length_app. simpl. lia.
Qed.

Lemma z_escape_not_NUL d ch : z_escape d = Some ch -> ch ≠ NUL ∧ d ≠ NUL.
Proof.
  unfold z_escape, NUL.
  repeat match goal with
         | |- context [Ascii.eqb d ?x] =>
             destruct (Ascii.eqb_spec d x) as [->|?];
             [intros [= <-]; split; discriminate|]
         end.
  discriminate.
Qed.

Lemma z_scan_facts us : ∀ n p, length p <= n ->
  (NUL ∉ (z_scan us p).1)
  ∧ length (z_scan us p).1 + rest_len (z_scan us p).2 <= strlen p
  ∧ (∀ q, (z_scan us p).2 = E_delim q -> us = true ∧ deref q = "_").
Proof.
  induction n as [|n IH]; intros p Hp.
  - destruct p; simpl in *; [|lia]. split; [apply not_elem_of_nil|]. split; [lia|done].
  - destruct p as [|c p1]; simpl.
    { split; [apply not_elem_of_nil|]. split; [simpl; lia|done]. }
    simpl in Hp.
    destruct (us && (c =? "_")%char) eqn:Hus; simpl.
    { apply andb_true_iff in Hus as [-> Hc]. apply Ascii.eqb_eq in Hc as ->.
      split; [apply not_elem_of_nil|]. split; [simpl; lia|]. by intros q [= <-]. }
    destruct (Ascii.eqb_spec c NUL) as [->|Hc]; simpl.
    { split; [apply not_elem_of_nil|]. split; [simpl; lia|done]. }
    destruct (Ascii.eqb_spec c "Z") as [->|HZ]; simpl.
    + destruct p1 as [|d p2]; simpl.
      { split; [apply not_elem_of_nil|]. split; [simpl; lia|done]. }
      destruct (z_escape d) as [ch|] eqn:Hd; simpl.
      * destruct (z_escape_not_NUL _ _ Hd) as [Hch Hd'].
        destruct (IH p2 ltac:(simpl in Hp; lia)) as (H1 & H2 & H3).
        destruct (z_scan us p2) as [e x]; simpl in *.
        destruct (Ascii.eqb_spec d NUL); [done|].
        split; [apply not_elem_of_cons; split; [congruence|done]|].
        split; [lia|done].
      * split; [apply not_elem_of_nil|]. split; [simpl; lia|done].
    + destruct (IH p1 ltac:(lia)) as (H1 & H2 & H3).
      destruct (z_scan us p1) as [e x]; simpl in *.
      split; [apply not_elem_of_cons; split; [congruence|done]|].
      split; [lia|done].
Qed.

Lemma soname_loop_emits : ∀ n p buf i e,
  length p <= n -> holds buf i e -> i + strlen p < length buf ->
  ∃ buf', soname_loop true p buf i
          = Ret (exit_of (z_scan true p).2, buf', i + length (z_scan true p).1)
    ∧ holds buf' (i + length (z_scan true p).1) (e ++ (z_scan true p).1)
    ∧ length buf' = length buf.
Proof.
  induction n as [|n IH]; intros p buf i e Hp Hh Hlt.
  { destruct p; simpl in *; [|lia]. exists buf.
    rewrite Nat.add_0_r, app_nil_r. done. }
  destruct p as [|c p1]; simpl in *.
  { exists buf. rewrite Nat.add_0_r, app_nil_r. done. }
  destruct (Ascii.eqb_spec c "_") as [->|Hus]; simpl.
  { exists buf. rewrite Nat.add_0_r, app_nil_r. done. }
  destruct (Ascii.eqb_spec c NUL) as [->|Hc]; simpl.
  { exists buf. rewrite Nat.add_0_r, app_nil_r. done. }
  destruct (Ascii.eqb_spec c "Z") as [->|HZ]; simpl.
  - destruct p1 as [|d p2]; simpl in *.
    { exists buf. rewrite Nat.add_0_r, app_nil_r. done. }
    destruct (z_escape d) as [ch|] eqn:Hd; simpl.
    + destruct (z_escape_not_NUL _ _ Hd) as [Hch Hd'].
      destruct (Ascii.eqb_spec d NUL); [done|].
      destruct (EMIT_holds buf i e ch Hh ltac:(lia) Hch) as (b1 & -> & Hh1 & Hl1).
      simpl.
      destruct (IH p2 b1 (S i) (e ++ [ch]) ltac:(lia) Hh1 ltac:(lia))
        as (b2 & -> & Hh2 & Hl2).
      destruct (z_scan true p2) as [e2 x2]; simpl in *.
      exists b2. rewrite <- app_assoc in Hh2. simpl in Hh2.
      replace (i + S (length e2)) with (S i + length e2) by lia.
      split; [done|]. split; [done|]. congruence.
    + exists buf. rewrite Nat.add_0_r, app_nil_r. done.
  - destruct (EMIT_holds buf i e c Hh ltac:(lia) Hc) as (b1 & -> & Hh1 & Hl1).
    simpl.
    destruct (IH p1 b1 (S i) (e ++ [c]) ltac:(lia) Hh1 ltac:(lia))
      as (b2 & -> & Hh2 & Hl2).
    destruct (z_scan true p1) as [e2 x2]; simpl in *.
    exists b2. rewrite <- app_assoc in Hh2. simpl in Hh2.
    replace (i + S (length e2)) with (S i + length e2) by lia.
    split; [done|]. split; [done|]. congruence.
Qed.

Lemma soname_loop_skips : ∀ n p buf i,
  length p <= n ->
  soname_loop false p buf i = Ret (exit_of (z_scan true p).2, buf, i).
Proof.
  induction n as [|n IH]; intros p buf i Hp.
  { destruct p; simpl in *; [done|lia]. }
  destruct p as [|c p1]; simpl in *; [done|].
  destruct (Ascii.eqb_spec c "_") as [->|Hus]; simpl; [done|].
  destruct (Ascii.eqb_spec c NUL) as [->|Hc]; simpl; [done|].
  destruct (Ascii.eqb_spec c "Z") as [->|HZ]; simpl.
  - destruct p1 as [|d p2]; simpl in *; [done|].
    destruct (z_escape d) as [ch|] eqn:Hd; simpl; [|done].
    rewrite IH by lia. by destruct (z_scan true p2).
  - rewrite IH by lia. by destruct (z_scan true p1).
Qed.

Lemma fn_decode_loop_emits : ∀ n p buf i e,
  length p <= n -> holds buf i e -> i + strlen p < length buf ->
  ∃ buf', fn_decode_loop p buf i
          = Ret (is_bad (z_scan false p).2, buf', i + length (z_scan false p).1)
    ∧ holds buf' (i + length (z_scan false p).1) (e ++ (z_scan false p).1)
    ∧ length buf' = length buf.
Proof.
  induction n as [|n IH]; intros p buf i e Hp Hh Hlt.
  { destruct p; simpl in *; [|lia]. exists buf.
    rewrite Nat.add_0_r, app_nil_r. done. }
  destruct p as [|c p1]; simpl in *.
  { exists buf. rewrite Nat.add_0_r, app_nil_r. done. }
  destruct (Ascii.eqb_spec c NUL) as [->|Hc]; simpl.
  { exists buf. rewrite Nat.add_0_r, app_nil_r. done. }
  destruct (Ascii.eqb_spec c "Z") as [->|HZ]; simpl.
  - destruct p1 as [|d p2]; simpl in *.
    { exists buf. rewrite Nat.add_0_r, app_nil_r. done. }
    destruct (z_escape d) as [ch|] eqn:Hd; simpl.
    + destruct (z_escape_not_NUL _ _ Hd) as [Hch Hd'].
      destruct (Ascii.eqb_spec d NUL); [done|].
      unfold EMITFN.
      destruct (EMIT_holds buf i e ch Hh ltac:(lia) Hch) as (b1 & -> & Hh1 & Hl1).
      simpl.
      destruct (IH p2 b1 (S i) (e ++ [ch]) ltac:(lia) Hh1 ltac:(lia))
        as (b2 & -> & Hh2 & Hl2).
      destruct (z_scan false p2) as [e2 x2]; simpl in *.
      exists b2. rewrite <- app_assoc in Hh2. simpl in Hh2.
      replace (i + S (length e2)) with (S i + length e2) by lia.
      split; [done|]. split; [done|]. congruence.
    + exists buf. rewrite Nat.add_0_r, app_nil_r. done.
  - unfold EMITFN.
    destruct (EMIT_holds buf i e c Hh ltac:(lia) Hc) as (b1 & -> & Hh1 & Hl1).
    simpl.
    destruct (IH p1 b1 (S i) (e ++ [c]) ltac:(lia) Hh1 ltac:(lia))
      as (b2 & -> & Hh2 & Hl2).
    destruct (z_scan false p1) as [e2 x2]; simpl in *.
    exists b2. rewrite <- app_assoc in Hh2. simpl in Hh2.
    replace (i + S (length e2)) with (S i + length e2) by lia.
    split; [done|]. split; [done|]. congruence.
Qed.

Lemma fn_copy_loop_emits : ∀ p buf i e,
  holds buf i e -> i + strlen p < length buf ->
  ∃ buf', fn_copy_loop p buf i = Ret (buf', i + strlen p)
    ∧ holds buf' (i + strlen p) (e ++ cstr p)
    ∧ length buf' = length buf.
Proof.
  unfold cstr.
  induction p as [|c p1 IH]; intros buf i e Hh Hlt; simpl in *.
  { exists buf. rewrite Nat.add_0_r, app_nil_r. done. }
  destruct (Ascii.eqb_spec c NUL) as [->|Hc]; simpl in *.
  { exists buf. rewrite Nat.add_0_r, app_nil_r. done. }
  unfold EMITFN.
  destruct (EMIT_holds buf i e c Hh ltac:(lia) Hc) as (b1 & -> & Hh1 & Hl1).
  simpl.
  destruct (IH b1 (S i) (e ++ [c]) Hh1 ltac:(lia)) as (b2 & -> & Hh2 & Hl2).
  exists b2. rewrite <- app_assoc in Hh2. simpl in Hh2.
  replace (i + S (strlen p1)) with (S i + strlen p1) by lia.
  split; [done|]. split; [done|]. congruence.
Qed.

(* --------------------------------------------------------------------- *)
(** ** The Z-decoder: the whole function *)
(* --------------------------------------------------------------------- *)

Lemma statics_init_wf : statics_wf statics_init.
Proof. done. Qed.

Lemma char_at_cons_0 c (m : list HChar) : char_at (c :: m) 0 = c.
Proof. done. Qed.

Lemma char_at_cons_S c (m : list HChar) i : char_at (c :: m) (S i) = char_at m i.
Proof. done. Qed.

Lemma strlen_drop_prefix : ∀ k (m : list HChar),
  (∀ i, i < k -> char_at m i ≠ NUL) ->
  strlen (drop k m) + k = strlen m.
Proof.
  induction k as [|k IH]; intros m H; simpl.
  { rewrite drop_0. lia. }
  destruct m as [|c m].
  { exfalso. by apply (H 0 ltac:(lia)). }
  simpl. pose proof (H 0 ltac:(lia)) as H0. rewrite char_at_cons_0 in H0.
  destruct (Ascii.eqb_spec c NUL); [done|].
  rewrite <- (IH m); [lia|]. intros i Hi. apply (H (S i)). lia.
Qed.

Lemma VG_isdigit_not_NUL c : VG_isdigit c = true -> c ≠ NUL.
Proof. intros H ->. discriminate. Qed.

Lemma header_valid_inv sym :
  header_valid sym = true ->
  char_at sym 0 = "_" ∧ char_at sym 1 = "v" ∧ char_at sym 2 = "g"
  ∧ (char_at sym 3 = "r" ∨ char_at sym 3 = "w")
  ∧ VG_isdigit (char_at sym 4) = true ∧ VG_isdigit (char_at sym 5) = true
  ∧ VG_isdigit (char_at sym 6) = true ∧ VG_isdigit (char_at sym 7) = true
  ∧ VG_isdigit (char_at sym 8) = true
  ∧ char_at sym 9 = "Z"
  ∧ (char_at sym 10 = "Z" ∨ char_at sym 10 = "U")
  ∧ char_at sym 11 = "_".
Proof.
  unfold header_valid. rewrite !andb_true_iff, !orb_true_iff, !Ascii.eqb_eq.
  tauto.
Qed.

Lemma header_valid_no_NUL sym :
  header_valid sym = true -> ∀ i, i < 12 -> char_at sym i ≠ NUL.
Proof.
  intros H. apply header_valid_inv in H.
  destruct H as (H0&H1&H2&H3&H4&H5&H6&H7&H8&H9&H10&H11).
  intros i Hi.
  do 12 (destruct i as [|i];
         [first [ by apply VG_isdigit_not_NUL
                | intros E; rewrite E in *; intuition discriminate ]|]).
  lia.
Qed.

Lemma valid_header sym : valid sym = true -> header_valid sym = true.
Proof.
  unfold valid. destruct (header_valid sym); [done|]. simpl. done.
Qed.

Lemma VG_isdigit_range c :
  VG_isdigit c = true ->
  (0 <= Int_of_HChar c - Int_of_HChar "0" <= 9)%Z.
Proof.
  intros H. ascii_cases c; try discriminate H; vm_compute; split; discriminate.
Qed.

Lemma bind_Ret {A B} (a : A) (k : A -> outcome B) : bind (Ret a) k = k a.
Proof. done. Qed.

Section ZDecoder.
Variable uninit : nat -> HChar.

Lemma length_arena_realloc blk len : length (arena_realloc uninit blk len) = len.
Proof.
  unfold arena_realloc. rewrite length_take, length_app, length_map, length_seq. lia.
Qed.

Lemma VG_maybe_Z_demangle_char sym so isWrap eclassTag eclassPrio s o :
  statics_wf s ->
  if valid sym then
    if is_VG_Z_prefixed sym
    then VG_maybe_Z_demangle uninit sym so isWrap eclassTag eclassPrio s o
         = Abort A_VG_Z_prefix
    else ∃ s', VG_maybe_Z_demangle uninit sym so isWrap eclassTag eclassPrio s o
               = Ret ((z_fnname sym).2, s',
                      outs_after so isWrap eclassTag eclassPrio sym o)
          ∧ statics_wf s' ∧ strlen sym < buf_len s'
          ∧ cstr (sobuf s') = (if so then z_soname sym else [])
          ∧ cstr (fnbuf s') = (z_fnname sym).1
  else ∃ s', VG_maybe_Z_demangle uninit sym so isWrap eclassTag eclassPrio s o
             = Ret (false, s', outs_after so isWrap eclassTag eclassPrio sym o)
        ∧ statics_wf s' ∧ strlen sym < buf_len s'
        ∧ cstr (sobuf s') = [] ∧ cstr (fnbuf s') = [].
Proof.
  intros [Hws Hwf].
  unfold VG_maybe_Z_demangle, outs_after.
  set (len := strlen sym + 1).
  set (s1 := if buf_len s <? len then _ else s).
  assert (Hs1 : length (sobuf s1) = buf_len s1 ∧ length (fnbuf s1) = buf_len s1
                ∧ len <= buf_len s1).
  { subst s1. destruct (Nat.ltb_spec (buf_len s) len); simpl.
    - rewrite !length_arena_realloc. lia.
    - lia. }
  destruct Hs1 as (Hl1 & Hl2 & Hlen). clearbody s1.
  rewrite (store_Ret (fnbuf s1)) by (subst len; lia).
  rewrite (store_Ret (sobuf s1)) by (subst len; lia).
  cbv beta iota zeta. rewrite !bind_Ret.
  pose proof (holds_store_0 (fnbuf s1) ltac:(subst len; lia)) as Hfb.
  pose proof (holds_store_0 (sobuf s1) ltac:(subst len; lia)) as Hsb.
  assert (Hlfb : length (<[0:=NUL]> (fnbuf s1)) = buf_len s1)
    by (by rewrite length_insert).
  assert (Hlsb : length (<[0:=NUL]> (sobuf s1)) = buf_len s1)
    by (by rewrite length_insert).
  set (fb := <[0:=NUL]> (fnbuf s1)) in *.
  set (sb := <[0:=NUL]> (sobuf s1)) in *.
  clearbody fb sb.
  destruct (valid sym) eqn:Hv; simpl negb; cbv iota.
  2:{ eexists. split; [reflexivity|]. simpl.
      split; [done|]. split; [subst len; lia|].
      split; [by apply (holds_cstr _ _ _ Hsb)|by apply (holds_cstr _ _ _ Hfb)]. }
  pose proof (valid_header _ Hv) as Hh.
  pose proof (header_valid_inv _ Hh) as (_&_&_&_&H4&H5&H6&H7&H8&_&_&_).
  pose proof (strlen_drop_prefix 12 sym (header_valid_no_NUL _ Hh)) as Hdrop.
  (* the two range assertions hold *)
  assert (Htag : ((0 <=? eclassTag_of sym) && (eclassTag_of sym <=? 9999))%Z = true).
  { unfold eclassTag_of.
    pose proof (VG_isdigit_range _ H4). pose proof (VG_isdigit_range _ H5).
    pose proof (VG_isdigit_range _ H6). pose proof (VG_isdigit_range _ H7).
    apply andb_true_iff; split; apply Z.leb_le; lia. }
  assert (Hprio : ((0 <=? eclassPrio_of sym) && (eclassPrio_of sym <=? 9))%Z = true).
  { unfold eclassPrio_of. pose proof (VG_isdigit_range _ H8).
    apply andb_true_iff; split; apply Z.leb_le; lia. }
  rewrite Htag, Hprio.
  set (o1 := set_fn (if so then set_so o SOBUF else o) FNBUF).
  set (o2 := if isWrap then set_isWrap o1 _ else o1).
  assert (Ho3 : (if eclassTag then Ret (set_eclassTag o2 (eclassTag_of sym))
                 else Ret o2)
                = Ret (if eclassTag then set_eclassTag o2 (eclassTag_of sym) else o2))
    by (by destruct eclassTag).
  rewrite Ho3, bind_Ret.
  set (o3 := if eclassTag then _ else o2).
  assert (Ho4 : (if eclassPrio then Ret (set_eclassPrio o3 (eclassPrio_of sym))
                 else Ret o3)
                = Ret (if eclassPrio then set_eclassPrio o3 (eclassPrio_of sym) else o3))
    by (by destruct eclassPrio).
  rewrite Ho4, bind_Ret.
  set (o4 := if eclassPrio then _ else o3). clearbody o4.
  destruct (is_VG_Z_prefixed sym) eqn:Hp; [done|].
  unfold z_soname, z_fnname.
  pose proof (z_scan_facts true _ (drop 12 sym) (Nat.le_refl _)) as (Hn1 & Hb1 & Hd1).
  (* the soname loop *)
  assert (Hso : ∃ sb' soi,
    soname_loop so (drop 12 sym) sb 0
    = Ret (exit_of (z_scan true (drop 12 sym)).2, sb', soi)
    ∧ holds sb' soi (if so then (z_scan true (drop 12 sym)).1 else [])
    ∧ length sb' = buf_len s1
    ∧ soi <= length (z_scan true (drop 12 sym)).1).
  { destruct so.
    - destruct (soname_loop_emits _ (drop 12 sym) sb 0 [] (Nat.le_refl _) Hsb
                  ltac:(subst len; lia)) as (sb' & E & Hh' & Hl').
      exists sb', (0 + length (z_scan true (drop 12 sym)).1).
      split; [done|]. split; [done|]. split; [congruence|lia].
    - exists sb, 0. rewrite (soname_loop_skips _ (drop 12 sym) sb 0 (Nat.le_refl _)).
      split; [done|]. split; [done|]. split; [done|lia]. }
  destruct Hso as (sb' & soi & -> & Hsb' & Hlsb' & Hsoi).
  rewrite bind_Ret. cbv beta iota.
  destruct (z_scan true (drop 12 sym)) as [eso xso] eqn:Hscan. simpl in *.
  (* the label out *)
  assert (Hout : ∀ error fb' fni efn,
    holds fb' fni efn -> length fb' = buf_len s1 -> S fni < buf_len s1 ->
    ∃ s', out_label so error (buf_len s1) sb' soi fb' fni o4
          = Ret (negb error, s', o4)
      ∧ statics_wf s' ∧ strlen sym < buf_len s'
      ∧ cstr (sobuf s') = (if so then eso else []) ∧ cstr (fnbuf s') = efn).
  { intros error fb' fni efn Hfb' Hlfb' Hfni. unfold out_label, EMITFN.
    destruct (EMIT_NUL_holds fb' fni efn Hfb' ltac:(lia)) as (fb2 & Ef & Hcf & Hlf).
    destruct so; simpl.
    - destruct (EMIT_NUL_holds sb' soi eso Hsb' ltac:(subst len; lia))
        as (sb2 & -> & Hcs & Hls).
      simpl. rewrite Ef. simpl. eexists. split; [reflexivity|]. simpl.
      split; [split; simpl; congruence|]. split; [subst len; lia|done].
    - rewrite Ef. simpl. eexists. split; [reflexivity|]. simpl.
      split; [split; simpl; congruence|]. split; [subst len; lia|].
      split; [by apply (holds_cstr _ _ _ Hsb')|done]. }
  destruct xso as [q| |]; simpl.
  - (* the delimiter was found *)
    destruct (Hd1 q eq_refl) as [_ Hq]. rewrite Hq. simpl.
    destruct q as [|c q']; [discriminate Hq|].
    unfold deref in Hq. rewrite char_at_cons_0 in Hq. subst c.
    simpl in Hb1.
    destruct (Ascii.eqb_spec (char_at sym 10) "Z") as [HZ|HZ]; simpl.
    + change (@skipn HChar 0 q') with q'.
      destruct (fn_decode_loop_emits _ q' fb 0 [] (Nat.le_refl _) Hfb
                  ltac:(subst len; lia)) as (fb' & -> & Hfb' & Hlfb').
      simpl.
      pose proof (z_scan_facts false _ q' (Nat.le_refl _)) as (_ & Hb2 & _).
      destruct (z_scan false q') as [efn xfn]; simpl in *.
      destruct (Hout (is_bad xfn) fb' (length efn) efn Hfb' ltac:(congruence)
                  ltac:(subst len; lia)) as (s' & -> & ?).
      by exists s'.
    + change (@skipn HChar 0 q') with q'.
      destruct (fn_copy_loop_emits q' fb 0 [] Hfb ltac:(subst len; lia))
        as (fb' & -> & Hfb' & Hlfb').
      simpl.
      destruct (Hout false fb' (strlen q') (cstr q') Hfb' ltac:(congruence)
                  ltac:(subst len; lia)) as (s' & -> & ?).
      by exists s'.
  - destruct (Hout true fb 0 [] Hfb Hlfb ltac:(subst len; lia)) as (s' & -> & ?).
    by exists s'.
  - destruct (Hout true fb 0 [] Hfb Hlfb ltac:(subst len; lia)) as (s' & -> & ?).
    by exists s'.
Qed.
End ZDecoder.

(* --------------------------------------------------------------------- *)
(** ** The Z-decoder and the words of the specification *)
(* --------------------------------------------------------------------- *)

Lemma table_char_z_escape d : Spec.table_char Spec.z_table d = z_escape d.
Proof. ascii_cases d; reflexivity. Qed.

Lemma decimal_digit_isdigit d : Spec.decimal_digit d <-> VG_isdigit d = true.
Proof.
  unfold Spec.decimal_digit.
  assert (bool_decide (d ∈ lit "0123456789") = VG_isdigit d) as E
    by (ascii_cases d; vm_compute; reflexivity).
  rewrite <- E. symmetry. apply bool_decide_eq_true.
Qed.

Lemma digit_value_Int d : Spec.digit_value d = (Int_of_HChar d - Int_of_HChar "0")%Z.
Proof. ascii_cases d; reflexivity. Qed.

Lemma Zheader_header_valid sym w d1 d2 d3 d4 d5 k body :
  Spec.Zheader sym w d1 d2 d3 d4 d5 k body -> header_valid sym = true.
Proof.
  intros (-> & Hw & H1 & H2 & H3 & H4 & H5 & Hk).
  apply decimal_digit_isdigit in H1, H2, H3, H4, H5.
  unfold header_valid. cbn [lit list_ascii_of_string app char_at lookup list_lookup default].
  cbn. rewrite H1, H2, H3, H4, H5.
  destruct Hw as [-> | ->], Hk as [-> | ->]; reflexivity.
Qed.

Lemma header_valid_Zheader sym :
  header_valid sym = true ->
  ∃ w d1 d2 d3 d4 d5 k body, Spec.Zheader sym w d1 d2 d3 d4 d5 k body.
Proof.
  intros H. pose proof (header_valid_no_NUL _ H) as Hn.
  apply header_valid_inv in H.
  destruct H as (H0&H1&H2&H3&H4&H5&H6&H7&H8&H9&H10&H11).
  do 12 (destruct sym as [|? sym];
         [exfalso; first [ by apply (Hn 0) | by apply (Hn 1) | by apply (Hn 2)
                         | by apply (Hn 3) | by apply (Hn 4) | by apply (Hn 5)
                         | by apply (Hn 6) | by apply (Hn 7) | by apply (Hn 8)
                         | by apply (Hn 9) | by apply (Hn 10) | by apply (Hn 11) ]|]).
  cbn in H0, H1, H2, H3, H4, H5, H6, H7, H8, H9, H10, H11.
  subst. do 7 eexists. exists sym.
  split; [reflexivity|]. rewrite !decimal_digit_isdigit. tauto.
Qed.

Lemma Zheader_chars sym w d1 d2 d3 d4 d5 k body :
  Spec.Zheader sym w d1 d2 d3 d4 d5 k body ->
  char_at sym 3 = w ∧ char_at sym 4 = d1 ∧ char_at sym 5 = d2
  ∧ char_at sym 6 = d3 ∧ char_at sym 7 = d4 ∧ char_at sym 8 = d5
  ∧ char_at sym 10 = k ∧ drop 12 sym = body.
Proof. intros (-> & _). done. Qed.

Lemma Zheader_valid sym w d1 d2 d3 d4 d5 k body :
  Spec.Zheader sym w d1 d2 d3 d4 d5 k body ->
  valid sym = true <-> ¬ Spec.tag0_with_prio d1 d2 d3 d4 d5.
Proof.
  intros H. pose proof (Zheader_header_valid _ _ _ _ _ _ _ _ _ H) as Hv.
  destruct (Zheader_chars _ _ _ _ _ _ _ _ _ H) as (_&E1&E2&E3&E4&E5&_&_).
  unfold valid, Spec.tag0_with_prio. rewrite Hv, E1, E2, E3, E4, E5. simpl.
  destruct (Ascii.eqb_spec d1 "0"), (Ascii.eqb_spec d2 "0"),
    (Ascii.eqb_spec d3 "0"), (Ascii.eqb_spec d4 "0"), (Ascii.eqb_spec d5 "0");
    simpl; split; try done; try tauto.
Qed.

Lemma Zheader_prefixed sym w d1 d2 d3 d4 d5 k body :
  Spec.Zheader sym w d1 d2 d3 d4 d5 k body ->
  is_VG_Z_prefixed sym = true <-> lit "VG_Z_" `prefix_of` body.
Proof.
  intros (-> & _). unfold is_VG_Z_prefixed.
  change (char_at _ 12) with (char_at body 0).
  change (char_at _ 13) with (char_at body 1).
  change (char_at _ 14) with (char_at body 2).
  change (char_at _ 15) with (char_at body 3).
  change (char_at _ 16) with (char_at body 4).
  rewrite !andb_true_iff, !Ascii.eqb_eq. split.
  - intros ((((H0 & H1) & H2) & H3) & H4).
    do 5 (destruct body as [|? body]; [discriminate|]).
    cbn in H0, H1, H2, H3, H4. subst. by exists body.
  - intros [r ->]. done.
Qed.

Lemma Zheader_eclass sym w d1 d2 d3 d4 d5 k body :
  Spec.Zheader sym w d1 d2 d3 d4 d5 k body ->
  eclassTag_of sym = Spec.decimal [d1; d2; d3; d4]
  ∧ eclassPrio_of sym = Spec.decimal [d5].
Proof.
  intros H.
  destruct (Zheader_chars _ _ _ _ _ _ _ _ _ H) as (_&E1&E2&E3&E4&E5&_&_).
  unfold eclassTag_of, eclassPrio_of, Spec.decimal. simpl.
  rewrite E1, E2, E3, E4, E5, <- !digit_value_Int. lia.
Qed.

Local Arguments Spec.table_char : simpl never.

Lemma z_scan_app us : ∀ n enc dec r,
  length enc <= n ->
  NUL ∉ enc -> (us = true -> "_" ∉ enc) ->
  Spec.z_decoded enc = Some dec ->
  z_scan us (enc ++ r) = (dec ++ (z_scan us r).1, (z_scan us r).2).
Proof.
  induction n as [|n IH]; intros enc dec r Hlen Hn Hu Hd.
  { destruct enc; simpl in *; [|lia]. injection Hd as <-. by destruct (z_scan us r). }
  destruct enc as [|c enc]; simpl in *.
  { injection Hd as <-. by destruct (z_scan us r). }
  apply not_elem_of_cons in Hn as [Hc Hn].
  assert (Hus : us && (c =? "_")%char = false).
  { destruct us; [|done]. simpl. apply Ascii.eqb_neq.
    specialize (Hu eq_refl). apply not_elem_of_cons in Hu as [? _]. congruence. }
  rewrite Hus.
  destruct (Ascii.eqb_spec c NUL); [congruence|].
  destruct (decide (c = "Z")) as [->|HZ].
  - simpl. destruct enc as [|d enc]; [done|]. simpl.
    rewrite table_char_z_escape in Hd.
    destruct (z_escape d) as [ch|]; [|done].
    apply not_elem_of_cons in Hn as [_ Hn].
    destruct (Spec.z_decoded enc) as [dec'|] eqn:Hd'; [|done].
    injection Hd as <-.
    change (length (d :: enc)) with (S (length enc)) in Hlen.
    rewrite (IH enc dec' r); [done|lia|done| |done].
    intros Hu'. specialize (Hu Hu'). rewrite !not_elem_of_cons in Hu. tauto.
  - destruct (Ascii.eqb_spec c "Z"); [done|]. simpl.
    destruct (Spec.z_decoded enc) as [dec'|] eqn:Hd'; [|done].
    injection Hd as <-.
    rewrite (IH enc dec' r); [done|lia|done| |done].
    intros Hu'. specialize (Hu Hu'). rewrite !not_elem_of_cons in Hu. tauto.
Qed.

Lemma z_scan_bad us rest :
  Spec.table_char Spec.z_table (deref rest) = None ->
  z_scan us ("Z" :: rest) = ([], E_bad).
Proof.
  rewrite table_char_z_escape. intros H. simpl.
  rewrite andb_false_r. destruct rest as [|d rest]; [done|].
  unfold deref in H. rewrite char_at_cons_0 in H. by rewrite H.
Qed.

(* --------------------------------------------------------------------- *)
(** ** The Z-decoder: decoding, failures and bounds *)
(* --------------------------------------------------------------------- *)

Lemma outs_after_fields so isWrap eclassTag eclassPrio sym o :
  let o' := outs_after so isWrap eclassTag eclassPrio sym o in
  fn_v o' = Some FNBUF
  ∧ so_v o' = (if so then Some SOBUF else so_v o)
  ∧ isWrap_v o' = (if valid sym && isWrap then (char_at sym 3 =? "w")%char
                   else isWrap_v o)
  ∧ eclassTag_v o' = (if valid sym && eclassTag then eclassTag_of sym
                      else eclassTag_v o)
  ∧ eclassPrio_v o' = (if valid sym && eclassPrio then eclassPrio_of sym
                       else eclassPrio_v o).
Proof.
  unfold outs_after.
  destruct (valid sym), so, isWrap, eclassTag, eclassPrio; done.
Qed.

Lemma z_scan_soname_field enc_so enc_fn dec_so :
  NUL ∉ enc_so -> "_" ∉ enc_so -> Spec.z_decoded enc_so = Some dec_so ->
  z_scan true (enc_so ++ "_" :: enc_fn) = (dec_so, E_delim ("_" :: enc_fn)).
Proof.
  intros Hn Hu Hd.
  rewrite (z_scan_app true _ enc_so dec_so _ (Nat.le_refl _) Hn (fun _ => Hu) Hd).
  simpl. by rewrite app_nil_r.
Qed.

Lemma z_scan_fnname_field enc_fn dec_fn :
  NUL ∉ enc_fn -> Spec.z_decoded enc_fn = Some dec_fn ->
  z_scan false enc_fn = (dec_fn, E_nul).
Proof.
  intros Hn Hd. rewrite <- (app_nil_r enc_fn) at 1.
  rewrite (z_scan_app false _ enc_fn dec_fn [] (Nat.le_refl _) Hn) by done.
  simpl. by rewrite app_nil_r.
Qed.

Section ZClaims.
Variable uninit : nat -> HChar.

(** C1, amended.  Let [sym] be [_vg], [r] or [w], five decimal digits, [Z],
    [Z] or [U], [_] and a [body], where the digits are not 0000 followed by
    a priority other than 0 and [body] does not begin with the bytes
    [VG_Z_].  If [body] is an encoded soname without [_], then [_], then
    the function name, [VG_(maybe_Z_demangle)] returns True and gives,
    through the OUT pointers that are not NULL: [isWrap] true exactly when
    the fourth byte is [w], [eclassTag] the first four digits read as a
    decimal number, [eclassPrio] the fifth digit, the soname with each
    Z-escape pair replaced by its table character, and the function name
    decoded by the same table when the eleventh byte is [Z], copied when it
    is [U].  If instead a [Z] is followed by a selector that is not in the
    table, in the soname, or in the function name when the eleventh byte is
    [Z], it returns False. *)
Theorem maybe_Z_demangle_decodes_grammar
    (so isWrap eclassTag eclassPrio : bool) (s : statics) (o : outs)
    (sym : list HChar) (w d1 d2 d3 d4 d5 k : HChar) (body : list HChar) :
  statics_wf s ->
  Spec.Zheader sym w d1 d2 d3 d4 d5 k body ->
  ¬ Spec.tag0_with_prio d1 d2 d3 d4 d5 ->
  ¬ lit "VG_Z_" `prefix_of` body ->
  (∀ enc_so enc_fn dec_so dec_fn,
      body = enc_so ++ "_" :: enc_fn ->
      NUL ∉ enc_so -> "_" ∉ enc_so -> NUL ∉ enc_fn ->
      Spec.z_decoded enc_so = Some dec_so ->
      (if decide (k = "Z") then Spec.z_decoded enc_fn = Some dec_fn
       else dec_fn = enc_fn) ->
      ∃ s' o',
        VG_maybe_Z_demangle uninit sym so isWrap eclassTag eclassPrio s o
        = Ret (true, s', o')
        ∧ fn_v o' = Some FNBUF ∧ cstr (fnbuf s') = dec_fn
        ∧ (so = true -> so_v o' = Some SOBUF ∧ cstr (sobuf s') = dec_so)
        ∧ (isWrap = true -> isWrap_v o' = bool_decide (w = "w"))
        ∧ (eclassTag = true -> eclassTag_v o' = Spec.decimal [d1; d2; d3; d4])
        ∧ (eclassPrio = true -> eclassPrio_v o' = Spec.decimal [d5]))
  ∧ (∀ pre rest,
      Spec.table_char Spec.z_table (deref rest) = None ->
      NUL ∉ pre -> is_Some (Spec.z_decoded pre) ->
      ("_" ∉ pre ∧ body = pre ++ "Z" :: rest)
      ∨ (k = "Z"
         ∧ ∃ enc_so, NUL ∉ enc_so ∧ "_" ∉ enc_so
                     ∧ is_Some (Spec.z_decoded enc_so)
                     ∧ body = enc_so ++ "_" :: pre ++ "Z" :: rest) ->
      ∃ s' o',
        VG_maybe_Z_demangle uninit sym so isWrap eclassTag eclassPrio s o
        = Ret (false, s', o')).
Proof.
  intros Hwf Hh Htag Hpre.
  pose proof (VG_maybe_Z_demangle_char uninit sym so isWrap eclassTag eclassPrio
                s o Hwf) as Hc.
  apply (Zheader_valid _ _ _ _ _ _ _ _ _ Hh) in Htag.
  rewrite Htag in Hc.
  destruct (is_VG_Z_prefixed sym) eqn:Hp.
  { apply (Zheader_prefixed _ _ _ _ _ _ _ _ _ Hh) in Hp. done. }
  destruct Hc as (s' & E & _ & _ & Hso & Hfn).
  destruct (Zheader_chars _ _ _ _ _ _ _ _ _ Hh) as (Ew & _ & _ & _ & _ & _ & Ek & Eb).
  destruct (Zheader_eclass _ _ _ _ _ _ _ _ _ Hh) as [Et Ep].
  pose proof (outs_after_fields so isWrap eclassTag eclassPrio sym o)
    as (F1 & F2 & F3 & F4 & F5).
  rewrite Htag in F3, F4, F5. cbn [andb] in F3, F4, F5.
  unfold z_fnname, z_soname in *. rewrite Eb, Ek in *.
  split.
  - intros enc_so enc_fn dec_so dec_fn -> Hn1 Hu1 Hn2 Hd1 Hd2.
    rewrite (z_scan_soname_field _ enc_fn _ Hn1 Hu1 Hd1) in *.
    cbn [fst snd skipn] in *.
    change (@skipn ascii 0 enc_fn) with enc_fn in *.
    exists s', (outs_after so isWrap eclassTag eclassPrio sym o).
    assert (Hres : (if (k =? "Z")%char
                    then let '(e, x) := z_scan false enc_fn in (e, negb (is_bad x))
                    else (cstr enc_fn, true)) = (dec_fn, true)).
    { destruct (decide (k = "Z")) as [->|Hk].
      - simpl. by rewrite (z_scan_fnname_field _ _ Hn2 Hd2).
      - destruct (Ascii.eqb_spec k "Z"); [done|]. subst dec_fn.
        by rewrite cstr_id. }
    rewrite Hres in *. cbn [fst snd] in *.
    split; [done|]. split; [done|]. split; [done|].
    split; [by intros ->|].
    split.
    { intros ->. rewrite F3, Ew. destruct (Ascii.eqb_spec w "w").
      - by rewrite bool_decide_eq_true_2.
      - by rewrite bool_decide_eq_false_2. }
    split; [intros ->; by rewrite F4|intros ->; by rewrite F5].
  - intros pre rest Hbad Hn [dec Hd] Hcase.
    exists s', (outs_after so isWrap eclassTag eclassPrio sym o).
    rewrite E. do 2 f_equal. f_equal.
    pose proof (z_scan_bad true rest Hbad) as Hb1.
    pose proof (z_scan_bad false rest Hbad) as Hb2.
    destruct Hcase as [[Hu ->] | (-> & enc_so & Hn1 & Hu1 & [dec1 Hd1] & ->)].
    + rewrite (z_scan_app true _ pre dec _ (Nat.le_refl _) Hn (fun _ => Hu) Hd).
      by rewrite Hb1.
    + rewrite (z_scan_soname_field _ _ _ Hn1 Hu1 Hd1). simpl.
      change (@skipn HChar 0 (pre ++ "Z" :: rest)) with (pre ++ "Z" :: rest).
      rewrite (z_scan_app false _ pre dec _ (Nat.le_refl _) Hn) by done.
      by rewrite Hb2.
Qed.

Lemma z_names_bounded sym :
  valid sym = true ->
  length (z_soname sym) <= strlen sym ∧ length (z_fnname sym).1 <= strlen sym.
Proof.
  intros Hv. pose proof (valid_header _ Hv) as Hh.
  pose proof (strlen_drop_prefix 12 sym (header_valid_no_NUL _ Hh)) as Hdrop.
  unfold z_soname, z_fnname.
  pose proof (z_scan_facts true _ (drop 12 sym) (Nat.le_refl _)) as (_ & Hb1 & Hd1).
  destruct (z_scan true (drop 12 sym)) as [eso xso]. simpl in *.
  split; [lia|].
  destruct xso as [q| |]; simpl in *; [|lia|lia].
  destruct (Hd1 q eq_refl) as [_ Hq].
  destruct q as [|c q']; [discriminate Hq|].
  unfold deref in Hq. rewrite char_at_cons_0 in Hq. subst c.
  simpl in Hb1. change (drop 1 ("_" :: q')) with q'.
  destruct (char_at sym 10 =? "Z")%char.
  - pose proof (z_scan_facts false _ q' (Nat.le_refl _)) as (_ & Hb2 & _).
    destruct (z_scan false q') as [efn xfn]. simpl in *. lia.
  - simpl. rewrite length_cstr. lia.
Qed.


Lemma maybe_Z_demangle_bounded sym so isWrap eclassTag eclassPrio s o :
  statics_wf s ->
  match VG_maybe_Z_demangle uninit sym so isWrap eclassTag eclassPrio s o with
  | Ret (_, s', _) =>
      statics_wf s' ∧ strlen sym < buf_len s'
      ∧ length (cstr (sobuf s')) <= strlen sym
      ∧ length (cstr (fnbuf s')) <= strlen sym
  | Abort w => w = A_VG_Z_prefix
  | Trap => False
  | OutOfFuel => False
  end.
Proof.
  intros Hwf.
  pose proof (VG_maybe_Z_demangle_char uninit sym so isWrap eclassTag eclassPrio
                s o Hwf) as Hc.
  destruct (valid sym) eqn:Hv.
  - destruct (is_VG_Z_prefixed sym); [by rewrite Hc|].
    destruct Hc as (s' & -> & Hwf' & Hlt & Hso & Hfn).
    destruct (z_names_bounded sym Hv) as [B1 B2].
    rewrite Hso, Hfn. split; [done|]. split; [done|].
    split; [destruct so; simpl; lia|done].
  - destruct Hc as (s' & -> & Hwf' & Hlt & -> & ->). simpl.
    split; [done|]. split; [done|]. lia.
Qed.

(** C3, amended.  For every symbol with a valid header whose soname field
    begins with the five bytes [VG_Z_] as they stand in the symbol, not yet
    decoded, [VG_(maybe_Z_demangle)] stops on the assertion about the
    [VG_Z_] prefix; it does not return False. *)
Theorem VG_Z_prefix_is_fatal
    (so isWrap eclassTag eclassPrio : bool) (s : statics) (o : outs)
    (sym : list HChar) (w d1 d2 d3 d4 d5 k : HChar) (body : list HChar) :
  statics_wf s ->
  Spec.Zheader sym w d1 d2 d3 d4 d5 k body ->
  ¬ Spec.tag0_with_prio d1 d2 d3 d4 d5 ->
  lit "VG_Z_" `prefix_of` body ->
  VG_maybe_Z_demangle uninit sym so isWrap eclassTag eclassPrio s o
  = Abort A_VG_Z_prefix.
Proof.
  intros Hwf Hh Htag Hpre.
  pose proof (VG_maybe_Z_demangle_char uninit sym so isWrap eclassTag eclassPrio
                s o Hwf) as Hc.
  apply (Zheader_valid _ _ _ _ _ _ _ _ _ Hh) in Htag.
  apply (Zheader_prefixed _ _ _ _ _ _ _ _ _ Hh) in Hpre.
  by rewrite Htag, Hpre in Hc.
Qed.

(** C6.  When the first twelve bytes of [sym] are not the fixed header, or
    when they are and the tag digits are 0000 with a priority digit other
    than 0, [VG_(maybe_Z_demangle)] returns False, whatever follows. *)
Theorem maybe_Z_demangle_rejects_bad_header
    (so isWrap eclassTag eclassPrio : bool) (s : statics) (o : outs)
    (sym : list HChar) :
  statics_wf s ->
  (¬ ∃ w d1 d2 d3 d4 d5 k body, Spec.Zheader sym w d1 d2 d3 d4 d5 k body)
  ∨ (∃ w d1 d2 d3 d4 d5 k body,
        Spec.Zheader sym w d1 d2 d3 d4 d5 k body
        ∧ Spec.tag0_with_prio d1 d2 d3 d4 d5) ->
  ∃ s' o',
    VG_maybe_Z_demangle uninit sym so isWrap eclassTag eclassPrio s o
    = Ret (false, s', o').
Proof.
  intros Hwf Hbad.
  pose proof (VG_maybe_Z_demangle_char uninit sym so isWrap eclassTag eclassPrio
                s o Hwf) as Hc.
  assert (Hv : valid sym = false).
  { destruct (valid sym) eqn:Hv; [|done]. exfalso.
    destruct Hbad as [Hno | (w&d1&d2&d3&d4&d5&k&body&Hh&Ht)].
    - apply Hno. by apply header_valid_Zheader, valid_header.
    - by apply (Zheader_valid _ _ _ _ _ _ _ _ _ Hh) in Hv. }
  rewrite Hv in Hc. destruct Hc as (s' & -> & _). eauto.
Qed.

(** C8, amended.  When [VG_(maybe_Z_demangle)] returns False, [*fn] points
    to [fnbuf].  If the header was refused, [isWrap], [eclassTag] and
    [eclassPrio] have not been written and both buffers hold the empty
    string.  If the header was accepted, so that the failure comes from the
    decoding loops, the three values of the header have been stored through
    the pointers that are not NULL, and after an unknown selector in an
    encoded function name [fnbuf] holds the characters decoded before it. *)
Theorem maybe_Z_demangle_failure_outputs
    (so isWrap eclassTag eclassPrio : bool) (s s' : statics) (o o' : outs)
    (sym : list HChar) :
  statics_wf s ->
  VG_maybe_Z_demangle uninit sym so isWrap eclassTag eclassPrio s o
  = Ret (false, s', o') ->
  fn_v o' = Some FNBUF
  ∧ ((¬ ∃ w d1 d2 d3 d4 d5 k body, Spec.Zheader sym w d1 d2 d3 d4 d5 k body)
     ∨ (∃ w d1 d2 d3 d4 d5 k body,
           Spec.Zheader sym w d1 d2 d3 d4 d5 k body
           ∧ Spec.tag0_with_prio d1 d2 d3 d4 d5) ->
     isWrap_v o' = isWrap_v o ∧ eclassTag_v o' = eclassTag_v o
     ∧ eclassPrio_v o' = eclassPrio_v o
     ∧ cstr (sobuf s') = [] ∧ cstr (fnbuf s') = [])
  ∧ (∀ w d1 d2 d3 d4 d5 k body,
        Spec.Zheader sym w d1 d2 d3 d4 d5 k body ->
        ¬ Spec.tag0_with_prio d1 d2 d3 d4 d5 ->
        (isWrap = true -> isWrap_v o' = bool_decide (w = "w"))
        ∧ (eclassTag = true -> eclassTag_v o' = Spec.decimal [d1; d2; d3; d4])
        ∧ (eclassPrio = true -> eclassPrio_v o' = Spec.decimal [d5])
        ∧ (∀ enc_so pre rest dec_pre,
              k = "Z" ->
              body = enc_so ++ "_" :: pre ++ "Z" :: rest ->
              NUL ∉ enc_so -> "_" ∉ enc_so -> is_Some (Spec.z_decoded enc_so) ->
              NUL ∉ pre -> Spec.z_decoded pre = Some dec_pre ->
              Spec.table_char Spec.z_table (deref rest) = None ->
              cstr (fnbuf s') = dec_pre)).
Proof.
  intros Hwf E.
  pose proof (VG_maybe_Z_demangle_char uninit sym so isWrap eclassTag eclassPrio
                s o Hwf) as Hc.
  pose proof (outs_after_fields so isWrap eclassTag eclassPrio sym o)
    as (F1 & F2 & F3 & F4 & F5).
  destruct (valid sym) eqn:Hv.
  - destruct (is_VG_Z_prefixed sym); [congruence|].
    destruct Hc as (s1 & E1 & _ & _ & Hso & Hfn).
    rewrite E in E1. injection E1 as Eb -> ->.
    split; [done|]. split.
    { intros Hbad. exfalso.
      destruct Hbad as [Hno | (w&d1&d2&d3&d4&d5&k&body&Hh&Ht)].
      - apply Hno. by apply header_valid_Zheader, valid_header.
      - by apply (Zheader_valid _ _ _ _ _ _ _ _ _ Hh) in Hv. }
    intros w d1 d2 d3 d4 d5 k body Hh Htag.
    destruct (Zheader_chars _ _ _ _ _ _ _ _ _ Hh)
      as (Ew & _ & _ & _ & _ & _ & Ek & Ebody).
    destruct (Zheader_eclass _ _ _ _ _ _ _ _ _ Hh) as [Et Ep].
    cbn [andb] in F3, F4, F5.
    split.
    { intros ->. rewrite F3, Ew. destruct (Ascii.eqb_spec w "w").
      - by rewrite bool_decide_eq_true_2.
      - by rewrite bool_decide_eq_false_2. }
    split; [intros ->; by rewrite F4|]. split; [intros ->; by rewrite F5|].
    intros enc_so pre rest dec_pre -> -> Hn1 Hu1 [dec1 Hd1] Hn Hd Hbad.
    rewrite Hfn. unfold z_fnname. rewrite Ebody, Ek.
    rewrite (z_scan_soname_field _ _ _ Hn1 Hu1 Hd1). simpl.
    change (@skipn ascii 0 (pre ++ "Z" :: rest)) with (pre ++ "Z" :: rest).
    rewrite (z_scan_app false _ pre dec_pre _ (Nat.le_refl _) Hn) by done.
    rewrite (z_scan_bad false rest Hbad). simpl. by rewrite app_nil_r.
  - destruct Hc as (s1 & E1 & _ & _ & Hso & Hfn).
    rewrite E in E1. injection E1 as -> ->.
    split; [done|]. split; [done|].
    intros w d1 d2 d3 d4 d5 k body Hh Htag.
    apply (Zheader_valid _ _ _ _ _ _ _ _ _ Hh) in Htag. congruence.
Qed.

End ZClaims.

(* --------------------------------------------------------------------- *)
(** ** The Z-decoder on examples *)
(* --------------------------------------------------------------------- *)

Lemma maybe_Z_demangle_decodes_grammar_witness :
  (∃ s' o',
      VG_maybe_Z_demangle uninit_x (lit "_vgw12345ZZ_libcZdsoZa_opZpZp")
        true true true true statics_init outs_blank = Ret (true, s', o')
      ∧ fn_v o' = Some FNBUF ∧ cstr (fnbuf s') = lit "op++"
      ∧ (true = true -> so_v o' = Some SOBUF ∧ cstr (sobuf s') = lit "libc.so*")
      ∧ (true = true -> isWrap_v o' = bool_decide ("w" = "w"))
      ∧ (true = true -> eclassTag_v o' = Spec.decimal ["1"; "2"; "3"; "4"])
      ∧ (true = true -> eclassPrio_v o' = Spec.decimal ["5"]))
  ∧ (∃ s' o',
      VG_maybe_Z_demangle uninit_x (lit "_vgr00000ZU_libcZdsoZq_malloc")
        true true true true statics_init outs_blank = Ret (false, s', o')).
Proof.
  split.
  - refine (proj1 (maybe_Z_demangle_decodes_grammar uninit_x true true true true
                     statics_init outs_blank
                     (lit "_vgw12345ZZ_libcZdsoZa_opZpZp")
                     "w" "1" "2" "3" "4" "5" "Z" (lit "libcZdsoZa_opZpZp")
                     statics_init_wf _ _ _)
                  (lit "libcZdsoZa") (lit "opZpZp") (lit "libc.so*") (lit "op++")
                  eq_refl _ _ _ eq_refl eq_refl).
    + zheader_tac.
    + intros (H & _). discriminate H.
    + compute_done.
    + compute_done.
    + compute_done.
    + compute_done.
  - refine (proj2 (maybe_Z_demangle_decodes_grammar uninit_x true true true true
                     statics_init outs_blank
                     (lit "_vgr00000ZU_libcZdsoZq_malloc")
                     "r" "0" "0" "0" "0" "0" "U" (lit "libcZdsoZq_malloc")
                     statics_init_wf _ _ _)
                  (lit "libcZdso") (lit "q_malloc") eq_refl _ _ _).
    + zheader_tac.
    + intros (_ & _ & _ & _ & H). by apply H.
    + compute_done.
    + compute_done.
    + by eexists.
    + left. split; [compute_done|reflexivity].
Defined.

(** The grammar as the claim words it does not exclude a priority under tag
    0000, nor a soname [VG] followed by a function name starting with [Z_]. *)
Lemma maybe_Z_demangle_grammar_counterexample :
  Spec.Zheader (lit "_vgr00000ZU_VG_Z_x") "r" "0" "0" "0" "0" "0" "U"
    (lit "VG" ++ "_" :: lit "Z_x")
  ∧ Spec.z_decoded (lit "VG") = Some (lit "VG")
  ∧ VG_maybe_Z_demangle uninit_x (lit "_vgr00000ZU_VG_Z_x")
      true true true true statics_init outs_blank
    = Abort A_VG_Z_prefix
  ∧ Spec.Zheader (lit "_vgr00005ZZ_libc_malloc") "r" "0" "0" "0" "0" "5" "Z"
      (lit "libc" ++ "_" :: lit "malloc")
  ∧ ∃ s' o',
      VG_maybe_Z_demangle uninit_x (lit "_vgr00005ZZ_libc_malloc")
        true true true true statics_init outs_blank
      = Ret (false, s', o').
Proof.
  split; [zheader_tac|]. split; [reflexivity|]. split; [reflexivity|].
  split; [zheader_tac|]. do 2 eexists. vm_compute. reflexivity.
Qed.

Lemma VG_Z_prefix_is_fatal_witness :
  VG_maybe_Z_demangle uninit_x (lit "_vgr00000ZU_VG_Z_LIBC_SONAME_malloc")
    true true true true statics_init outs_blank
  = Abort A_VG_Z_prefix.
Proof.
  refine (VG_Z_prefix_is_fatal uninit_x true true true true statics_init
            outs_blank (lit "_vgr00000ZU_VG_Z_LIBC_SONAME_malloc")
            "r" "0" "0" "0" "0" "0" "U" (lit "VG_Z_LIBC_SONAME_malloc")
            statics_init_wf _ _ _).
  - zheader_tac.
  - intros (_ & _ & _ & _ & H). by apply H.
  - by exists (lit "LIBC_SONAME_malloc").
Defined.

(** A soname field that Z-decodes to [VG_Z_anything] is decoded like any
    other: no assertion fails. *)
Lemma soname_decoding_to_VG_Z_counterexample :
  Spec.Zheader (lit "_vgr00000ZZ_VGZuZZZuanything_f") "r" "0" "0" "0" "0" "0" "Z"
    (lit "VGZuZZZuanything" ++ "_" :: lit "f")
  ∧ Spec.z_decoded (lit "VGZuZZZuanything") = Some (lit "VG_Z_anything")
  ∧ ∃ s' o',
      VG_maybe_Z_demangle uninit_x (lit "_vgr00000ZZ_VGZuZZZuanything_f")
        true true true true statics_init outs_blank
      = Ret (true, s', o')
      ∧ cstr (sobuf s') = lit "VG_Z_anything".
Proof.
  split; [zheader_tac|]. split; [reflexivity|].
  do 2 eexists. split; vm_compute; reflexivity.
Qed.

Lemma maybe_Z_demangle_rejects_bad_header_witness :
  ∃ s' o',
    VG_maybe_Z_demangle uninit_x (lit "_vgr00005ZZ_libcZdsoZa_malloc")
      true true true true statics_init outs_blank
    = Ret (false, s', o').
Proof.
  refine (maybe_Z_demangle_rejects_bad_header uninit_x true true true true
            statics_init outs_blank (lit "_vgr00005ZZ_libcZdsoZa_malloc")
            statics_init_wf _).
  right. exists "r", "0", "0", "0", "0", "5", "Z", (lit "libcZdsoZa_malloc").
  split; [zheader_tac|]. repeat split; discriminate.
Defined.

(** After an unknown selector in the function name the header's three
    values have been stored and [fnbuf] holds what was decoded so far. *)
Lemma maybe_Z_demangle_failure_counterexample :
  ∃ s' o',
    VG_maybe_Z_demangle uninit_x (lit "_vgw12345ZZ_libcZdsoZa_maZlloc")
      true true true true statics_init outs_blank
    = Ret (false, s', o')
    ∧ isWrap_v outs_blank = false ∧ isWrap_v o' = true
    ∧ eclassTag_v outs_blank = (-1)%Z ∧ eclassTag_v o' = 1234%Z
    ∧ eclassPrio_v outs_blank = (-1)%Z ∧ eclassPrio_v o' = 5%Z
    ∧ fn_v o' = Some FNBUF ∧ cstr (fnbuf s') = lit "ma".
Proof. do 2 eexists. split; [vm_compute; reflexivity|]. repeat split. Qed.

Lemma maybe_Z_demangle_failure_outputs_witness :
  ∃ s' o',
    VG_maybe_Z_demangle uninit_x (lit "_vgw12345ZZ_libcZdsoZa_maZlloc")
      true true true true statics_init outs_blank
    = Ret (false, s', o')
    ∧ fn_v o' = Some FNBUF
    ∧ isWrap_v o' = bool_decide ("w" = "w")
    ∧ eclassTag_v o' = Spec.decimal ["1"; "2"; "3"; "4"]
    ∧ eclassPrio_v o' = Spec.decimal ["5"]
    ∧ cstr (fnbuf s') = lit "ma".
Proof.
  assert (E : ∃ s' o',
    VG_maybe_Z_demangle uninit_x (lit "_vgw12345ZZ_libcZdsoZa_maZlloc")
      true true true true statics_init outs_blank = Ret (false, s', o')).
  { do 2 eexists. vm_compute. reflexivity. }
  destruct E as (s' & o' & E). exists s', o'. split; [exact E|].
  destruct (maybe_Z_demangle_failure_outputs uninit_x true true true true
              statics_init s' outs_blank o'
              (lit "_vgw12345ZZ_libcZdsoZa_maZlloc") statics_init_wf E)
    as (F & _ & H).
  split; [exact F|].
  destruct (H "w" "1" "2" "3" "4" "5" "Z" (lit "libcZdsoZa_maZlloc"))
    as (H1 & H2 & H3 & H4).
  - zheader_tac.
  - intros (Hd & _). discriminate Hd.
  - split; [by apply H1|]. split; [by apply H2|]. split; [by apply H3|].
    apply (H4 (lit "libcZdsoZa") (lit "ma") (lit "lloc") (lit "ma")).
    all: first [ reflexivity | by compute_done | by eexists ].
Defined.

(* --------------------------------------------------------------------- *)
(** ** The Rust heuristic: the hash *)
(* --------------------------------------------------------------------- *)

Lemma deref_cons c (p : list HChar) : deref (c :: p) = c.
Proof. done. Qed.

Lemma deref_nil : deref [] = NUL.
Proof. done. Qed.

Lemma strncmp_prefix : ∀ (t p : list HChar),
  NUL ∉ t -> strncmp p t (length t) = true <-> ∃ r, p = t ++ r.
Proof.
  induction t as [|c t IH]; intros p Hn; simpl.
  { split; [by exists p|done]. }
  apply not_elem_of_cons in Hn as [Hc Hn].
  rewrite deref_cons. destruct p as [|d p].
  - rewrite deref_nil. destruct (Ascii.eqb_spec NUL c); [congruence|].
    split; [done|]. by intros [r ?].
  - rewrite deref_cons. destruct (Ascii.eqb_spec d c) as [->|Hd].
    + destruct (Ascii.eqb_spec c NUL); [congruence|].
      change (drop 1 (c :: p)) with p. change (drop 1 (c :: t)) with t.
      rewrite (IH p Hn). split; intros [r Hr]; exists r; congruence.
    + split; [done|]. intros [r Hr]. congruence.
Qed.

Lemma lower_hex_ranges c :
  Spec.lower_hex c <->
  (("0" <=? c)%char && (c <=? "9")%char) || (("a" <=? c)%char && (c <=? "f")%char)
  = true.
Proof.
  unfold Spec.lower_hex.
  assert (bool_decide (c ∈ lit "0123456789abcdef")
          = (("0" <=? c)%char && (c <=? "9")%char)
            || (("a" <=? c)%char && (c <=? "f")%char)) as E
    by (ascii_cases c; vm_compute; reflexivity).
  rewrite <- E. symmetry. apply bool_decide_eq_true.
Qed.

Lemma lower_hex_hexval c : Spec.lower_hex c -> hexval c < 16.
Proof.
  unfold Spec.lower_hex. intros H. cbn in H. rewrite !elem_of_cons in H.
  repeat (destruct H as [->|H]; [vm_compute; lia|]). by apply elem_of_nil in H.
Qed.

Lemma hexval_inj c d :
  Spec.lower_hex c -> Spec.lower_hex d -> hexval c = hexval d -> c = d.
Proof.
  intros Hc Hd. apply lower_hex_ranges in Hd.
  unfold Spec.lower_hex in Hc. cbn in Hc. rewrite !elem_of_cons in Hc.
  repeat (destruct Hc as [->|Hc];
          [ascii_cases d; try discriminate Hd; vm_compute; intros E;
           first [reflexivity | discriminate E]|]).
  by apply elem_of_nil in Hc.
Qed.

Lemma seen_loop_Some : ∀ n str seen seen',
  seen_loop n str seen = Some seen' <->
  ∃ hex rest, str = hex ++ rest ∧ length hex = n
              ∧ Forall Spec.lower_hex hex ∧ seen' = mark seen hex.
Proof.
  induction n as [|n IH]; intros str seen seen'; simpl.
  { split.
    - intros [= <-]. exists [], str. by repeat split.
    - intros (hex & rest & -> & Hl & _ & ->). destruct hex; [done|discriminate]. }
  destruct str as [|c str].
  { rewrite deref_nil. simpl. split; [done|].
    intros (hex & rest & E & Hl & _). destruct hex; discriminate. }
  rewrite deref_cons. change (drop 1 (c :: str)) with str.
  pose proof (lower_hex_ranges c) as Hr.
  assert (Hstep : ∀ s1, seen_loop n str s1 = Some seen' ->
            s1 = <[hexval c := true]> seen -> Spec.lower_hex c ->
            ∃ hex rest, c :: str = hex ++ rest ∧ length hex = S n
                        ∧ Forall Spec.lower_hex hex ∧ seen' = mark seen hex).
  { intros s1 H -> Hc. apply IH in H as (hex & rest & -> & Hl & Hf & ->).
    exists (c :: hex), rest. simpl. split; [done|]. split; [lia|].
    split; [by constructor|done]. }
  assert (Hback : (∃ hex rest, c :: str = hex ++ rest ∧ length hex = S n
                        ∧ Forall Spec.lower_hex hex ∧ seen' = mark seen hex) ->
            Spec.lower_hex c
            ∧ seen_loop n str (<[hexval c := true]> seen) = Some seen').
  { intros (hex & rest & E & Hl & Hf & ->).
    destruct hex as [|c' hex]; [discriminate|]. injection E as <- ->.
    apply Forall_cons in Hf as [Hc Hf]. split; [done|].
    apply IH. exists hex, rest. simpl in Hl. split; [done|]. split; [lia|done]. }
  unfold hexval in *.
  destruct (("0" <=? c)%char && (c <=? "9")%char) eqn:E1; simpl in *.
  - split; [intros H; eapply Hstep; eauto; by apply Hr|].
    intros H. by apply Hback in H as [_ H].
  - destruct (("a" <=? c)%char && (c <=? "f")%char) eqn:E2; simpl in *.
    + split; [intros H; eapply Hstep; eauto; by apply Hr|].
      intros H. by apply Hback in H as [_ H].
    + split; [done|]. intros H. apply Hback in H as [H _].
      apply Hr in H. done.
Qed.

Lemma foldl_count (f : nat -> bool) : ∀ (l : list nat) (a : nat),
  foldl (fun count i => if f i then S count else count) a l
  = a + length (filter (fun i => f i = true) l).
Proof.
  induction l as [|i l IH]; intros a; simpl; [lia|].
  rewrite IH. rewrite filter_cons. destruct (f i) eqn:E.
  - rewrite decide_True by done. simpl. lia.
  - rewrite decide_False by done. lia.
Qed.

Lemma count_seen_filter seen :
  count_seen seen
  = length (filter (fun i => default false (seen !! i) = true) (seq 0 16)).
Proof. unfold count_seen. by rewrite (foldl_count (fun i => default false (seen !! i))). Qed.

Lemma mark_lookup : ∀ hex seen i,
  Forall Spec.lower_hex hex -> length seen = 16 -> i < 16 ->
  default false (mark seen hex !! i) = true
  <-> default false (seen !! i) = true ∨ ∃ c, c ∈ hex ∧ hexval c = i.
Proof.
  induction hex as [|c hex IH]; intros seen i Hf Hl Hi.
  { simpl. split; [by left|]. intros [?|(c & Hc & _)]; [done|].
    by apply elem_of_nil in Hc. }
  apply Forall_cons in Hf as [Hc Hf].
  change (mark seen (c :: hex)) with (mark (<[hexval c := true]> seen) hex).
  rewrite (IH _ i Hf) by (by rewrite ?length_insert).
  pose proof (lower_hex_hexval c Hc) as Hlt.
  destruct (decide (hexval c = i)) as [<-|Hne].
  - rewrite list_lookup_insert_eq by lia. simpl. split; [|by left].
    intros _. right. exists c. split; [by left|done].
  - rewrite list_lookup_insert_ne by done. split.
    + intros [?|(c' & Hc' & E)]; [by left|]. right. exists c'. split; [by right|done].
    + intros [?|(c' & Hc' & E)]; [by left|].
      apply elem_of_cons in Hc' as [->|Hc']; [done|]. right. by exists c'.
Qed.

Lemma count_seen_distinct hex :
  Forall Spec.lower_hex hex ->
  count_seen (mark (replicate 16 false) hex) = Spec.distinct_values hex.
Proof.
  intros Hf. rewrite count_seen_filter. unfold Spec.distinct_values.
  rewrite <- (length_fmap hexval (remove_dups hex)).
  apply Permutation_length. apply NoDup_Permutation.
  - apply NoDup_filter, NoDup_seq.
  - apply NoDup_fmap_2_strong; [|apply NoDup_remove_dups].
    intros x y Hx Hy. rewrite elem_of_remove_dups in Hx, Hy.
    apply hexval_inj; by apply (proj1 (Forall_forall _ _) Hf).
  - intros i. rewrite list_elem_of_filter, elem_of_seq, list_elem_of_fmap.
    split.
    + intros [H Hi].
      apply (mark_lookup hex _ i Hf) in H; [|by rewrite length_replicate|lia].
      destruct H as [H|(c & Hc & E)].
      * rewrite lookup_replicate_2 in H by lia. done.
      * exists c. split; [done|]. by apply elem_of_remove_dups.
    + intros (c & -> & Hc). rewrite elem_of_remove_dups in Hc.
      pose proof (lower_hex_hexval c (proj1 (Forall_forall _ _) Hf c Hc)).
      split; [|lia].
      apply (mark_lookup hex _ _ Hf); [by rewrite length_replicate|lia|].
      right. by exists c.
Qed.

Lemma is_prefixed_hash_spec str :
  is_prefixed_hash str = true <->
  ∃ hex rest, str = lit "::h" ++ hex ++ rest ∧ length hex = 16
              ∧ Forall Spec.lower_hex hex
              ∧ 5 <= Spec.distinct_values hex <= 15.
Proof.
  unfold is_prefixed_hash.
  destruct (strncmp str hash_prefix hash_prefix_len) eqn:E; cbn [negb].
  - apply (strncmp_prefix (lit "::h")) in E as [r ->]; [|compute_done].
    change (drop hash_prefix_len (lit "::h" ++ r)) with r.
    destruct (seen_loop hash_len r (replicate 16 false)) as [seen|] eqn:Hs.
    + apply seen_loop_Some in Hs as (hex & rest & -> & Hl & Hf & ->).
      rewrite (count_seen_distinct hex Hf).
      rewrite andb_true_iff, !Nat.leb_le. split.
      * intros H. exists hex, rest. repeat split; try assumption; lia.
      * intros (hex' & rest' & E & Hl' & _ & H).
        apply app_inv_head in E.
        assert (hex = hex') as ->; [|lia].
        apply (f_equal (take hash_len)) in E.
        by rewrite !take_app_length' in E.
    + split; [discriminate|]. intros (hex & rest & E & Hl & Hf & _).
      apply app_inv_head in E. subst r.
      assert (seen_loop hash_len (hex ++ rest) (replicate 16 false)
              = Some (mark (replicate 16 false) hex)) as Hs'.
      { apply seen_loop_Some. exists hex, rest. repeat split; assumption. }
      congruence.
  - split; [discriminate|]. intros (hex & rest & -> & _).
    assert (strncmp (lit "::h" ++ hex ++ rest) (lit "::h") 3 = true) as E'.
    { apply (strncmp_prefix (lit "::h")); [compute_done|]. by eexists. }
    unfold hash_prefix, hash_prefix_len in E. congruence.
Qed.

(* --------------------------------------------------------------------- *)
(** ** The Rust heuristic: the scan of the name *)
(* --------------------------------------------------------------------- *)

Lemma llr_step f sym str end_ :
  looks_like_rust_loop (S f) sym str end_ =
  if str <? end_ then
    let p := drop str sym in
    let c := deref p in
    if (c =? "$")%char then
      match token_len p with
      | Some n => looks_like_rust_loop f sym (str + n) end_
      | None => Ret false
      end
    else if (c =? ".")%char then
      if strncmp p (lit "...") 3 then Ret false
      else looks_like_rust_loop f sym (str + 1) end_
    else if is_alnum c || (c =? "_")%char || (c =? ":")%char then
      looks_like_rust_loop f sym (str + 1) end_
    else Ret false
  else Ret true.
Proof.
  cbn [looks_like_rust_loop]. unfold token_len.
  destruct (str <? end_); [|done]. cbv zeta.
  destruct (deref (drop str sym) =? "$")%char; [|done].
  destruct (existsb _ tokens3); [done|].
  destruct (existsb _ tokens4); [done|].
  by destruct (existsb _ tokens5).
Qed.

Lemma tokens_props :
  Forall (fun t => NUL ∉ t ∧ ":" ∉ t ∧ "." ∉ t ∧ head t = Some "$"
                   ∧ 3 <= length t)
         Spec.rust_tokens.
Proof. repeat constructor; compute_done. Qed.

Lemma token_props t :
  t ∈ Spec.rust_tokens ->
  NUL ∉ t ∧ ":" ∉ t ∧ "." ∉ t ∧ head t = Some "$" ∧ 3 <= length t.
Proof. intros H. by apply (proj1 (Forall_forall _ _) tokens_props). Qed.

Lemma tokens_by_length :
  Forall (fun t => length t = 3 ∧ t ∈ Spec.rust_tokens) tokens3
  ∧ Forall (fun t => length t = 4 ∧ t ∈ Spec.rust_tokens) tokens4
  ∧ Forall (fun t => length t = 5 ∧ t ∈ Spec.rust_tokens) tokens5.
Proof. repeat split; repeat constructor; compute_done. Qed.

Lemma existsb_tokens p n ts :
  Forall (fun t => length t = n ∧ t ∈ Spec.rust_tokens) ts ->
  existsb (fun t => strncmp p t n) ts = true ->
  ∃ t r, t ∈ Spec.rust_tokens ∧ length t = n ∧ p = t ++ r.
Proof.
  intros Hf H. apply existsb_exists in H as (t & Ht & Hs).
  apply list_elem_of_In in Ht.
  destruct (proj1 (Forall_forall _ _) Hf t Ht) as [Hl Hin].
  destruct (token_props t Hin) as (Hn & _).
  rewrite <- Hl in Hs. apply strncmp_prefix in Hs as [r ->]; [|done].
  by exists t, r.
Qed.

Lemma token_len_Some p n :
  token_len p = Some n ->
  ∃ t r, t ∈ Spec.rust_tokens ∧ length t = n ∧ p = t ++ r.
Proof.
  destruct tokens_by_length as (H3 & H4 & H5). unfold token_len.
  destruct (existsb _ tokens3) eqn:E3.
  { intros [= <-]. by apply (existsb_tokens p 3 tokens3). }
  destruct (existsb _ tokens4) eqn:E4.
  { intros [= <-]. by apply (existsb_tokens p 4 tokens4). }
  destruct (existsb _ tokens5) eqn:E5; [|done].
  intros [= <-]. by apply (existsb_tokens p 5 tokens5).
Qed.

Lemma token_len_token t q :
  t ∈ Spec.rust_tokens -> token_len (t ++ q) = Some (length t).
Proof.
  unfold Spec.rust_tokens. rewrite !elem_of_cons.
  intros H. repeat (destruct H as [->|H]; [reflexivity|]).
  by apply elem_of_nil in H.
Qed.

Lemma has3_cons_other c q : c ≠ "." -> has3 (c :: q) = has3 q.
Proof. intros H. simpl. by destruct (Ascii.eqb_spec c "."). Qed.

Lemma has3_app_nodot : ∀ t q, "." ∉ t -> has3 (t ++ q) = has3 q.
Proof.
  induction t as [|c t IH]; intros q H; [done|].
  apply not_elem_of_cons in H as [Hc Ht].
  change ((c :: t) ++ q) with (c :: (t ++ q)).
  rewrite has3_cons_other by congruence. by apply IH.
Qed.

Lemma has3_three_dots p : has3 p = true <-> Spec.three_dots p.
Proof.
  unfold Spec.three_dots. split.
  - induction p as [|c q IH]; [done|]. simpl.
    rewrite orb_true_iff, !andb_true_iff, !Ascii.eqb_eq.
    intros [[[-> H1] H2]|H].
    + destruct q as [|d [|e q]]; cbn in H1, H2; try discriminate.
      subst. by exists [], q.
    + destruct (IH H) as (a & b & ->). by exists (c :: a), b.
  - intros (a & b & ->). induction a as [|c a IH]; [done|].
    change ((c :: a) ++ lit "..." ++ b) with (c :: (a ++ lit "..." ++ b)).
    cbn [has3]. rewrite IH. apply orb_true_r.
Qed.

Lemma plain_char_cases c :
  Spec.plain_char c <->
  ((c =? ".")%char || is_alnum c || (c =? "_")%char || (c =? ":")%char) = true.
Proof.
  unfold Spec.plain_char.
  assert (bool_decide
            (c ∈ lit "abcdefghijklmnopqrstuvwxyzABCDEFGHIJKLMNOPQRSTUVWXYZ0123456789_:.")
          = (c =? ".")%char || is_alnum c || (c =? "_")%char || (c =? ":")%char) as E
    by (ascii_cases c; vm_compute; reflexivity).
  rewrite <- E. symmetry. apply bool_decide_eq_true.
Qed.

Lemma plain_char_props c :
  Spec.plain_char c -> c ≠ "$" ∧ c ≠ NUL ∧ c ≠ "?".
Proof.
  intros H. apply plain_char_cases in H.
  repeat split; intros ->; discriminate H.
Qed.

Lemma deref_drop (sym : list HChar) i : deref (drop i sym) = char_at sym i.
Proof. unfold deref, char_at. by rewrite lookup_drop, Nat.add_0_r. Qed.

Lemma char_at_Some (sym : list HChar) i c :
  char_at sym i = c -> c ≠ NUL -> sym !! i = Some c.
Proof.
  unfold char_at. destruct (sym !! i); simpl; congruence.
Qed.

Lemma char_at_drop (sym : list HChar) i j :
  char_at (drop i sym) j = char_at sym (i + j).
Proof. unfold char_at. by rewrite lookup_drop. Qed.

Lemma char_at_app_l (t r : list HChar) j :
  j < length t -> char_at (t ++ r) j ∈ t.
Proof.
  intros H. unfold char_at. rewrite lookup_app_l by done.
  destruct (lookup_lt_is_Some_2 t j H) as [x Hx]. rewrite Hx. simpl.
  by eapply list_elem_of_lookup_2.
Qed.

Lemma drop_add_app (sym t r : list HChar) i :
  drop i sym = t ++ r -> drop (i + length t) sym = r.
Proof.
  intros H. rewrite <- drop_drop, H. apply drop_app_length.
Qed.

Lemma looks_like_rust_sound : ∀ fuel sym str end_,
  looks_like_rust_loop fuel sym str end_ = Ret true ->
  str <= end_ -> char_at sym end_ = ":" ->
  ∃ items, Forall Spec.item items
           ∧ take (end_ - str) (drop str sym) = concat items
           ∧ length (concat items) = end_ - str
           ∧ has3 (concat items) = false.
Proof.
  induction fuel as [|f IH]; intros sym str end_ H Hle Hend; [discriminate|].
  rewrite llr_step in H.
  destruct (Nat.ltb_spec str end_) as [Hlt|Hge].
  2:{ exists []. replace (end_ - str) with 0 by lia. by repeat split. }
  cbv zeta in H. rewrite deref_drop in H.
  set (c := char_at sym str) in *.
  destruct (Ascii.eqb_spec c "$") as [Hc|Hc].
  - (* an escape sequence *)
    destruct (token_len (drop str sym)) as [n|] eqn:Ht; [|discriminate].
    apply token_len_Some in Ht as (t & r & Hin & Hl & Hp).
    destruct (token_props t Hin) as (_ & Hcolon & Hdot & _).
    assert (Hn : str + n <= end_).
    { destruct (Nat.le_gt_cases (str + n) end_) as [?|Hgt]; [done|]. exfalso.
      apply Hcolon. rewrite <- Hend.
      replace end_ with (str + (end_ - str)) by lia.
      rewrite <- char_at_drop, Hp. apply char_at_app_l. lia. }
    destruct (IH sym (str + n) end_ H Hn Hend) as (items & Hf & Htk & Hlen & Hh).
    subst n. rewrite (drop_add_app _ _ _ _ Hp) in Htk.
    exists (t :: items). split; [constructor; [by right|done]|].
    rewrite Hp. simpl. rewrite length_app.
    split; [|split; [lia|by rewrite has3_app_nodot]].
    rewrite take_app_ge by lia. f_equal.
    rewrite <- Htk. f_equal. lia.
  - assert (Hplain :
      (c =? ".")%char = true ∧ strncmp (drop str sym) (lit "...") 3 = false
      ∧ looks_like_rust_loop f sym (str + 1) end_ = Ret true
      ∨ (c =? ".")%char = false
        ∧ (is_alnum c || (c =? "_")%char || (c =? ":")%char) = true
        ∧ looks_like_rust_loop f sym (str + 1) end_ = Ret true).
    { destruct (c =? ".")%char.
      - destruct (strncmp _ _ _); [discriminate|]. by left.
      - destruct (is_alnum c || (c =? "_")%char || (c =? ":")%char);
          [by right|discriminate]. }
    assert (Hpc : Spec.plain_char c).
    { apply plain_char_cases. destruct Hplain as [(-> & _)|(_ & E & _)]; [done|].
      rewrite <- !orb_assoc in *. rewrite E. apply orb_true_r. }
    destruct (plain_char_props c Hpc) as (_ & Hnul & _).
    pose proof (drop_S _ _ _ (char_at_Some sym str c eq_refl Hnul)) as Hp.
    assert (Hloop : looks_like_rust_loop f sym (str + 1) end_ = Ret true)
      by (destruct Hplain as [(_ & _ & ?)|(_ & _ & ?)]; done).
    destruct (IH sym (str + 1) end_ Hloop ltac:(lia) Hend)
      as (items & Hf & Htk & Hlen & Hh).
    replace (str + 1) with (S str) in Htk by lia.
    exists ([c] :: items). split; [constructor; [left; by exists c|done]|].
    rewrite Hp. replace (end_ - str) with (S (end_ - S str)) by lia.
    simpl. split; [by rewrite Htk|]. split; [lia|].
    rewrite orb_false_iff. split; [|done].
    destruct Hplain as [(Hdot & Hs & _)|(-> & _)]; [|done].
    apply Ascii.eqb_eq in Hdot.
    destruct (deref (concat items) =? ".")%char eqn:E1; [|by rewrite andb_false_r].
    destruct (deref (drop 1 (concat items)) =? ".")%char eqn:E2;
      [|by rewrite andb_false_r].
    exfalso. apply Ascii.eqb_eq in E1, E2.
    destruct (concat items) as [|x [|y X]] eqn:EX; cbn in E1, E2;
      try discriminate.
    subst x y.
    assert (strncmp (drop str sym) (lit "...") 3 = true); [|congruence].
    apply (strncmp_prefix (lit "...")); [compute_done|].
    rewrite Hp, Hdot.
    rewrite <- (take_drop (end_ - S str) (drop (S str) sym)), Htk.
    by eexists.
Qed.

Lemma item_nonempty it : Spec.item it -> 1 <= length it.
Proof.
  intros [(c & _ & ->)|H]; [simpl; lia|].
  destruct (token_props it H) as (_ & _ & _ & _ & ?). lia.
Qed.

Lemma drop_S_tail (sym : list HChar) i c q :
  drop i sym = c :: q -> drop (i + 1) sym = q.
Proof. intros H. by rewrite <- drop_drop, H. Qed.

Lemma looks_like_rust_complete : ∀ items,
  Forall Spec.item items ->
  ∀ fuel sym str r,
    drop str sym = concat items ++ r -> deref r = ":" ->
    has3 (concat items) = false -> length (concat items) < fuel ->
    looks_like_rust_loop fuel sym str (str + length (concat items)) = Ret true.
Proof.
  induction items as [|it items IH]; intros Hf fuel sym str r Hp Hr Hh Hfuel.
  { destruct fuel as [|f]; [simpl in Hfuel; lia|].
    rewrite llr_step. simpl. rewrite Nat.add_0_r.
    destruct (Nat.ltb_spec str str); [lia|done]. }
  apply Forall_cons in Hf as [Hit Hf].
  pose proof (item_nonempty it Hit) as Hne.
  simpl in Hp, Hh, Hfuel |- *. rewrite length_app in Hfuel |- *.
  destruct fuel as [|f]; [lia|].
  rewrite llr_step.
  destruct (Nat.ltb_spec str (str + (length it + length (concat items))));
    [|lia].
  cbv zeta. rewrite Hp, <- app_assoc.
  destruct Hit as [(c & Hc & ->)|Hin].
  - (* a plain character *)
    change ([c] ++ concat items ++ r) with (c :: concat items ++ r) in *.
    change ([c] ++ concat items) with (c :: concat items) in *.
    change (length [c]) with 1 in *. cbn [has3] in Hh.
    rewrite deref_cons.
    pose proof (plain_char_props c Hc) as (Hd & _ & _).
    destruct (Ascii.eqb_spec c "$"); [done|].
    apply plain_char_cases in Hc.
    apply orb_false_iff in Hh as [Hh1 Hh2].
    assert (Hnext : looks_like_rust_loop f sym (str + 1)
                      (str + (1 + length (concat items))) = Ret true).
    { replace (str + (1 + length (concat items)))
        with (str + 1 + length (concat items)) by lia.
      apply (IH Hf f sym (str + 1) r); [|done|done|lia].
      by apply (drop_S_tail _ _ c). }
    destruct (Ascii.eqb_spec c ".") as [Heq|Hdot].
    + rewrite Heq in *. clear Heq.
      destruct (strncmp ("." :: concat items ++ r) (lit "...") 3) eqn:Es;
        [|done].
      exfalso. apply (strncmp_prefix (lit "...")) in Es as [r' Es];
        [|compute_done].
      injection Es as Es.
      destruct (concat items) as [|x [|y X]]; simpl in Es.
      * subst r. discriminate Hr.
      * injection Es as -> ->. discriminate Hr.
      * injection Es as -> -> _. discriminate Hh1.
    + simpl in Hc. rewrite <- !orb_assoc in *. by rewrite Hc.
  - (* an escape sequence *)
    destruct (token_props it Hin) as (_ & _ & Hdot & Hhd & _).
    destruct it as [|c it]; [discriminate|]. injection Hhd as ->.
    change (deref (("$" :: it) ++ concat items ++ r)) with "$". cbv iota.
    replace (if ("$" =? "$")%char then _ else _)
      with (match token_len (("$" :: it) ++ concat items ++ r) with
            | Some n => looks_like_rust_loop f sym (str + n)
                          (str + (length ("$" :: it) + length (concat items)))
            | None => Ret false
            end) by done.
    rewrite (token_len_token _ _ Hin).
    rewrite Nat.add_assoc.
    apply (IH Hf f sym _ r); [|done| |lia].
    + apply drop_add_app. by rewrite Hp, <- app_assoc.
    + by rewrite has3_app_nodot in Hh.
Qed.

Lemma looks_like_rust_loop_total : ∀ fuel sym str end_,
  end_ - str < fuel -> ∃ b, looks_like_rust_loop fuel sym str end_ = Ret b.
Proof.
  induction fuel as [|f IH]; intros sym str end_ H; [lia|].
  rewrite llr_step.
  destruct (Nat.ltb_spec str end_); [|by eexists]. cbv zeta.
  destruct (_ =? "$")%char.
  - destruct (token_len _) as [n|] eqn:E; [|by eexists].
    apply token_len_Some in E as (t & r & Hin & Hl & _).
    destruct (token_props t Hin) as (_ & _ & _ & _ & ?).
    apply IH. lia.
  - destruct (_ =? ".")%char.
    + destruct (strncmp _ _ _); [by eexists|]. apply IH. lia.
    + destruct (_ || _); [|by eexists]. apply IH. lia.
Qed.

(* --------------------------------------------------------------------- *)
(** ** The Rust heuristic: the whole function *)
(* --------------------------------------------------------------------- *)

Lemma char_at_strlen : ∀ m : list HChar, char_at m (strlen m) = NUL.
Proof.
  induction m as [|c m IH]; simpl; [done|].
  destruct (Ascii.eqb_spec c NUL) as [->|]; [done|]. by rewrite char_at_cons_S.
Qed.

Lemma char_at_Some_NUL (b : list HChar) i :
  char_at b i = NUL -> i < length b -> b !! i = Some NUL.
Proof.
  unfold char_at. intros H Hi.
  destruct (lookup_lt_is_Some_2 b i Hi) as [x Hx]. rewrite Hx in *. simpl in H.
  by subst.
Qed.

Lemma block_split (m : list HChar) : m = cstr m ++ drop (strlen m) m.
Proof. unfold cstr. by rewrite take_drop. Qed.

Lemma rust_is_mangled_total sym : ∃ b, rust_is_mangled sym = Ret b.
Proof.
  destruct sym as [m|]; simpl; [|by eexists].
  destruct (_ <=? _); [by eexists|].
  destruct (is_prefixed_hash _); simpl; [|by eexists].
  apply looks_like_rust_loop_total. lia.
Qed.

Lemma rust_is_mangled_spec m :
  rust_is_mangled (Some m) = Ret true <-> Spec.looks_mangled (cstr m).
Proof.
  unfold rust_is_mangled, Spec.looks_mangled.
  set (len := strlen m). set (hl := hash_prefix_len + hash_len).
  assert (Ehl : hl = 19) by done.
  split.
  - destruct (Nat.leb_spec len hl) as [|Hlen]; [discriminate|].
    destruct (is_prefixed_hash (drop (len - hl) m)) eqn:Eh; [|discriminate].
    cbn [negb]. intros Hl.
    apply is_prefixed_hash_spec in Eh as (hex & rest & Ed & Hl16 & Hf & Hd).
    unfold looks_like_rust in Hl.
    assert (Hend : char_at m (len - hl) = ":").
    { by rewrite <- deref_drop, Ed. }
    destruct (looks_like_rust_sound _ m 0 (len - hl) Hl ltac:(lia) Hend)
      as (items & Hit & Htk & Hlen' & Hh).
    rewrite Nat.sub_0_r, drop_0 in Htk. rewrite Nat.sub_0_r in Hlen'.
    exists (concat items), hex.
    split; [|split; [|split; [done|split; [done|split; [done|split]]]]].
    + unfold cstr. fold len.
      replace len with ((len - hl) + 19) by lia.
      rewrite <- take_take_drop, Htk, Ed. f_equal.
      change (lit "::h" ++ hex ++ rest) with (":" :: ":" :: "h" :: hex ++ rest).
      change 19 with (3 + 16). cbn [take Nat.add]. rewrite <- Hl16.
      by rewrite take_app_length.
    + intros E. rewrite E in Hlen'. simpl in Hlen'. lia.
    + by exists items.
    + rewrite <- has3_three_dots. by rewrite Hh.
  - intros (p & hex & Ec & Hp & Hl16 & Hf & Hd & (items & Hit & ->) & H3).
    assert (Elen : len = length (concat items) + hl).
    { subst len. rewrite <- length_cstr, Ec, !length_app, Hl16. done. }
    assert (Em : m = concat items ++ lit "::h" ++ hex ++ drop len m).
    { rewrite (block_split m) at 1. fold len. rewrite Ec.
      by rewrite <- !app_assoc. }
    destruct (Nat.leb_spec len hl) as [|_].
    { destruct (concat items); [done|]. simpl in Elen. lia. }
    replace (len - hl) with (length (concat items)) by lia.
    assert (Ed : drop (length (concat items)) m
                 = lit "::h" ++ hex ++ drop len m).
    { rewrite Em at 1. by rewrite drop_app_length. }
    rewrite (proj2 (is_prefixed_hash_spec _)); [|by exists hex, (drop len m)].
    cbn [negb]. unfold looks_like_rust.
    apply (looks_like_rust_complete items Hit _ m 0
             (lit "::h" ++ hex ++ drop len m)); [by rewrite drop_0|done| |lia].
    destruct (has3 (concat items)) eqn:E; [|done].
    by apply has3_three_dots in E.
Qed.

(* --------------------------------------------------------------------- *)
(** ** The Rust decoder on an accepted symbol *)
(* --------------------------------------------------------------------- *)

Lemma emit_spec st c n :
  out st < length (buf st) ->
  emit st c n
  = Ret {| buf := <[out st := c]> (buf st); in_ := in_ st + n; out := out st + 1 |}.
Proof. intros H. unfold emit. by rewrite store_Ret. Qed.

Lemma good_take_insert (b : list HChar) o c :
  Forall good (take o b) -> good c -> o < length b ->
  Forall good (take (o + 1) (<[o := c]> b)).
Proof.
  intros Hf Hc Hlt. replace (o + 1) with (S o) by lia.
  rewrite (take_S_r _ _ c) by (by apply list_lookup_insert_eq).
  rewrite take_insert_ge by lia. apply Forall_app. split; [done|].
  by constructor.
Qed.

Lemma unescape_any_find : ∀ tbl st,
  out st < length (buf st) ->
  unescape_any st tbl
  = match find (fun e => strncmp (drop (in_ st) (buf st)) e.1 (strlen e.1)) tbl with
    | Some e =>
        Ret (true, {| buf := <[out st := e.2]> (buf st);
                      in_ := in_ st + strlen e.1; out := out st + 1 |})
    | None => Ret (false, st)
    end.
Proof.
  induction tbl as [|[seq v] tbl IH]; intros st Hlt; [done|].
  cbn [unescape_any find fst snd]. unfold unescape.
  destruct (strncmp (drop (in_ st) (buf st)) seq (strlen seq)); cbn [negb].
  - by rewrite store_Ret.
  - rewrite bind_Ret. by apply IH.
Qed.

Lemma unescape_any_token st t q :
  t ∈ Spec.rust_tokens ->
  drop (in_ st) (buf st) = t ++ q ->
  out st < length (buf st) ->
  ∃ v, good v
       ∧ unescape_any st rust_escapes
         = Ret (true, {| buf := <[out st := v]> (buf st);
                         in_ := in_ st + length t; out := out st + 1 |}).
Proof.
  intros Hin Hd Hlt. rewrite (unescape_any_find _ _ Hlt), Hd.
  unfold Spec.rust_tokens in Hin. rewrite !elem_of_cons in Hin.
  repeat (destruct Hin as [->|Hin];
          [eexists; split; [|reflexivity]; split; discriminate|]).
  by apply elem_of_nil in Hin.
Qed.

Lemma dl_step f end_ st :
  demangle_loop (S f) end_ st =
  if (Z.of_nat (in_ st) <? end_)%Z then
    let c := char_at (buf st) (in_ st) in
    if (c =? "$")%char then
      do (ok, st') <- unescape_any st rust_escapes;
      if ok then demangle_loop f end_ st' else Ret (S_fail, st')
    else if (c =? "_")%char then
      if ((in_ st =? 0) || (char_at (buf st) (in_ st - 1) =? ":")%char)
         && (char_at (buf st) (in_ st + 1) =? "$")%char
      then demangle_loop f end_
             {| buf := buf st; in_ := in_ st + 1; out := out st |}
      else
        do st' <- emit st c 1;
        demangle_loop f end_ st'
    else if (c =? ".")%char then
      if (char_at (buf st) (in_ st + 1) =? ".")%char then
        do st1 <- emit st ":" 0;
        do st2 <- emit st1 ":" 2;
        demangle_loop f end_ st2
      else
        do st' <- emit st "-" 1;
        demangle_loop f end_ st'
    else if is_alnum c || (c =? ":")%char then
      do st' <- emit st c 1;
      demangle_loop f end_ st'
    else Ret (S_fail, st)
  else Ret (S_done, st).
Proof. reflexivity. Qed.

Lemma plain_char_good c : Spec.plain_char c -> good c.
Proof. intros H. destruct (plain_char_props c H) as (_ & ? & ?). by split. Qed.

Lemma drop_lt_length (b : list HChar) i c q : drop i b = c :: q -> i < length b.
Proof.
  intros H. destruct (Nat.lt_ge_cases i (length b)) as [|Hge]; [done|].
  by rewrite drop_ge in H.
Qed.

(** The scan over a name the heuristic has accepted: [items] is what is
    left of it at [in], [r] the hash that follows. *)
Lemma demangle_loop_accepts : ∀ fuel items st r end_,
  Forall Spec.item items ->
  drop (in_ st) (buf st) = concat items ++ r -> deref r = ":" ->
  end_ = Z.of_nat (in_ st + length (concat items)) ->
  out st <= in_ st -> Forall good (take (out st) (buf st)) ->
  length (concat items) < fuel ->
  ∃ st', demangle_loop fuel end_ st = Ret (S_done, st')
         ∧ length (buf st') = length (buf st)
         ∧ in_ st' = in_ st + length (concat items)
         ∧ out st' <= in_ st'
         ∧ Forall good (take (out st') (buf st'))
         ∧ drop (in_ st') (buf st') = r.
Proof.
  induction fuel as [|f IH]; intros items st r end_ Hit Hd Hr -> Hle Hg Hfuel;
    [lia|].
  rewrite dl_step.
  destruct items as [|it items].
  { simpl in *. rewrite Nat.add_0_r.
    destruct (Z.ltb_spec (Z.of_nat (in_ st)) (Z.of_nat (in_ st))); [lia|].
    exists st. by repeat split. }
  apply Forall_cons in Hit as [Hi Hit].
  pose proof (item_nonempty it Hi) as Hne.
  cbn [concat] in *. rewrite length_app in *. rewrite <- app_assoc in Hd.
  destruct (Z.ltb_spec (Z.of_nat (in_ st))
              (Z.of_nat (in_ st + (length it + length (concat items)))));
    [|lia].
  cbv zeta.
  (* one store at [out], with [in] advanced by [n >= 1] over [it] *)
  assert (Hemit : ∀ c n q,
            good c -> 1 <= n -> drop (in_ st) (buf st) = q ->
            drop n q = concat items ++ r ->
            n = length it ->
            ∃ st', (do st1 <- emit st c n; demangle_loop f
                      (Z.of_nat (in_ st + (length it + length (concat items)))) st1)
                   = Ret (S_done, st')
              ∧ length (buf st') = length (buf st)
              ∧ in_ st' = in_ st + (length it + length (concat items))
              ∧ out st' <= in_ st'
              ∧ Forall good (take (out st') (buf st'))
              ∧ drop (in_ st') (buf st') = r).
  { intros c n q Hc Hn Hq Hq' ->.
    assert (Hlt : in_ st < length (buf st)).
    { destruct it as [|x it]; [simpl in Hne; lia|].
      by apply (drop_lt_length _ _ x (it ++ concat items ++ r)). }
    rewrite emit_spec by lia. rewrite bind_Ret.
    destruct (IH items
                {| buf := <[out st := c]> (buf st); in_ := in_ st + length it;
                   out := out st + 1 |} r
                (Z.of_nat (in_ st + (length it + length (concat items)))))
      as (st' & E & H1 & H2 & H3 & H4 & H5); simpl.
    - done.
    - rewrite drop_insert_lt by lia. by rewrite <- drop_drop, Hq.
    - done.
    - f_equal. lia.
    - lia.
    - apply good_take_insert; [done|done|lia].
    - lia.
    - exists st'. rewrite E. simpl in *. rewrite length_insert in H1.
      split; [done|]. split; [done|]. split; [lia|]. done. }
  destruct Hi as [(c & Hc & ->)|Hin].
  - (* a plain character *)
    change ([c] ++ concat items ++ r) with (c :: concat items ++ r) in Hd.
    assert (Ec : char_at (buf st) (in_ st) = c)
      by (by rewrite <- deref_drop, Hd).
    rewrite Ec.
    pose proof (plain_char_props c Hc) as (Hdollar & _ & _).
    pose proof (plain_char_good c Hc) as Hgc.
    destruct (Ascii.eqb_spec c "$"); [done|].
    assert (Hone : ∀ c',
              good c' ->
              ∃ st', (do st1 <- emit st c' 1; demangle_loop f
                        (Z.of_nat (in_ st + (length [c] + length (concat items)))) st1)
                     = Ret (S_done, st')
                ∧ length (buf st') = length (buf st)
                ∧ in_ st' = in_ st + (length [c] + length (concat items))
                ∧ out st' <= in_ st'
                ∧ Forall good (take (out st') (buf st'))
                ∧ drop (in_ st') (buf st') = r).
    { intros c' Hc'. by apply (Hemit c' 1 (c :: concat items ++ r)). }
    destruct (Ascii.eqb_spec c "_") as [Hus|Hus].
    { destruct (_ && _); [|by apply Hone].
      destruct (IH items {| buf := buf st; in_ := in_ st + 1; out := out st |} r
                  (Z.of_nat (in_ st + (length [c] + length (concat items)))))
        as (st' & E & H1 & H2 & H3 & H4 & H5); simpl.
      - done.
      - by rewrite <- drop_drop, Hd.
      - done.
      - f_equal. lia.
      - lia.
      - done.
      - simpl in Hfuel. lia.
      - exists st'. simpl in *. split; [done|]. split; [done|].
        split; [lia|]. done. }
    destruct (Ascii.eqb_spec c ".") as [Hdot|Hdot].
    2:{ apply plain_char_cases in Hc.
        destruct (Ascii.eqb_spec c "."); [done|].
        destruct (Ascii.eqb_spec c "_"); [done|].
        simpl in Hc. rewrite orb_false_r in Hc. rewrite Hc. by apply Hone. }
    destruct (Ascii.eqb_spec (char_at (buf st) (in_ st + 1)) ".") as [E2|E2];
      [|apply Hone; by split].
    (* ".." *)
    rewrite <- char_at_drop, Hd, char_at_cons_S in E2.
    destruct items as [|it2 items].
    { simpl in E2. unfold deref in Hr. congruence. }
    apply Forall_cons in Hit as [Hi2 Hit].
    assert (it2 = ["."]) as ->.
    { destruct Hi2 as [(c2 & _ & ->)|Hin2].
      - simpl in E2. by rewrite char_at_cons_0 in E2; subst.
      - destruct (token_props it2 Hin2) as (_ & _ & _ & Hhd & _).
        destruct it2 as [|x it2]; [discriminate|]. injection Hhd as ->.
        simpl in E2. rewrite char_at_cons_0 in E2. discriminate. }
    cbn [concat] in *. change (["."] ++ concat items) with ("." :: concat items) in *.
    change ((c :: "." :: concat items) ++ r) with (c :: "." :: concat items ++ r) in *.
    change (c :: ("." :: concat items) ++ r) with (c :: "." :: concat items ++ r) in *.
    simpl length in *.
    assert (Hlt : in_ st + 1 < length (buf st)).
    { pose proof (drop_lt_length (buf st) (in_ st + 1) "." (concat items ++ r)) as Hx.
      apply Hx. by rewrite <- drop_drop, Hd. }
    rewrite emit_spec by lia. rewrite bind_Ret.
    rewrite emit_spec by (simpl; rewrite length_insert; lia). rewrite bind_Ret.
    simpl.
    destruct (IH items
                {| buf := <[out st + 1 := ":"]> (<[out st := ":"]> (buf st));
                   in_ := in_ st + 0 + 2; out := out st + 1 + 1 |} r
                (Z.of_nat (in_ st + S (S (length (concat items))))))
      as (st' & E & H1 & H2 & H3 & H4 & H5); simpl.
    + done.
    + rewrite !drop_insert_lt by lia.
      replace (in_ st + 0 + 2) with (in_ st + 2) by lia.
      by rewrite <- drop_drop, Hd.
    + done.
    + f_equal. lia.
    + lia.
    + apply good_take_insert; [|by split|rewrite length_insert; lia].
      apply good_take_insert; [done|by split|lia].
    + lia.
    + exists st'. rewrite E. simpl in *. rewrite !length_insert in H1.
      split; [done|]. split; [done|]. split; [lia|]. done.
  - (* an escape sequence *)
    destruct (token_props it Hin) as (_ & _ & _ & Hhd & _).
    assert (Ec : char_at (buf st) (in_ st) = "$").
    { rewrite <- deref_drop, Hd. destruct it as [|x it]; [discriminate|].
      by injection Hhd as ->. }
    rewrite Ec. cbv iota.
    change (if ("$" =? "$")%char then ?a else ?b) with a.
    assert (Hlt : in_ st < length (buf st)).
    { destruct it as [|x it]; [discriminate|].
      by apply (drop_lt_length _ _ x (it ++ concat items ++ r)). }
    destruct (unescape_any_token st it _ Hin Hd ltac:(lia)) as (v & Hv & ->).
    rewrite bind_Ret. cbv iota beta.
    destruct (IH items
                {| buf := <[out st := v]> (buf st); in_ := in_ st + length it;
                   out := out st + 1 |} r
                (Z.of_nat (in_ st + (length it + length (concat items)))))
      as (st' & E & H1 & H2 & H3 & H4 & H5); simpl.
    + done.
    + rewrite drop_insert_lt by lia. by apply drop_add_app.
    + done.
    + f_equal. lia.
    + lia.
    + apply good_take_insert; [done|done|lia].
    + lia.
    + exists st'. rewrite E. simpl in *. rewrite length_insert in H1.
      split; [done|]. split; [done|]. split; [lia|]. done.
Qed.

Lemma cstr_take_NUL (b : list HChar) o :
  NUL ∉ take o b -> b !! o = Some NUL -> cstr b = take o b.
Proof.
  intros Hn Ho. rewrite <- (take_drop o b) at 1.
  rewrite (drop_S _ _ _ Ho). by apply cstr_app_NUL.
Qed.

Lemma good_no_NUL (l : list HChar) : Forall good l -> NUL ∉ l ∧ "?" ∉ l.
Proof.
  induction 1 as [|c l [H1 H2] _ [IH1 IH2]].
  - split; apply not_elem_of_nil.
  - split; apply not_elem_of_cons; split; congruence.
Qed.

Lemma rust_demangle_sym_accepted m :
  rust_is_mangled (Some m) = Ret true ->
  ∃ st b,
    rust_demangle_scan m = Ret (S_done, st)
    ∧ rust_demangle_sym (Some m) = Ret (Some b)
    ∧ out st + 1 <= strlen m
    ∧ b = <[out st := NUL]> (buf st)
    ∧ length b = length m
    ∧ b !! out st = Some NUL
    ∧ cstr b = take (out st) (buf st)
    ∧ length (cstr b) = out st
    ∧ Forall good (cstr b).
Proof.
  intros H. apply rust_is_mangled_spec in H
    as (p & hex & Ec & Hp & Hl16 & _ & _ & (items & Hit & ->) & _).
  assert (Elen : strlen m = length (concat items) + 19).
  { rewrite <- length_cstr, Ec, !length_app, Hl16. done. }
  assert (Em : m = concat items ++ lit "::h" ++ hex ++ drop (strlen m) m).
  { rewrite (block_split m) at 1. rewrite Ec. by rewrite <- !app_assoc. }
  destruct (demangle_loop_accepts (S (strlen m)) items
              {| buf := m; in_ := 0; out := 0 |}
              (lit "::h" ++ hex ++ drop (strlen m) m)
              (Z.of_nat (strlen m) - Z.of_nat (hash_prefix_len + hash_len))%Z)
    as (st & E & H1 & H2 & H3 & H4 & H5).
  - done.
  - simpl. by rewrite drop_0.
  - done.
  - simpl. unfold hash_prefix_len, hash_len. lia.
  - simpl. lia.
  - simpl. constructor.
  - lia.
  - cbn [buf in_ out] in H1, H2, H3, H4, H5.
    assert (Hlen : strlen m <= length m) by apply strlen_le.
    assert (Hout : out st < length (buf st)) by lia.
    exists st, (<[out st := NUL]> (buf st)).
    unfold rust_demangle_sym, rust_demangle_scan. rewrite E, !bind_Ret.
    rewrite emit_spec by done. rewrite bind_Ret. simpl.
    destruct (Nat.leb_spec (out st + 1) (strlen m)); [|lia].
    assert (Hb : <[out st := NUL]> (buf st) !! out st = Some NUL)
      by (by apply list_lookup_insert_eq).
    assert (Hc : cstr (<[out st := NUL]> (buf st)) = take (out st) (buf st)).
    { rewrite (cstr_take_NUL _ (out st)); [by rewrite take_insert_ge| |done].
      rewrite take_insert_ge by lia. by apply good_no_NUL. }
    rewrite Hc, length_insert, length_take.
    repeat split; try done; lia.
Qed.

(** C5.  On a block holding
    [_$LT$std..sys..fd..FileDesc$u20$as$u20$core..ops..Drop$GT$::drop::hc68340e1baa4987a]
    [rust_demangle_sym] leaves the string
    [<std::sys::fd::FileDesc as core::ops::Drop>::drop]: the hash and its
    [::h] are gone. *)
Lemma rust_demangle_sym_example slack :
  ∃ b,
    rust_demangle_sym
      (Some (lit "_$LT$std..sys..fd..FileDesc$u20$as$u20$core..ops..Drop$GT$::drop::hc68340e1baa4987a"
             ++ NUL :: slack))
    = Ret (Some b)
    ∧ cstr b = lit "<std::sys::fd::FileDesc as core::ops::Drop>::drop".
Proof. eexists. split; vm_compute; reflexivity. Qed.

(* --------------------------------------------------------------------- *)
(** ** The Rust decoder on any block *)
(* --------------------------------------------------------------------- *)

Lemma escapes_lengths :
  Forall (fun e : list HChar * HChar => 3 <= strlen e.1 <= 5) rust_escapes.
Proof. repeat constructor; compute_done. Qed.

Lemma unescape_any_cursor st :
  out st < length (buf st) ->
  ∃ ok st', unescape_any st rust_escapes = Ret (ok, st')
    ∧ length (buf st') = length (buf st)
    ∧ (if ok
       then in_ st + 3 <= in_ st' <= in_ st + 5 ∧ out st' = out st + 1
       else st' = st).
Proof.
  intros Hlt. rewrite (unescape_any_find _ _ Hlt).
  destruct (find _ rust_escapes) as [e|] eqn:E.
  - apply find_some in E as [Hin _]. apply list_elem_of_In in Hin.
    pose proof (proj1 (Forall_forall _ _) escapes_lengths e Hin) as Hl.
    eexists true, _. split; [done|]. cbn [buf in_ out].
    rewrite length_insert. split; [done|]. cbv beta in Hl. lia.
  - by exists false, st.
Qed.

Lemma strlen_lookup_NUL : ∀ (b : list HChar) o, b !! o = Some NUL -> strlen b <= o.
Proof.
  induction b as [|c b IH]; intros o H; simpl; [lia|].
  destruct (Ascii.eqb_spec c NUL); [lia|].
  destruct o as [|o]; simpl in H; [congruence|].
  apply IH in H. lia.
Qed.

(** The cursors of the scan on any block: [out] stays behind [in], every
    store falls inside the block, and [in] ends at most four bytes after
    [end]. *)
Lemma demangle_loop_safe : ∀ fuel end_ st,
  out st <= in_ st ->
  (end_ < Z.of_nat (length (buf st)))%Z ->
  (Z.max 0 (end_ - Z.of_nat (in_ st)) < Z.of_nat fuel)%Z ->
  ∃ ex st', demangle_loop fuel end_ st = Ret (ex, st')
    ∧ length (buf st') = length (buf st)
    ∧ out st' <= in_ st'
    ∧ (Z.of_nat (in_ st') <= Z.max (Z.of_nat (in_ st)) (end_ + 4))%Z
    ∧ (ex = S_fail -> (Z.of_nat (in_ st') < end_)%Z).
Proof.
  induction fuel as [|f IH]; intros end_ st Hle Hend Hfuel; [lia|].
  rewrite dl_step.
  destruct (Z.ltb_spec (Z.of_nat (in_ st)) end_) as [Hlt|Hge].
  2:{ exists S_done, st. repeat split; [done|lia|done]. }
  cbv zeta.
  (* the loop is entered again with [in] advanced by [k] and [out] by at
     most as much *)
  assert (Hnext : ∀ st1,
            length (buf st1) = length (buf st) ->
            in_ st < in_ st1 <= in_ st + 5 -> out st1 <= in_ st1 ->
            ∃ ex st', demangle_loop f end_ st1 = Ret (ex, st')
              ∧ length (buf st') = length (buf st)
              ∧ out st' <= in_ st'
              ∧ (Z.of_nat (in_ st') <= Z.max (Z.of_nat (in_ st)) (end_ + 4))%Z
              ∧ (ex = S_fail -> (Z.of_nat (in_ st') < end_)%Z)).
  { intros st1 Hl1 Hin1 Hout1.
    destruct (IH end_ st1 Hout1 ltac:(lia) ltac:(lia))
      as (ex & st' & E & H1 & H2 & H3 & H4).
    exists ex, st'. repeat split; [done|lia|done|lia|done]. }
  assert (Hstore : out st < length (buf st)) by lia.
  assert (Hone : ∀ c,
            ∃ ex st', (do st1 <- emit st c 1; demangle_loop f end_ st1)
                      = Ret (ex, st')
              ∧ length (buf st') = length (buf st)
              ∧ out st' <= in_ st'
              ∧ (Z.of_nat (in_ st') <= Z.max (Z.of_nat (in_ st)) (end_ + 4))%Z
              ∧ (ex = S_fail -> (Z.of_nat (in_ st') < end_)%Z)).
  { intros c. rewrite emit_spec by done. rewrite bind_Ret.
    apply Hnext; simpl; [by rewrite length_insert|lia|lia]. }
  destruct (_ =? "$")%char.
  { destruct (unescape_any_cursor st Hstore) as (ok & st1 & -> & Hl1 & Hok).
    rewrite bind_Ret. cbv iota beta. destruct ok.
    - apply Hnext; [done|lia|lia].
    - subst st1. exists S_fail, st. repeat split; [done|lia|done]. }
  destruct (_ =? "_")%char.
  { destruct (_ && _); [|apply Hone].
    apply Hnext; simpl; [done|lia|lia]. }
  destruct (_ =? ".")%char.
  { destruct (_ =? ".")%char; [|apply Hone].
    rewrite emit_spec by done. rewrite bind_Ret.
    rewrite emit_spec by (simpl; rewrite length_insert; lia). rewrite bind_Ret.
    apply Hnext; simpl; [by rewrite !length_insert|lia|lia]. }
  destruct (_ || _); [apply Hone|].
  exists S_fail, st. repeat split; [done|lia|done].
Qed.

(** [rust_demangle_sym] on any block whose string is at least as long as
    the hash, so that [end] points into it. *)
Lemma rust_demangle_sym_safe m :
  hash_prefix_len + hash_len <= strlen m ->
  ∃ b o,
    rust_demangle_sym (Some m) = Ret (Some b)
    ∧ length b = length m
    ∧ b !! o = Some NUL ∧ o < strlen m.
Proof.
  unfold hash_prefix_len, hash_len. intros Hlen.
  pose proof (strlen_le m) as Hm.
  unfold rust_demangle_sym, rust_demangle_scan.
  destruct (demangle_loop_safe (S (strlen m))
              (Z.of_nat (strlen m) - Z.of_nat (hash_prefix_len + hash_len))%Z
              {| buf := m; in_ := 0; out := 0 |})
    as (ex & st & -> & Hl & Ho & Hi & Hf).
  - simpl. lia.
  - simpl. unfold hash_prefix_len, hash_len. lia.
  - simpl. unfold hash_prefix_len, hash_len. lia.
  - rewrite bind_Ret. cbv iota beta.
    cbn [buf in_ out] in Hl, Hi. unfold hash_prefix_len, hash_len in Hi, Hf.
    destruct ex.
    + rewrite bind_Ret. rewrite emit_spec by lia. rewrite bind_Ret.
      cbn [buf out]. destruct (Nat.leb_spec (out st + 1) (strlen m)); [|lia].
      exists (<[out st := NUL]> (buf st)), (out st).
      split; [done|]. rewrite length_insert. split; [done|].
      split; [apply list_lookup_insert_eq; lia|lia].
    + specialize (Hf eq_refl). rewrite emit_spec by lia. rewrite bind_Ret.
      rewrite emit_spec by (simpl; rewrite length_insert; lia).
      rewrite bind_Ret. cbn [buf out].
      destruct (Nat.leb_spec (out st + 1 + 1) (strlen m)); [|lia].
      exists (<[out st + 1 := NUL]> (<[out st := "?"]> (buf st))), (out st + 1).
      split; [done|]. rewrite !length_insert. split; [done|].
      split; [apply list_lookup_insert_eq; rewrite length_insert; lia|lia].
Qed.

(* --------------------------------------------------------------------- *)
(** ** The main entry point *)
(* --------------------------------------------------------------------- *)

Local Arguments Rust.rust_is_mangled : simpl never.
Local Arguments Rust.rust_demangle_sym : simpl never.
Local Arguments ZDemangle.VG_maybe_Z_demangle : simpl never.

Section Orchestrator.
Variable uninit : nat -> HChar.
Variable cplus_demangle : list HChar -> option (list HChar).
Variable clo_demangle : bool.

Lemma wants_cxx_spec do_cxx pre :
  wants_cxx clo_demangle do_cxx pre = true
  <-> do_cxx = true ∧ clo_demangle = true ∧ Spec.begins_with_Z pre.
Proof.
  unfold wants_cxx, Spec.begins_with_Z.
  rewrite !andb_true_iff. split.
  - intros [[-> ->] H]. split; [done|]. split; [done|].
    destruct pre as [m|]; [|discriminate]. exists m. split; [done|].
    apply andb_true_iff in H as [H0 H1]. apply Ascii.eqb_eq in H0, H1.
    destruct m as [|c0 [|c1 m]]; try discriminate.
    cbn in H0, H1. subst. unfold cstr. simpl.
    by exists (take (strlen m) m).
  - intros (-> & -> & m & -> & r & Hr). split; [done|].
    destruct m as [|c0 m]; [discriminate|]. unfold cstr in Hr. simpl in Hr.
    destruct (c0 =? NUL)%char; [discriminate|]. simpl in Hr.
    destruct m as [|c1 m]; [discriminate|]. simpl in Hr.
    destruct (c1 =? NUL)%char; [discriminate|]. simpl in Hr.
    injection Hr as -> -> _. done.
Qed.

Lemma undo_Z_spec do_z orig st :
  state_wf st ->
  match undo_Z uninit do_z orig st with
  | Ret (p, pre, st') =>
      state_wf st' ∧ demangled st' = demangled st ∧ heap st' = heap st
      ∧ trace st' = trace st
      ∧ (p = P_fnbuf ∧ pre = Some (ZDemangle.fnbuf (zstatics st'))
         ∨ p = match orig with None => P_NULL | Some _ => P_orig end
           ∧ pre = orig)
  | Abort w => w = A_VG_Z_prefix
  | Trap => do_z = true ∧ orig = None
  | OutOfFuel => False
  end.
Proof.
  intros Hwf. unfold undo_Z.
  destruct do_z; [|simpl; split; [done|]; repeat split; by right].
  destruct orig as [sym|]; [|done].
  pose proof (maybe_Z_demangle_bounded uninit sym false false false false
                (zstatics st)
                {| ZDemangle.so_v := None; ZDemangle.fn_v := None;
                   ZDemangle.isWrap_v := false; ZDemangle.eclassTag_v := 0%Z;
                   ZDemangle.eclassPrio_v := 0%Z |} Hwf) as H.
  destruct (ZDemangle.VG_maybe_Z_demangle _ _ _ _ _ _ _ _)
    as [[[ok zs] o]|w| |]; simpl; try done.
  destruct H as (Hwf' & _).
  destruct ok; simpl; (split; [done|]); repeat split; auto.
Qed.

Lemma VG_demangle_outcome do_cxx do_z orig st :
  state_wf st -> (do_z = true -> orig ≠ None) ->
  match VG_demangle uninit cplus_demangle clo_demangle do_cxx do_z orig st with
  | Ret (_, st') => state_wf st'
  | Abort w => w = A_VG_Z_prefix
  | Trap => False
  | OutOfFuel => False
  end.
Proof.
  intros Hwf Hnull. unfold VG_demangle.
  pose proof (undo_Z_spec do_z orig st Hwf) as H.
  destruct (undo_Z uninit do_z orig st) as [[[p pre] st1]|w| |]; simpl;
    [|done|by destruct H as [? ?]; apply Hnull|done].
  destruct H as (Hwf1 & _).
  destruct (wants_cxx clo_demangle do_cxx pre); [|done].
  set (st2 := call_cplus_demangle cplus_demangle _ _).
  assert (Hwf2 : state_wf st2).
  { subst st2. unfold call_cplus_demangle, free_previous, state_wf.
    destruct (demangled st1); destruct (cplus_demangle _); done. }
  clearbody st2. destruct (demangled st2) as [a|]; [|done].
  cbv zeta. set (blk := default [] (heap st2 !! a)).
  destruct (rust_is_mangled_total (Some blk)) as [b E]. rewrite E, bind_Ret.
  destruct b; [|done].
  destruct (rust_demangle_sym_accepted blk E) as (s & b' & _ & -> & _).
  done.
Qed.
Lemma undo_Z_shape do_z orig st p pre st1 :
  undo_Z uninit do_z orig st = Ret (p, pre, st1) ->
  demangled st1 = demangled st ∧ heap st1 = heap st ∧ trace st1 = trace st
  ∧ (p = P_fnbuf ∧ pre = Some (ZDemangle.fnbuf (zstatics st1))
     ∨ p = match orig with None => P_NULL | Some _ => P_orig end ∧ pre = orig).
Proof.
  unfold undo_Z. destruct do_z.
  - destruct orig as [sym|]; [|discriminate].
    destruct (ZDemangle.VG_maybe_Z_demangle _ _ _ _ _ _ _ _)
      as [[[ok zs] o]|w| |]; simpl; try discriminate.
    destruct ok; intros [= <- <- <-]; simpl; repeat split; auto.
  - intros [= <- <- <-]. repeat split; auto.
Qed.

Lemma VG_demangle_stages do_cxx do_z orig st res st' :
  VG_demangle uninit cplus_demangle clo_demangle do_cxx do_z orig st
  = Ret (res, st') ->
  ∃ p_pre pre st1,
    undo_Z uninit do_z orig st = Ret (p_pre, pre, st1)
    ∧ if wants_cxx clo_demangle do_cxx pre then
        ∃ m, pre = Some m
          ∧ trace st' = trace st1 ++ release_events st1
                        ++ [E_cplus_demangle (cstr m)]
          ∧ zstatics st' = zstatics st1
          ∧ match cplus_demangle (cstr m) with
            | None =>
                res = p_pre ∧ demangled st' = None
                ∧ heap st' = heap_released st1
            | Some blk =>
                ∃ a blk', res = P_heap a ∧ demangled st' = Some a
                  ∧ a ∉ dom (heap_released st1)
                  ∧ heap st' = <[a := blk']> (heap_released st1)
            end
      else res = p_pre ∧ st' = st1.
Proof.
  unfold VG_demangle.
  destruct (undo_Z uninit do_z orig st) as [[[p pre] st1]|w| |] eqn:EZ;
    simpl; try discriminate.
  intros H. exists p, pre, st1. split; [done|].
  destruct (wants_cxx clo_demangle do_cxx pre) eqn:Ew.
  2:{ by injection H as <- <-. }
  apply wants_cxx_spec in Ew as (_ & _ & m & -> & _). exists m.
  split; [done|]. simpl in H.
  unfold call_cplus_demangle, free_previous, release_events, heap_released in *.
  destruct (cplus_demangle (cstr m)) as [blk|] eqn:Ec.
  - assert (Hgen : ∀ h tr,
      (let st2 := {| zstatics := zstatics st1;
                     demangled := Some (fresh (dom h));
                     heap := <[fresh (dom h) := blk]> h; trace := tr |} in
       match demangled st2 with
       | Some a =>
           let blk0 := default [] (heap st2 !! a) in
           do r <- Rust.rust_is_mangled (Some blk0);
           do blk' <-
             (if r then do b <- Rust.rust_demangle_sym (Some blk0);
                        Ret (default blk0 b)
              else Ret blk0);
           Ret (P_heap a,
                {| zstatics := zstatics st2; demangled := demangled st2;
                   heap := <[a := blk']> (heap st2); trace := trace st2 |})
       | None => Ret (p, st2)
       end) = Ret (res, st') ->
      trace st' = tr ∧ zstatics st' = zstatics st1
      ∧ ∃ a blk', res = P_heap a ∧ demangled st' = Some a
                  ∧ a ∉ dom h ∧ heap st' = <[a := blk']> h).
    { intros h tr. cbn [demangled heap zstatics trace]. cbv zeta.
      destruct (Rust.rust_is_mangled _) as [r|w| |]; simpl; try discriminate.
      destruct r.
      - destruct (Rust.rust_demangle_sym _) as [b|w| |]; simpl; try discriminate.
        intros [= <- <-]. simpl. split; [done|]. split; [done|].
        eexists _, _. split; [done|]. split; [done|].
        split; [apply is_fresh|]. by rewrite insert_insert_eq.
      - intros [= <- <-]. simpl. split; [done|]. split; [done|].
        eexists _, _. split; [done|]. split; [done|].
        split; [apply is_fresh|]. by rewrite insert_insert_eq. }
    destruct (demangled st1) as [a0|]; simpl in H |- *.
    + apply Hgen in H as (-> & -> & H). rewrite <- app_assoc. done.
    + apply Hgen in H as (-> & -> & H). done.
  - destruct (demangled st1) as [a0|]; simpl in H |- *;
      injection H as <- <-; simpl; by rewrite <- ?app_assoc.
Qed.

(** C2, amended.  In a call of [VG_(demangle)] that reaches stage 1
    ([do_cxx_demangling] and [VG_(clo_demangle)] set, the string beginning
    with [_Z]) the buffer [demangled] points to, if any, is released, and
    the next event is the call of the stage-1 demangler; nothing else is
    released, and [demangled] is then NULL or a fresh block.  A call that
    does not reach stage 1 releases nothing: [demangled] and the heap are
    as before. *)
Theorem VG_demangle_release_point
    (do_cxx do_z : bool) (orig : option (list HChar)) (st st' : state)
    (res : strptr) :
  VG_demangle uninit cplus_demangle clo_demangle do_cxx do_z orig st
  = Ret (res, st') ->
  ∃ p_pre pre st1,
    undo_Z uninit do_z orig st = Ret (p_pre, pre, st1)
    ∧ (do_cxx = true ∧ clo_demangle = true ∧ Spec.begins_with_Z pre ->
       ∃ m, pre = Some m
         ∧ trace st' = trace st ++ release_events st
                       ++ [E_cplus_demangle (cstr m)]
         ∧ (demangled st' = None ∧ heap st' = heap_released st
            ∨ ∃ a blk, demangled st' = Some a
                ∧ a ∉ dom (heap_released st)
                ∧ heap st' = <[a := blk]> (heap_released st)))
    ∧ (¬ (do_cxx = true ∧ clo_demangle = true ∧ Spec.begins_with_Z pre) ->
       trace st' = trace st ∧ demangled st' = demangled st
       ∧ heap st' = heap st).
Proof.
  intros H.
  destruct (VG_demangle_stages _ _ _ _ _ _ H)
    as (p & pre & st1 & EZ & Hs).
  destruct (undo_Z_shape _ _ _ _ _ _ EZ) as (Hd & Hh & Ht & _).
  assert (Er : release_events st1 = release_events st)
    by (unfold release_events; by rewrite Hd).
  assert (Eh : heap_released st1 = heap_released st)
    by (unfold heap_released; by rewrite Hd, Hh).
  exists p, pre, st1. split; [done|].
  destruct (wants_cxx clo_demangle do_cxx pre) eqn:Ew.
  - split; [|intros Hn; by apply wants_cxx_spec in Ew].
    intros _. destruct Hs as (m & -> & Htr & _ & Hc). exists m.
    split; [done|]. rewrite Er, Ht in Htr. split; [done|].
    rewrite Eh in Hc.
    destruct (cplus_demangle (cstr m)) as [blk|].
    + right. destruct Hc as (a & blk' & _ & ? & ? & ?). by exists a, blk'.
    + left. by destruct Hc as (_ & ? & ?).
  - destruct Hs as [_ ->]. split; [|done].
    intros Hw. apply wants_cxx_spec in Hw. congruence.
Qed.

(** C7.  If [do_cxx_demangling] is unset, or the string left by the
    Z-decoding step does not begin with [_Z], or the stage-1 demangler
    returns no result, [*result] is the pointer left by that step, the
    caller's or [fnbuf], and the string behind it is unchanged; and
    [*result] points to a block of the heap only when stage 1 has run and
    returned that block. *)
Theorem VG_demangle_result_pointer
    (do_cxx do_z : bool) (orig : option (list HChar)) (st st' : state)
    (res : strptr) :
  VG_demangle uninit cplus_demangle clo_demangle do_cxx do_z orig st
  = Ret (res, st') ->
  ∃ p_pre pre st1,
    undo_Z uninit do_z orig st = Ret (p_pre, pre, st1)
    ∧ (do_cxx = false ∨ ¬ Spec.begins_with_Z pre
       ∨ (∃ m, pre = Some m ∧ cplus_demangle (cstr m) = None) ->
       res = p_pre ∧ string_at orig st' res = cstr <$> pre)
    ∧ (∀ a, res = P_heap a ->
         do_cxx = true ∧ Spec.begins_with_Z pre
         ∧ ∃ m blk, pre = Some m ∧ cplus_demangle (cstr m) = Some blk
                    ∧ demangled st' = Some a ∧ is_Some (heap st' !! a)).
Proof.
  intros H.
  destruct (VG_demangle_stages _ _ _ _ _ _ H)
    as (p & pre & st1 & EZ & Hs).
  destruct (undo_Z_shape _ _ _ _ _ _ EZ) as (_ & _ & _ & Hp).
  exists p, pre, st1. split; [done|].
  assert (Hstr : ∀ st2, zstatics st2 = zstatics st1 ->
                        string_at orig st2 p = cstr <$> pre).
  { intros st2 E. destruct Hp as [[-> ->]|[-> ->]]; simpl; [by rewrite E|].
    by destruct orig. }
  assert (Hnh : ∀ a, p ≠ P_heap a).
  { intros a. destruct Hp as [[-> _]|[-> _]]; [done|by destruct orig]. }
  destruct (wants_cxx clo_demangle do_cxx pre) eqn:Ew.
  - apply wants_cxx_spec in Ew as (-> & _ & Hb).
    destruct Hs as (m & -> & _ & Ez & Hc).
    destruct (cplus_demangle (cstr m)) as [blk|] eqn:Ec.
    + destruct Hc as (a & blk' & -> & Hd & _ & Hh). split.
      * intros [?|[?|(m' & [= <-] & ?)]]; [done|done|congruence].
      * intros a' [= <-]. split; [done|]. split; [done|].
        exists m, blk. rewrite Hh, lookup_insert_eq. by repeat split.
    + destruct Hc as (-> & _). split.
      * intros _. split; [done|]. by apply Hstr.
      * intros a E. by apply Hnh in E.
  - destruct Hs as [-> ->]. split.
    + intros _. split; [done|]. by apply Hstr.
    + intros a E. by apply Hnh in E.
Qed.

End Orchestrator.

(** The buffer of the first call is still there, and still what [demangled]
    points to, after a second call that does not reach stage 1. *)
Lemma retained_buffer_counterexample :
  ∃ p1 st1 a blk,
    VG_demangle uninit_x cxx_test true true true (Some (lit "_Z3foov")) state_init
    = Ret (p1, st1)
    ∧ demangled st1 = Some a ∧ heap st1 !! a = Some blk
    ∧ ∃ p2 st2,
        VG_demangle uninit_x cxx_test true true true (Some (lit "main")) st1
        = Ret (p2, st2)
        ∧ trace st2 = trace st1
        ∧ demangled st2 = Some a ∧ heap st2 !! a = Some blk.
Proof.
  do 4 eexists. split; [vm_compute; reflexivity|].
  split; [reflexivity|]. split; [vm_compute; reflexivity|].
  do 2 eexists. split; [vm_compute; reflexivity|].
  split; [reflexivity|]. split; [reflexivity|]. vm_compute. reflexivity.
Qed.

Lemma VG_demangle_release_point_witness :
  ∃ res st',
    VG_demangle uninit_x cxx_test true true true (Some (lit "_Zrust"))
      state_after_foo = Ret (res, st')
    ∧ ∃ p_pre pre st1,
        undo_Z uninit_x true (Some (lit "_Zrust")) state_after_foo
        = Ret (p_pre, pre, st1)
        ∧ (true = true ∧ true = true ∧ Spec.begins_with_Z pre ->
           ∃ m, pre = Some m
             ∧ trace st' = trace state_after_foo ++ release_events state_after_foo
                           ++ [E_cplus_demangle (cstr m)]
             ∧ (demangled st' = None ∧ heap st' = heap_released state_after_foo
                ∨ ∃ a blk, demangled st' = Some a
                    ∧ a ∉ dom (heap_released state_after_foo)
                    ∧ heap st' = <[a := blk]> (heap_released state_after_foo)))
        ∧ (¬ (true = true ∧ true = true ∧ Spec.begins_with_Z pre) ->
           trace st' = trace state_after_foo
           ∧ demangled st' = demangled state_after_foo
           ∧ heap st' = heap state_after_foo).
Proof.
  assert (E : ∃ res st',
    VG_demangle uninit_x cxx_test true true true (Some (lit "_Zrust"))
      state_after_foo = Ret (res, st')).
  { do 2 eexists. vm_compute. reflexivity. }
  destruct E as (res & st' & E). exists res, st'. split; [exact E|].
  exact (VG_demangle_release_point uninit_x cxx_test true true true
           (Some (lit "_Zrust")) state_after_foo st' res E).
Defined.

Lemma VG_demangle_result_pointer_witness :
  ∃ res st',
    VG_demangle uninit_x cxx_test true true true
      (Some (lit "_vgw00000ZU_libcZdsoZa__Znwm")) state_init = Ret (res, st')
    ∧ ∃ p_pre pre st1,
        undo_Z uninit_x true (Some (lit "_vgw00000ZU_libcZdsoZa__Znwm")) state_init
        = Ret (p_pre, pre, st1)
        ∧ (true = false ∨ ¬ Spec.begins_with_Z pre
           ∨ (∃ m, pre = Some m ∧ cxx_test (cstr m) = None) ->
           res = p_pre
           ∧ string_at (Some (lit "_vgw00000ZU_libcZdsoZa__Znwm")) st' res
             = cstr <$> pre)
        ∧ (∀ a, res = P_heap a ->
             true = true ∧ Spec.begins_with_Z pre
             ∧ ∃ m blk, pre = Some m ∧ cxx_test (cstr m) = Some blk
                        ∧ demangled st' = Some a ∧ is_Some (heap st' !! a)).
Proof.
  assert (E : ∃ res st',
    VG_demangle uninit_x cxx_test true true true
      (Some (lit "_vgw00000ZU_libcZdsoZa__Znwm")) state_init = Ret (res, st')).
  { do 2 eexists. vm_compute. reflexivity. }
  destruct E as (res & st' & E). exists res, st'. split; [exact E|].
  exact (VG_demangle_result_pointer uninit_x cxx_test true true true
           (Some (lit "_vgw00000ZU_libcZdsoZa__Znwm")) state_init st' res E).
Defined.

(* --------------------------------------------------------------------- *)
(** ** The Rust stage and the length of every output *)
(* --------------------------------------------------------------------- *)

(** C4. [rust_is_mangled] always answers, and it answers True exactly for
    the strings that end with [::h] and sixteen lowercase hexadecimal digits
    using between 5 and 15 distinct values, after a non-empty part made of
    the characters a-z, A-Z, 0-9, [_], [:], [.] and of recognised [$...$]
    tokens, without three dots in a row.  In particular the answer is False
    when the sixteen digits use fewer than 5 or more than 15 values. *)
Theorem rust_is_mangled_iff (m : list HChar) :
  (∃ b, rust_is_mangled (Some m) = Ret b)
  ∧ (rust_is_mangled (Some m) = Ret true <-> Spec.looks_mangled (cstr m))
  ∧ (∀ p hex,
        cstr m = p ++ lit "::h" ++ hex -> length hex = 16 ->
        Spec.distinct_values hex < 5 ∨ 15 < Spec.distinct_values hex ->
        rust_is_mangled (Some m) = Ret false).
Proof.
  split; [apply rust_is_mangled_total|]. split; [apply rust_is_mangled_spec|].
  intros p hex Ec Hl Hd.
  destruct (rust_is_mangled_total (Some m)) as [[|] E]; [|done].
  exfalso. apply rust_is_mangled_spec in E
    as (p' & hex' & Ec' & _ & Hl' & _ & Hd' & _).
  rewrite Ec in Ec'. rewrite !app_assoc in Ec'.
  apply app_inj_2 in Ec' as [_ <-]; [lia|congruence].
Qed.

(** The hash of the specification's example, sixteen times the digit [a],
    is refused. *)
Lemma rust_is_mangled_degenerate_hash :
  rust_is_mangled (Some (lit "foo::haaaaaaaaaaaaaaaa")) = Ret false.
Proof. reflexivity. Qed.

(** C9.  The decoded output is never longer than the input.  In
    [VG_(maybe_Z_demangle)] no store leaves the buffers of [strlen(sym)+1]
    bytes, and the decoded soname and function name are at most as long as
    [sym].  In [rust_demangle_sym], on a string at least as long as the
    hash, as every symbol that [rust_is_mangled] accepts is, no store leaves
    the block and the final [out] is at most [never_after], so that the
    assertion holds; the output is NUL-terminated and shorter than the
    input.  And no call of [VG_(demangle)] on a string ends in that
    assertion or in a store outside a block. *)
Theorem decoded_output_fits :
  (∀ uninit sym (so isWrap eclassTag eclassPrio : bool) s o,
      statics_wf s ->
      match VG_maybe_Z_demangle uninit sym so isWrap eclassTag eclassPrio s o with
      | Ret (_, s', _) =>
          length (cstr (sobuf s')) <= strlen sym
          ∧ length (cstr (fnbuf s')) <= strlen sym
          ∧ strlen sym + 1 <= buf_len s'
          ∧ length (sobuf s') = buf_len s' ∧ length (fnbuf s') = buf_len s'
      | Abort w => w = A_VG_Z_prefix
      | Trap => False
      | OutOfFuel => False
      end)
  ∧ (∀ m,
      hash_prefix_len + hash_len <= strlen m ->
      ∃ b,
        rust_demangle_sym (Some m) = Ret (Some b)
        ∧ length b = length m
        ∧ b !! length (cstr b) = Some NUL
        ∧ length (cstr b) < strlen m)
  ∧ (∀ uninit cplus_demangle clo_demangle (do_cxx do_z : bool) sym st,
      state_wf st ->
      match VG_demangle uninit cplus_demangle clo_demangle do_cxx do_z
              (Some sym) st with
      | Ret (_, st') => state_wf st'
      | Abort w => w = A_VG_Z_prefix
      | Trap => False
      | OutOfFuel => False
      end).
Proof.
  split; [|split].
  - intros uninit sym so isWrap eclassTag eclassPrio s o Hwf.
    pose proof (maybe_Z_demangle_bounded uninit sym so isWrap eclassTag
                  eclassPrio s o Hwf) as H.
    destruct (VG_maybe_Z_demangle _ _ _ _ _ _ _ _) as [[[b s'] o']|w| |];
      try done.
    destruct H as ([H1 H2] & H3 & H4 & H5). repeat split; try done; lia.
  - intros m H.
    destruct (rust_demangle_sym_safe m H) as (b & o & E & Hl & Hb & Ho).
    exists b. rewrite length_cstr.
    pose proof (strlen_lookup_NUL b o Hb) as Hs.
    pose proof (strlen_le m) as Hm.
    split; [done|]. split; [done|]. split; [|lia].
    apply char_at_Some_NUL; [apply char_at_strlen|lia].
  - intros uninit cplus_demangle clo_demangle do_cxx do_z sym st Hwf.
    by apply VG_demangle_outcome.
Qed.

Lemma decoded_output_fits_witness :
  (match VG_maybe_Z_demangle uninit_x (lit "_vgw12345ZZ_libcZdsoZa_opZpZp")
           true true true true statics_init outs_blank with
   | Ret (_, s', _) =>
       length (cstr (sobuf s')) <= strlen (lit "_vgw12345ZZ_libcZdsoZa_opZpZp")
       ∧ length (cstr (fnbuf s')) <= strlen (lit "_vgw12345ZZ_libcZdsoZa_opZpZp")
       ∧ strlen (lit "_vgw12345ZZ_libcZdsoZa_opZpZp") + 1 <= buf_len s'
       ∧ length (sobuf s') = buf_len s' ∧ length (fnbuf s') = buf_len s'
   | Abort w => w = A_VG_Z_prefix
   | Trap => False
   | OutOfFuel => False
   end)
  ∧ (∃ b,
      rust_demangle_sym
        (Some (lit "core..fmt..Write::write_str::h0123456789abcde0"))
      = Ret (Some b)
      ∧ length b = length (lit "core..fmt..Write::write_str::h0123456789abcde0")
      ∧ b !! length (cstr b) = Some NUL
      ∧ length (cstr b)
        < strlen (lit "core..fmt..Write::write_str::h0123456789abcde0"))
  ∧ (match VG_demangle uninit_x cxx_test true true true
             (Some (lit "_Zrust")) state_init with
     | Ret (_, st') => state_wf st'
     | Abort w => w = A_VG_Z_prefix
     | Trap => False
     | OutOfFuel => False
     end).
Proof.
  split; [|split].
  - exact (proj1 decoded_output_fits uninit_x
             (lit "_vgw12345ZZ_libcZdsoZa_opZpZp") true true true true
             statics_init outs_blank statics_init_wf).
  - refine (proj1 (proj2 decoded_output_fits)
              (lit "core..fmt..Write::write_str::h0123456789abcde0") _).
    vm_compute. lia.
  - exact (proj2 (proj2 decoded_output_fits) uninit_x cxx_test true true true
             (lit "_Zrust") state_init statics_init_wf).
Defined.

(** C10. On a non-NULL symbol that [rust_is_mangled] accepts, the scan of
    [rust_demangle_sym] ends by [in] reaching [end], never by [goto fail],
    and the output holds no [?]. *)
Theorem rust_demangle_never_fails (m : list HChar) :
  rust_is_mangled (Some m) = Ret true ->
  ∃ st b,
    rust_demangle_scan m = Ret (S_done, st)
    ∧ rust_demangle_sym (Some m) = Ret (Some b)
    ∧ "?" ∉ cstr b.
Proof.
  intros H.
  destruct (rust_demangle_sym_accepted m H)
    as (st & b & E1 & E2 & _ & _ & _ & _ & _ & _ & Hg).
  exists st, b. split; [done|]. split; [done|]. by apply good_no_NUL.
Qed.

Lemma rust_demangle_never_fails_witness :
  ∃ st b,
    rust_demangle_scan
      (lit "_$LT$std..sys..fd..FileDesc$u20$as$u20$core..ops..Drop$GT$::drop::hc68340e1baa4987a")
    = Ret (S_done, st)
    ∧ rust_demangle_sym
        (Some (lit "_$LT$std..sys..fd..FileDesc$u20$as$u20$core..ops..Drop$GT$::drop::hc68340e1baa4987a"))
      = Ret (Some b)
    ∧ "?" ∉ cstr b.
Proof.
  refine (rust_demangle_never_fails
            (lit "_$LT$std..sys..fd..FileDesc$u20$as$u20$core..ops..Drop$GT$::drop::hc68340e1baa4987a") _).
  reflexivity.
Defined.

(* --------------------------------------------------------------------- *)
(** ** Further properties of the Z-decoder *)
(* --------------------------------------------------------------------- *)

Local Arguments cstr : simpl never.

Lemma z_scan_encode_char us c r :
  c ≠ NUL ->
  z_scan us (z_encode_char c ++ r) = (c :: (z_scan us r).1, (z_scan us r).2).
Proof.
  intros Hc. unfold z_encode_char.
  repeat match goal with
         | |- context [Ascii.eqb c ?x] =>
             destruct (Ascii.eqb_spec c x) as [->|?];
             [cbn; rewrite andb_false_r; by destruct (z_scan us r)|]
         end.
  cbn.
  assert (us && (c =? "_")%char = false) as ->.
  { destruct us; [|done]. simpl. by apply Ascii.eqb_neq. }
  destruct (Ascii.eqb_spec c NUL); [done|].
  destruct (Ascii.eqb_spec c "Z"); [done|]. simpl.
  by destruct (z_scan us r).
Qed.

Lemma z_scan_encode us s r :
  NUL ∉ s ->
  z_scan us (z_encode s ++ r) = (s ++ (z_scan us r).1, (z_scan us r).2).
Proof.
  induction s as [|c s IH]; intros Hn; simpl.
  { by destruct (z_scan us r). }
  apply not_elem_of_cons in Hn as [Hc Hn].
  rewrite <- app_assoc, z_scan_encode_char by done.
  by rewrite IH.
Qed.

Lemma z_encode_char_no_underscore c : "_" ∉ z_encode_char c.
Proof.
  unfold z_encode_char.
  repeat match goal with
         | |- context [Ascii.eqb c ?x] =>
             destruct (Ascii.eqb_spec c x) as [->|?]; [compute_done|]
         end.
  apply not_elem_of_cons. split; [congruence|apply not_elem_of_nil].
Qed.

Lemma z_encode_no_underscore s : "_" ∉ z_encode s.
Proof.
  induction s as [|c s IH]; simpl; [apply not_elem_of_nil|].
  rewrite elem_of_app. intros [H|H]; [by apply z_encode_char_no_underscore in H|done].
Qed.

Lemma char_at_app_hdr (hdr body : list HChar) i :
  i < length hdr -> char_at (hdr ++ body) i = char_at hdr i.
Proof. intros H. unfold char_at. by rewrite lookup_app_l. Qed.

Lemma char_at_app_body (hdr body : list HChar) i :
  char_at (hdr ++ body) (length hdr + i) = char_at body i.
Proof.
  unfold char_at. rewrite lookup_app_r by lia.
  by replace (length hdr + i - length hdr) with i by lia.
Qed.

Lemma valid_app (hdr body : list HChar) :
  length hdr = 12 -> valid (hdr ++ body) = valid hdr.
Proof.
  intros H. unfold valid, header_valid.
  by rewrite !char_at_app_hdr by lia.
Qed.

Lemma is_VG_Z_prefixed_app (hdr body : list HChar) :
  length hdr = 12 ->
  is_VG_Z_prefixed (hdr ++ body) = true -> ∃ r, body = lit "VG_Z_" ++ r.
Proof.
  intros H. unfold is_VG_Z_prefixed.
  pose proof (char_at_app_body hdr body 0) as E0.
  pose proof (char_at_app_body hdr body 1) as E1.
  pose proof (char_at_app_body hdr body 2) as E2.
  pose proof (char_at_app_body hdr body 3) as E3.
  pose proof (char_at_app_body hdr body 4) as E4.
  rewrite H in E0, E1, E2, E3, E4. cbn [Nat.add] in E0, E1, E2, E3, E4.
  rewrite E0, E1, E2, E3, E4.
  rewrite !andb_true_iff, !Ascii.eqb_eq.
  intros ((((H0 & H1) & H2) & H3) & H4).
  do 5 (destruct body as [|? body]; [discriminate|]).
  cbn in H0, H1, H2, H3, H4. subst. by exists body.
Qed.

Lemma encoded_fields_not_prefixed (E F : list HChar) :
  "_" ∉ E -> "_" ∉ F -> ¬ ∃ r, E ++ "_" :: F = lit "VG_Z_" ++ r.
Proof.
  intros HE HF [r H].
  destruct E as [|e1 [|e2 [|e3 E]]]; simpl in H.
  - discriminate.
  - discriminate.
  - inversion H; subst. apply HF. set_solver.
  - inversion H; subst. apply HE. set_solver.
Qed.

Lemma cstr_cons c (p : list HChar) : c ≠ NUL -> cstr (c :: p) = c :: cstr p.
Proof. intros H. unfold cstr. simpl. by destruct (Ascii.eqb_spec c NUL). Qed.

Lemma cstr_nil_NUL (p : list HChar) : cstr (NUL :: p) = [].
Proof. done. Qed.

(** What the pure scan has read when it does not end on an unknown selector. *)
Lemma z_scan_inv us : ∀ n p, length p <= n ->
  match (z_scan us p).2 with
  | E_delim q =>
      ∃ enc, us = true ∧ p = enc ++ q ∧ (NUL ∉ enc) ∧ ("_" ∉ enc)
             ∧ Spec.z_decoded enc = Some (z_scan us p).1
  | E_nul => ∃ enc, enc = cstr p ∧ Spec.z_decoded enc = Some (z_scan us p).1
  | E_bad => True
  end.
Proof.
  induction n as [|n IH]; intros p Hp.
  { destruct p; simpl in *; [by exists []|lia]. }
  destruct p as [|c p1]; [by exists []|]. simpl in Hp. simpl.
  destruct (us && (c =? "_")%char) eqn:Hus; simpl.
  { apply andb_true_iff in Hus as [-> _].
    exists []. split; [done|]. split; [done|]. split; [apply not_elem_of_nil|].
    split; [apply not_elem_of_nil|done]. }
  destruct (Ascii.eqb_spec c NUL) as [->|Hc]; simpl; [by exists []|].
  destruct (Ascii.eqb_spec c "Z") as [->|HZ]; simpl.
  - destruct p1 as [|d p2]; simpl; [done|].
    destruct (z_escape d) as [ch|] eqn:Hd; simpl; [|done].
    destruct (z_escape_not_NUL _ _ Hd) as [Hch Hd'].
    specialize (IH p2 ltac:(simpl in Hp; lia)).
    destruct (z_scan us p2) as [e x]; simpl in *.
    destruct x as [q| |]; [| |done].
    + destruct IH as (enc & -> & -> & H1 & H2 & H3).
      exists ("Z" :: d :: enc). split; [done|]. split; [done|].
      split; [rewrite !not_elem_of_cons; by repeat split|].
      split.
      { rewrite !not_elem_of_cons. repeat split; [done| |done].
        intros <-. discriminate Hd. }
      simpl. rewrite table_char_z_escape, Hd, H3. done.
    + destruct IH as (enc & -> & H3).
      exists ("Z" :: d :: cstr p2).
      split; [symmetry; rewrite !cstr_cons by done; done|].
      simpl. rewrite table_char_z_escape, Hd, H3. done.
  - specialize (IH p1 ltac:(lia)).
    destruct (z_scan us p1) as [e x]; simpl in *.
    destruct x as [q| |]; [| |done].
    + destruct IH as (enc & -> & -> & H1 & H2 & H3).
      exists (c :: enc). split; [done|]. split; [done|].
      split; [rewrite !not_elem_of_cons; by split|].
      split.
      { rewrite !not_elem_of_cons. split; [|done].
        intros <-. by rewrite Ascii.eqb_refl in Hus. }
      simpl. destruct (decide (c = "Z")); [done|]. by rewrite H3.
    + destruct IH as (enc & -> & H3).
      exists (c :: cstr p1). split; [symmetry; by apply cstr_cons|].
      simpl. destruct (decide (c = "Z")); [done|]. by rewrite H3.
Qed.

Lemma bind_Ret_inv {A B} (m : outcome A) (k : A -> outcome B) r :
  bind m k = Ret r -> ∃ a, m = Ret a ∧ k a = Ret r.
Proof. destruct m; simpl; try discriminate. intros H. by eexists. Qed.

Section ZDecoderFacts.
Variable uninit : nat -> HChar.

(** What the decoder finds in an accepted header followed by two encoded
    names. *)
Lemma encoded_symbol_scan (hdr soname fnname : list HChar) :
  length hdr = 12 -> valid hdr = true -> char_at hdr 10 = "Z" ->
  NUL ∉ soname -> NUL ∉ fnname ->
  let sym := hdr ++ z_encode soname ++ "_" :: z_encode fnname in
  valid sym = true ∧ is_VG_Z_prefixed sym = false
  ∧ z_soname sym = soname ∧ z_fnname sym = (fnname, true).
Proof.
  intros Hl Hv Hk Hns Hnf sym.
  assert (Hvs : valid sym = true) by (subst sym; by rewrite valid_app).
  split; [done|]. split.
  { destruct (is_VG_Z_prefixed sym) eqn:Hp; [|done].
    apply is_VG_Z_prefixed_app in Hp; [|done].
    by apply encoded_fields_not_prefixed in Hp; try apply z_encode_no_underscore. }
  assert (Hd : drop 12 sym = z_encode soname ++ "_" :: z_encode fnname).
  { subst sym. rewrite <- Hl. by rewrite drop_app_length. }
  assert (Hk' : char_at sym 10 = "Z")
    by (subst sym; rewrite char_at_app_hdr by lia; done).
  unfold z_fnname, z_soname. rewrite Hd, Hk'.
  rewrite (z_scan_encode true _ _ Hns). cbn.
  change (@skipn ascii 0 (z_encode fnname)) with (z_encode fnname).
  rewrite <- (app_nil_r (z_encode fnname)).
  rewrite (z_scan_encode false _ _ Hnf). cbn.
  by rewrite !app_nil_r.
Qed.

(** X1.  Round trip.  Take any soname and any function name without NUL
    bytes, encode each with the escape pairs of the decoder's [switch], and
    put them, separated by [_], after any twelve-byte header that the
    decoder accepts and that announces an encoded function name.
    [VG_(maybe_Z_demangle)] returns True on the result and its buffers hold
    the two names again. *)
Theorem maybe_Z_demangle_round_trip
    (so isWrap eclassTag eclassPrio : bool) (s : statics) (o : outs)
    (hdr soname fnname : list HChar) :
  statics_wf s ->
  length hdr = 12 -> valid hdr = true -> char_at hdr 10 = "Z" ->
  NUL ∉ soname -> NUL ∉ fnname ->
  ∃ s' o',
    VG_maybe_Z_demangle uninit
      (hdr ++ z_encode soname ++ "_" :: z_encode fnname)
      so isWrap eclassTag eclassPrio s o
    = Ret (true, s', o')
    ∧ cstr (fnbuf s') = fnname
    ∧ (so = true -> cstr (sobuf s') = soname).
Proof.
  intros Hwf Hl Hv Hk Hns Hnf.
  destruct (encoded_symbol_scan hdr soname fnname Hl Hv Hk Hns Hnf)
    as (Hvs & Hp & Hso & Hfn).
  pose proof (VG_maybe_Z_demangle_char uninit
                (hdr ++ z_encode soname ++ "_" :: z_encode fnname)
                so isWrap eclassTag eclassPrio s o Hwf) as Hc.
  rewrite Hvs, Hp, Hso, Hfn in Hc. destruct Hc as (s' & E & _ & _ & Es & Ef).
  exists s', (outs_after so isWrap eclassTag eclassPrio
                (hdr ++ z_encode soname ++ "_" :: z_encode fnname) o).
  split; [exact E|]. split; [done|]. intros ->. done.
Qed.

(** X2.  Completeness of the grammar.  When [VG_(maybe_Z_demangle)]
    returns True the symbol has a header the decoder accepts, and what
    follows the header is an encoded soname without [_] or NUL in which
    every [Z] is followed by a selector of the [switch], then the delimiter
    [_], then the function name; the buffers hold the decoding of the
    soname and, when the eleventh byte is [Z], the decoding of the function
    name, which then has no unknown selector either, its copy otherwise. *)
Theorem maybe_Z_demangle_true_only_on_encodings
    (so isWrap eclassTag eclassPrio : bool) (s s' : statics) (o o' : outs)
    (sym : list HChar) :
  statics_wf s ->
  VG_maybe_Z_demangle uninit sym so isWrap eclassTag eclassPrio s o
  = Ret (true, s', o') ->
  valid sym = true
  ∧ ∃ enc_so tail dec_so,
      drop 12 sym = enc_so ++ "_" :: tail
      ∧ (NUL ∉ enc_so) ∧ ("_" ∉ enc_so)
      ∧ Spec.z_decoded enc_so = Some dec_so
      ∧ (so = true -> cstr (sobuf s') = dec_so)
      ∧ (if (char_at sym 10 =? "Z")%char
         then Spec.z_decoded (cstr tail) = Some (cstr (fnbuf s'))
         else cstr tail = cstr (fnbuf s')).
Proof.
  intros Hwf E.
  pose proof (VG_maybe_Z_demangle_char uninit sym so isWrap eclassTag eclassPrio
                s o Hwf) as Hc.
  destruct (valid sym) eqn:Hv.
  2:{ destruct Hc as (s1 & E1 & _). rewrite E1 in E. discriminate. }
  split; [done|].
  destruct (is_VG_Z_prefixed sym); [rewrite Hc in E; discriminate|].
  destruct Hc as (s1 & E1 & _ & _ & Hso & Hfn).
  rewrite E1 in E. injection E as Eb <- _.
  unfold z_soname, z_fnname in *.
  pose proof (z_scan_inv true _ (drop 12 sym) (Nat.le_refl _)) as Hi.
  pose proof (z_scan_facts true _ (drop 12 sym) (Nat.le_refl _)) as (_ & _ & Hd).
  destruct (z_scan true (drop 12 sym)) as [eso xso]. simpl in *.
  destruct xso as [q| |]; [|discriminate Eb|discriminate Eb].
  destruct (Hd q eq_refl) as [_ Hq].
  destruct q as [|c tail]; [discriminate Hq|].
  unfold deref in Hq. rewrite char_at_cons_0 in Hq. subst c.
  destruct Hi as (enc & _ & Hdrop & H1 & H2 & H3).
  exists enc, tail, eso. split; [done|]. split; [done|]. split; [done|].
  split; [done|]. split; [by intros ->|].
  change (drop 1 ("_" :: tail)) with tail in *.
  destruct (char_at sym 10 =? "Z")%char.
  - pose proof (z_scan_inv false _ tail (Nat.le_refl _)) as Hi2.
    pose proof (z_scan_facts false _ tail (Nat.le_refl _)) as (_ & _ & Hd2).
    destruct (z_scan false tail) as [efn xfn]. simpl in *.
    destruct xfn as [q2| |]; [by destruct (Hd2 q2 eq_refl)| |discriminate Eb].
    destruct Hi2 as (enc2 & -> & Hi2). by rewrite Hfn.
  - simpl in Hfn. done.
Qed.

(** X3.  The result depends on the symbol alone.  Two calls on the same
    symbol, whatever the earlier calls have left in the static buffers,
    whatever fresh memory holds and whichever of the optional OUT pointers
    are NULL, end the same way: both stop on the same assertion, or both
    return the same Bool with the same function name in [fnbuf] and,
    through the pointers that are not NULL in both, the same soname and,
    when the header is accepted, the same [isWrap], [eclassTag] and
    [eclassPrio]. *)
Theorem maybe_Z_demangle_depends_on_sym_only
    (uninit' : nat -> HChar)
    (so isWrap eclassTag eclassPrio so' isWrap' eclassTag' eclassPrio' : bool)
    (s1 s2 : statics) (o1 o2 : outs) (sym : list HChar) :
  statics_wf s1 -> statics_wf s2 ->
  match VG_maybe_Z_demangle uninit sym so isWrap eclassTag eclassPrio s1 o1,
        VG_maybe_Z_demangle uninit' sym so' isWrap' eclassTag' eclassPrio' s2 o2
  with
  | Ret (b1, s1', o1'), Ret (b2, s2', o2') =>
      b1 = b2
      ∧ cstr (fnbuf s1') = cstr (fnbuf s2')
      ∧ (so = true -> so' = true -> cstr (sobuf s1') = cstr (sobuf s2'))
      ∧ (valid sym = true ->
           (isWrap = true -> isWrap' = true -> isWrap_v o1' = isWrap_v o2')
           ∧ (eclassTag = true -> eclassTag' = true ->
                eclassTag_v o1' = eclassTag_v o2')
           ∧ (eclassPrio = true -> eclassPrio' = true ->
                eclassPrio_v o1' = eclassPrio_v o2'))
  | Abort w1, Abort w2 => w1 = w2
  | _, _ => False
  end.
Proof.
  intros Hwf1 Hwf2.
  pose proof (VG_maybe_Z_demangle_char uninit sym so isWrap eclassTag eclassPrio
                s1 o1 Hwf1) as Hc1.
  pose proof (VG_maybe_Z_demangle_char uninit' sym so' isWrap' eclassTag'
                eclassPrio' s2 o2 Hwf2) as Hc2.
  pose proof (outs_after_fields so isWrap eclassTag eclassPrio sym o1)
    as (_ & _ & F3 & F4 & F5).
  pose proof (outs_after_fields so' isWrap' eclassTag' eclassPrio' sym o2)
    as (_ & _ & G3 & G4 & G5).
  destruct (valid sym) eqn:Hv.
  - destruct (is_VG_Z_prefixed sym); [by rewrite Hc1, Hc2|].
    destruct Hc1 as (s1' & -> & _ & _ & Hso1 & Hfn1).
    destruct Hc2 as (s2' & -> & _ & _ & Hso2 & Hfn2).
    split; [done|]. split; [congruence|].
    split; [intros -> ->; congruence|].
    intros _. split; [|split]; intros -> ->; simpl in *; congruence.
  - destruct Hc1 as (s1' & -> & _ & _ & Hso1 & Hfn1).
    destruct Hc2 as (s2' & -> & _ & _ & Hso2 & Hfn2).
    split; [done|]. split; [congruence|].
    split; [intros _ _; congruence|]. done.
Qed.

Lemma out_label_buf_len so error len sb soi fb fni o b s' o' :
  out_label so error len sb soi fb fni o = Ret (b, s', o') -> buf_len s' = len.
Proof.
  unfold out_label. intros H.
  apply bind_Ret_inv in H as ([sb' ?] & _ & H).
  apply bind_Ret_inv in H as ([fb' ?] & _ & H).
  by injection H as _ <- _.
Qed.

(** X4.  The static buffers only grow.  After a call that returns,
    [buf_len] is the larger of its old value and [strlen(sym) + 1]: the
    buffers are enlarged exactly when the symbol and its terminator do not
    fit, and are never made smaller. *)
Theorem maybe_Z_demangle_buffers_only_grow
    (so isWrap eclassTag eclassPrio b : bool) (s s' : statics) (o o' : outs)
    (sym : list HChar) :
  VG_maybe_Z_demangle uninit sym so isWrap eclassTag eclassPrio s o
  = Ret (b, s', o') ->
  buf_len s' = Nat.max (buf_len s) (strlen sym + 1).
Proof.
  unfold VG_maybe_Z_demangle.
  set (len := strlen sym + 1).
  set (s1 := if buf_len s <? len then _ else s).
  assert (Hs1 : buf_len s1 = Nat.max (buf_len s) len).
  { subst s1. destruct (Nat.ltb_spec (buf_len s) len); simpl; lia. }
  rewrite <- Hs1. clearbody s1. clear Hs1.
  intros H.
  apply bind_Ret_inv in H as (fb & _ & H).
  apply bind_Ret_inv in H as (sb & _ & H).
  destruct (negb (valid sym)); [by injection H as _ <- _|].
  apply bind_Ret_inv in H as (o1 & _ & H).
  apply bind_Ret_inv in H as (o2 & _ & H).
  destruct (is_VG_Z_prefixed sym); [discriminate|].
  apply bind_Ret_inv in H as ([[ex sb'] soi] & _ & H).
  destruct ex as [p|].
  - destruct (negb _); [discriminate|].
    destruct (negb _).
    + apply bind_Ret_inv in H as ([fb' fni] & _ & H).
      by apply out_label_buf_len in H.
    + apply bind_Ret_inv in H as ([[err fb'] fni] & _ & H).
      by apply out_label_buf_len in H.
  - by apply out_label_buf_len in H.
Qed.

(** X5.  The decoded names are strictly shorter than the symbol.  When
    [VG_(maybe_Z_demangle)] returns True, the soname and the function name
    it has written, together with the twelve bytes of the header and the
    delimiter, are at most as long as the symbol. *)
Theorem maybe_Z_demangle_names_shorter
    (so isWrap eclassTag eclassPrio : bool) (s s' : statics) (o o' : outs)
    (sym : list HChar) :
  statics_wf s ->
  VG_maybe_Z_demangle uninit sym so isWrap eclassTag eclassPrio s o
  = Ret (true, s', o') ->
  length (cstr (sobuf s')) + length (cstr (fnbuf s')) + 13 <= strlen sym.
Proof.
  intros Hwf E.
  pose proof (VG_maybe_Z_demangle_char uninit sym so isWrap eclassTag eclassPrio
                s o Hwf) as Hc.
  destruct (valid sym) eqn:Hv.
  2:{ destruct Hc as (s1 & E1 & _). rewrite E1 in E. discriminate. }
  destruct (is_VG_Z_prefixed sym); [rewrite Hc in E; discriminate|].
  destruct Hc as (s1 & E1 & _ & _ & Hso & Hfn).
  rewrite E1 in E. injection E as Eb <- _.
  pose proof (valid_header _ Hv) as Hh.
  pose proof (strlen_drop_prefix 12 sym (header_valid_no_NUL _ Hh)) as Hdrop.
  rewrite Hso, Hfn. unfold z_soname, z_fnname in *.
  pose proof (z_scan_facts true _ (drop 12 sym) (Nat.le_refl _)) as (_ & Hb1 & Hd1).
  destruct (z_scan true (drop 12 sym)) as [eso xso]. simpl in *.
  destruct xso as [q| |]; [|discriminate Eb|discriminate Eb].
  destruct (Hd1 q eq_refl) as [_ Hq].
  destruct q as [|c q']; [discriminate Hq|].
  unfold deref in Hq. rewrite char_at_cons_0 in Hq. subst c.
  simpl in Hb1. change (drop 1 ("_" :: q')) with q' in *.
  assert (Hso' : length (if so then eso else []) <= length eso)
    by (destruct so; simpl; lia).
  destruct (char_at sym 10 =? "Z")%char.
  - pose proof (z_scan_facts false _ q' (Nat.le_refl _)) as (_ & Hb2 & _).
    destruct (z_scan false q') as [efn xfn]. simpl in *. lia.
  - simpl. rewrite length_cstr. lia.
Qed.

(** X6.  When the call stops and when it returns.  From buffers in
    order, [VG_(maybe_Z_demangle)] stops on the assertion about the
    [VG_Z_] prefix exactly when the header is accepted and the bytes 12 to
    16 of the symbol are [VG_Z_]; on every other symbol it returns. *)
Theorem maybe_Z_demangle_stops_exactly_on_VG_Z
    (so isWrap eclassTag eclassPrio : bool) (s : statics) (o : outs)
    (sym : list HChar) :
  statics_wf s ->
  (VG_maybe_Z_demangle uninit sym so isWrap eclassTag eclassPrio s o
   = Abort A_VG_Z_prefix
   <-> valid sym = true ∧ is_VG_Z_prefixed sym = true)
  ∧ (¬ (valid sym = true ∧ is_VG_Z_prefixed sym = true) ->
     ∃ b s' o',
       VG_maybe_Z_demangle uninit sym so isWrap eclassTag eclassPrio s o
       = Ret (b, s', o')).
Proof.
  intros Hwf.
  pose proof (VG_maybe_Z_demangle_char uninit sym so isWrap eclassTag eclassPrio
                s o Hwf) as Hc.
  destruct (valid sym).
  - destruct (is_VG_Z_prefixed sym).
    + split; [by split|]. intros H. by destruct H.
    + destruct Hc as (s' & -> & _). split.
      * split; [discriminate|]. by intros [_ ?].
      * intros _. by eexists _, _, _.
  - destruct Hc as (s' & -> & _). split.
    + split; [discriminate|]. by intros [? _].
    + intros _. by eexists _, _, _.
Qed.

End ZDecoderFacts.

Lemma maybe_Z_demangle_round_trip_witness :
  ∃ s' o',
    VG_maybe_Z_demangle uninit_x
      (lit "_vgw00042ZZ_" ++ z_encode (lit "libc.so.*") ++ "_"
         :: z_encode (lit "operator new(unsigned long)"))
      true true true true statics_init outs_blank
    = Ret (true, s', o')
    ∧ cstr (fnbuf s') = lit "operator new(unsigned long)"
    ∧ (true = true -> cstr (sobuf s') = lit "libc.so.*").
Proof.
  apply (maybe_Z_demangle_round_trip uninit_x true true true true statics_init
           outs_blank (lit "_vgw00042ZZ_")).
  - apply statics_init_wf.
  - reflexivity.
  - reflexivity.
  - reflexivity.
  - compute_done.
  - compute_done.
Defined.

Lemma maybe_Z_demangle_true_only_on_encodings_witness :
  ∃ s' o',
    VG_maybe_Z_demangle uninit_x (lit "_vgr10010ZU_libcZdsoZa_malloc")
      true false false false statics_init outs_blank = Ret (true, s', o')
    ∧ valid (lit "_vgr10010ZU_libcZdsoZa_malloc") = true
    ∧ ∃ enc_so tail dec_so,
        drop 12 (lit "_vgr10010ZU_libcZdsoZa_malloc") = enc_so ++ "_" :: tail
        ∧ (NUL ∉ enc_so) ∧ ("_" ∉ enc_so)
        ∧ Spec.z_decoded enc_so = Some dec_so
        ∧ (true = true -> cstr (sobuf s') = dec_so)
        ∧ (if (char_at (lit "_vgr10010ZU_libcZdsoZa_malloc") 10 =? "Z")%char
           then Spec.z_decoded (cstr tail) = Some (cstr (fnbuf s'))
           else cstr tail = cstr (fnbuf s')).
Proof.
  assert (E : ∃ s' o',
    VG_maybe_Z_demangle uninit_x (lit "_vgr10010ZU_libcZdsoZa_malloc")
      true false false false statics_init outs_blank = Ret (true, s', o')).
  { do 2 eexists. vm_compute. reflexivity. }
  destruct E as (s' & o' & E). exists s', o'. split; [exact E|].
  exact (maybe_Z_demangle_true_only_on_encodings uninit_x true false false false
           statics_init s' outs_blank o' _ statics_init_wf E).
Defined.

Lemma maybe_Z_demangle_depends_on_sym_only_witness :
  match VG_maybe_Z_demangle uninit_x (lit "_vgw12345ZZ_libcZdsoZa_opZpZp")
          true true true true statics_init outs_blank,
        VG_maybe_Z_demangle (fun _ => "y") (lit "_vgw12345ZZ_libcZdsoZa_opZpZp")
          true false true false statics_init outs_blank
  with
  | Ret (b1, s1', o1'), Ret (b2, s2', o2') =>
      b1 = b2
      ∧ cstr (fnbuf s1') = cstr (fnbuf s2')
      ∧ (true = true -> true = true -> cstr (sobuf s1') = cstr (sobuf s2'))
      ∧ (valid (lit "_vgw12345ZZ_libcZdsoZa_opZpZp") = true ->
           (true = true -> false = true -> isWrap_v o1' = isWrap_v o2')
           ∧ (true = true -> true = true -> eclassTag_v o1' = eclassTag_v o2')
           ∧ (true = true -> false = true -> eclassPrio_v o1' = eclassPrio_v o2'))
  | Abort w1, Abort w2 => w1 = w2
  | _, _ => False
  end.
Proof.
  exact (maybe_Z_demangle_depends_on_sym_only uninit_x (fun _ => "y")
           true true true true true false true false
           statics_init statics_init outs_blank outs_blank
           (lit "_vgw12345ZZ_libcZdsoZa_opZpZp") statics_init_wf statics_init_wf).
Defined.

Lemma maybe_Z_demangle_buffers_only_grow_witness :
  ∃ s' o',
    VG_maybe_Z_demangle uninit_x (lit "main") true true true true
      statics_init outs_blank = Ret (false, s', o')
    ∧ buf_len s' = Nat.max (buf_len statics_init) (strlen (lit "main") + 1).
Proof.
  assert (E : ∃ s' o',
    VG_maybe_Z_demangle uninit_x (lit "main") true true true true
      statics_init outs_blank = Ret (false, s', o')).
  { do 2 eexists. vm_compute. reflexivity. }
  destruct E as (s' & o' & E). exists s', o'. split; [exact E|].
  exact (maybe_Z_demangle_buffers_only_grow uninit_x true true true true false
           statics_init s' outs_blank o' _ E).
Defined.

Lemma maybe_Z_demangle_names_shorter_witness :
  ∃ s' o',
    VG_maybe_Z_demangle uninit_x (lit "_vgw12345ZZ_libcZdsoZa_opZpZp")
      true true true true statics_init outs_blank = Ret (true, s', o')
    ∧ length (cstr (sobuf s')) + length (cstr (fnbuf s')) + 13
      <= strlen (lit "_vgw12345ZZ_libcZdsoZa_opZpZp").
Proof.
  assert (E : ∃ s' o',
    VG_maybe_Z_demangle uninit_x (lit "_vgw12345ZZ_libcZdsoZa_opZpZp")
      true true true true statics_init outs_blank = Ret (true, s', o')).
  { do 2 eexists. vm_compute. reflexivity. }
  destruct E as (s' & o' & E). exists s', o'. split; [exact E|].
  exact (maybe_Z_demangle_names_shorter uninit_x true true true true
           statics_init s' outs_blank o' _ statics_init_wf E).
Defined.

Lemma maybe_Z_demangle_stops_exactly_on_VG_Z_witness :
  (VG_maybe_Z_demangle uninit_x (lit "_vgr00000ZU_VG_Z_x") true true true true
     statics_init outs_blank = Abort A_VG_Z_prefix
   <-> valid (lit "_vgr00000ZU_VG_Z_x") = true
       ∧ is_VG_Z_prefixed (lit "_vgr00000ZU_VG_Z_x") = true)
  ∧ (¬ (valid (lit "_vgr00000ZU_VG_Z_x") = true
        ∧ is_VG_Z_prefixed (lit "_vgr00000ZU_VG_Z_x") = true) ->
     ∃ b s' o',
       VG_maybe_Z_demangle uninit_x (lit "_vgr00000ZU_VG_Z_x") true true true
         true statics_init outs_blank = Ret (b, s', o')).
Proof.
  exact (maybe_Z_demangle_stops_exactly_on_VG_Z uninit_x true true true true
           statics_init outs_blank (lit "_vgr00000ZU_VG_Z_x") statics_init_wf).
Defined.

(* --------------------------------------------------------------------- *)
(** ** Further properties of the Rust decoder *)
(* --------------------------------------------------------------------- *)

Lemma store_Ret_inv (m m' : list HChar) i c :
  store m i c = Ret m' -> i < length m ∧ m' = <[i:=c]> m.
Proof.
  unfold store. destruct (Nat.ltb_spec i (length m)); [|discriminate].
  by intros [= <-].
Qed.

Lemma emit_Ret_inv st c n st' :
  emit st c n = Ret st' ->
  out st < length (buf st)
  ∧ st' = {| buf := <[out st := c]> (buf st); in_ := in_ st + n; out := out st + 1 |}.
Proof.
  unfold emit. intros H. apply bind_Ret_inv in H as (b & Hs & H).
  apply store_Ret_inv in Hs as [? ->]. by injection H as <-.
Qed.

Lemma unescape_any_Ret_inv : ∀ tbl st ok st',
  unescape_any st tbl = Ret (ok, st') ->
  if ok then ∃ v, buf st' = <[out st := v]> (buf st) ∧ out st' = out st + 1
  else st' = st.
Proof.
  induction tbl as [|[seq v] tbl IH]; intros st ok st' H.
  { by injection H as <- <-. }
  cbn [unescape_any] in H. unfold unescape in H.
  destruct (negb _).
  - rewrite bind_Ret in H. by apply IH.
  - apply bind_Ret_inv in H as ([ok1 st1] & H1 & H).
    apply bind_Ret_inv in H1 as (b & Hs & H1).
    apply store_Ret_inv in Hs as [_ ->]. injection H1 as <- <-.
    injection H as <- <-. by exists v.
Qed.

(** The scan writes below [out] only: what lies at or after the final [out]
    is as it was. *)
Lemma demangle_loop_frame : ∀ fuel end_ st ex st',
  demangle_loop fuel end_ st = Ret (ex, st') ->
  out st <= out st' ∧ length (buf st') = length (buf st)
  ∧ ∀ i, out st' <= i -> buf st' !! i = buf st !! i.
Proof.
  induction fuel as [|f IH]; intros end_ st ex st' H; [discriminate|].
  rewrite dl_step in H.
  destruct (_ <? _)%Z; [|by injection H as _ <-].
  cbv zeta in H.
  assert (Hstep : ∀ st1 v,
    buf st1 = <[out st := v]> (buf st) -> out st1 = out st + 1 ->
    demangle_loop f end_ st1 = Ret (ex, st') ->
    out st <= out st' ∧ length (buf st') = length (buf st)
    ∧ ∀ i, out st' <= i -> buf st' !! i = buf st !! i).
  { intros st1 v Hb Ho H1. apply IH in H1 as (H1 & H2 & H3).
    rewrite Hb, length_insert in H2. split; [lia|]. split; [done|].
    intros i Hi. rewrite H3 by done. rewrite Hb.
    apply list_lookup_insert_ne. lia. }
  assert (Hone : ∀ c n,
    (do st1 <- emit st c n; demangle_loop f end_ st1) = Ret (ex, st') ->
    out st <= out st' ∧ length (buf st') = length (buf st)
    ∧ ∀ i, out st' <= i -> buf st' !! i = buf st !! i).
  { intros c n H1. apply bind_Ret_inv in H1 as (st1 & He & H1).
    apply emit_Ret_inv in He as [_ ->]. by apply (Hstep _ c) in H1. }
  destruct (_ =? "$")%char.
  { apply bind_Ret_inv in H as ([ok st1] & Hu & H).
    apply unescape_any_Ret_inv in Hu. destruct ok.
    - destruct Hu as (v & Hb & Ho). by apply (Hstep _ v) in H.
    - subst st1. by injection H as _ <-. }
  destruct (_ =? "_")%char.
  { destruct (_ && _); [|by apply Hone in H].
    apply IH in H. simpl in H. done. }
  destruct (_ =? ".")%char.
  { destruct (_ =? ".")%char; [|by apply Hone in H].
    apply bind_Ret_inv in H as (st1 & He1 & H).
    apply emit_Ret_inv in He1 as [_ ->].
    apply bind_Ret_inv in H as (st2 & He2 & H).
    apply emit_Ret_inv in He2 as [_ ->]. cbn [buf in_ out] in H.
    apply IH in H as (H1 & H2 & H3). cbn [buf in_ out] in H1, H2, H3.
    rewrite !length_insert in H2. split; [lia|]. split; [done|].
    intros i Hi. rewrite H3 by done.
    rewrite !list_lookup_insert_ne by lia. done. }
  destruct (_ || _); [by apply Hone in H|].
  by injection H as _ <-.
Qed.

(** The scan over an accepted symbol, with where it leaves [out]. *)
Lemma rust_demangle_scan_accepted m :
  rust_is_mangled (Some m) = Ret true ->
  ∃ st, rust_demangle_scan m = Ret (S_done, st)
    ∧ length (buf st) = length m
    ∧ out st + 19 <= strlen m.
Proof.
  intros H. apply rust_is_mangled_spec in H
    as (p & hex & Ec & Hp & Hl16 & _ & _ & (items & Hit & ->) & _).
  assert (Elen : strlen m = length (concat items) + 19).
  { rewrite <- length_cstr, Ec, !length_app, Hl16. done. }
  assert (Em : m = concat items ++ lit "::h" ++ hex ++ drop (strlen m) m).
  { rewrite (block_split m) at 1. rewrite Ec. by rewrite <- !app_assoc. }
  destruct (demangle_loop_accepts (S (strlen m)) items
              {| buf := m; in_ := 0; out := 0 |}
              (lit "::h" ++ hex ++ drop (strlen m) m)
              (Z.of_nat (strlen m) - Z.of_nat (hash_prefix_len + hash_len))%Z)
    as (st & E & H1 & H2 & H3 & H4 & H5).
  - done.
  - simpl. by rewrite drop_0.
  - done.
  - simpl. unfold hash_prefix_len, hash_len. lia.
  - simpl. lia.
  - simpl. constructor.
  - lia.
  - cbn [buf in_ out] in H1, H2, H3.
    exists st. split; [exact E|]. split; [done|]. lia.
Qed.

(** X7.  The hash is cut off and nothing after it is touched.  On a
    symbol that [rust_is_mangled] accepts, [rust_demangle_sym] leaves a
    string at least 19 bytes shorter than the symbol, the length of [::h]
    and of the hash; the block keeps its size, and its bytes from the
    second byte of [::h] on are as they were. *)
Theorem rust_demangle_sym_cuts_hash (m : list HChar) :
  rust_is_mangled (Some m) = Ret true ->
  ∃ b,
    rust_demangle_sym (Some m) = Ret (Some b)
    ∧ length b = length m
    ∧ length (cstr b) + 19 <= strlen m
    ∧ drop (strlen m - 18) b = drop (strlen m - 18) m.
Proof.
  intros H.
  destruct (rust_demangle_sym_accepted m H)
    as (st & b & E1 & E2 & _ & Eb & Hl & _ & _ & Hc & _).
  destruct (rust_demangle_scan_accepted m H) as (st0 & E0 & _ & Ho).
  rewrite E1 in E0. injection E0 as <-.
  exists b. split; [done|]. split; [done|]. split; [lia|].
  unfold rust_demangle_scan in E1.
  apply demangle_loop_frame in E1 as (_ & _ & Hf). cbn [buf out] in Hf.
  apply list_eq. intros i. rewrite !lookup_drop, Eb.
  rewrite list_lookup_insert_ne by lia. apply Hf. lia.
Qed.

Lemma rust_demangle_sym_cuts_hash_witness :
  ∃ b,
    rust_demangle_sym
      (Some (lit "core..fmt..Write::write_str::h0123456789abcde0"))
    = Ret (Some b)
    ∧ length b = length (lit "core..fmt..Write::write_str::h0123456789abcde0")
    ∧ length (cstr b) + 19
      <= strlen (lit "core..fmt..Write::write_str::h0123456789abcde0")
    ∧ drop (strlen (lit "core..fmt..Write::write_str::h0123456789abcde0") - 18) b
      = drop (strlen (lit "core..fmt..Write::write_str::h0123456789abcde0") - 18)
          (lit "core..fmt..Write::write_str::h0123456789abcde0").
Proof.
  refine (rust_demangle_sym_cuts_hash
            (lit "core..fmt..Write::write_str::h0123456789abcde0") _).
  reflexivity.
Defined.

Lemma tokens_last :
  Forall (fun t => t !! (length t - 1) = Some "$") Spec.rust_tokens.
Proof. repeat constructor. Qed.

Lemma token_last t :
  t ∈ Spec.rust_tokens -> t !! (length t - 1) = Some "$".
Proof. intros H. by apply (proj1 (Forall_forall _ _) tokens_last). Qed.

Lemma unescape_any_token_value st t q :
  t ∈ Spec.rust_tokens ->
  drop (in_ st) (buf st) = t ++ q ->
  out st < length (buf st) ->
  unescape_any st rust_escapes
  = Ret (true, {| buf := <[out st := escape_value t]> (buf st);
                  in_ := in_ st + length t; out := out st + 1 |}).
Proof.
  intros Hin Hd Hlt. rewrite (unescape_any_find _ _ Hlt), Hd.
  unfold Spec.rust_tokens in Hin. rewrite !elem_of_cons in Hin.
  repeat (destruct Hin as [->|Hin]; [reflexivity|]).
  by apply elem_of_nil in Hin.
Qed.

Lemma deref_app_nonempty (l r : list HChar) : l ≠ [] -> deref (l ++ r) = deref l.
Proof. by destruct l. Qed.

Lemma deref_concat_items items r c :
  Forall Spec.item items -> deref r = ":" -> c ≠ ":" -> c ≠ NUL ->
  (deref (concat items ++ r) =? c)%char = (deref (concat items) =? c)%char.
Proof.
  intros Hit Hr Hc Hn. destruct items as [|it items].
  - change (concat [] ++ r) with r. change (concat []) with (@nil ascii).
    rewrite Hr, deref_nil.
    destruct (Ascii.eqb_spec ":" c), (Ascii.eqb_spec NUL c); congruence.
  - apply Forall_cons in Hit as [Hi _]. apply item_nonempty in Hi.
    destruct it; [simpl in Hi; lia|]. done.
Qed.

Lemma take_S_insert (b : list HChar) o v :
  o < length b -> take (o + 1) (<[o:=v]> b) = take o b ++ [v].
Proof.
  intros H. replace (o + 1) with (S o) by lia.
  rewrite (take_S_r _ _ v) by (by apply list_lookup_insert_eq).
  by rewrite take_insert_ge by lia.
Qed.

Lemma char_at_insert (b : list HChar) o v i :
  o < length b ->
  char_at (<[o:=v]> b) i = if decide (o = i) then v else char_at b i.
Proof.
  intros H. unfold char_at. destruct (decide (o = i)) as [->|Hne].
  - by rewrite list_lookup_insert_eq.
  - by rewrite list_lookup_insert_ne.
Qed.

Lemma decode_items_token lag colon it items :
  it ∈ Spec.rust_tokens ->
  decode_items lag colon (it :: items)
  = escape_value it :: decode_items true false items.
Proof.
  intros H. destruct (token_props it H) as (_ & _ & _ & _ & Hl).
  destruct it as [|x [|y it]]; simpl in Hl; [lia|lia|]. done.
Qed.

Lemma decode_items_char lag colon c items :
  decode_items lag colon ([c] :: items)
  = if (c =? "_")%char then
      if colon && (deref (concat items) =? "$")%char
      then decode_items true false items
      else "_" :: decode_items lag false items
    else if (c =? ".")%char then
      match items with
      | _ :: rest' =>
          if (deref (concat items) =? ".")%char
          then ":" :: ":" :: decode_items lag (negb lag) rest'
          else "-" :: decode_items lag false items
      | [] => ["-"]
      end
    else c :: decode_items lag (c =? ":")%char items.
Proof. done. Qed.

Local Arguments decode_items : simpl never.

(** The content of the output: what the scan has written when it ends is
    what it had written before, followed by the decoding of the items. *)
Lemma demangle_loop_decodes : ∀ fuel items st r end_ ex st' lag colon,
  Forall Spec.item items ->
  drop (in_ st) (buf st) = concat items ++ r -> deref r = ":" ->
  end_ = Z.of_nat (in_ st + length (concat items)) ->
  out st <= in_ st ->
  lag = bool_decide (out st < in_ st) ->
  colon = (in_ st =? 0) || (char_at (buf st) (in_ st - 1) =? ":")%char ->
  demangle_loop fuel end_ st = Ret (ex, st') ->
  take (out st') (buf st') = take (out st) (buf st) ++ decode_items lag colon items.
Proof.
  induction fuel as [|f IH];
    intros items st r end_ ex st' lag colon Hit Hd Hr -> Hle Hlag Hcolon H;
    [discriminate|].
  rewrite dl_step in H.
  destruct items as [|it items].
  { simpl in H. rewrite Nat.add_0_r, Z.ltb_irrefl in H. injection H as _ <-.
    by rewrite app_nil_r. }
  apply Forall_cons in Hit as [Hi Hit].
  pose proof (item_nonempty it Hi) as Hne.
  cbn [concat] in *. rewrite length_app in *. rewrite <- app_assoc in Hd.
  destruct (Z.ltb_spec (Z.of_nat (in_ st))
              (Z.of_nat (in_ st + (length it + length (concat items)))));
    [|lia].
  cbv zeta in H.
  assert (Hlt : in_ st < length (buf st)).
  { destruct it as [|x it]; [simpl in Hne; lia|].
    by apply (drop_lt_length _ _ x (it ++ concat items ++ r)). }
  set (e := Z.of_nat (in_ st + (length it + length (concat items)))) in *.
  (* one store of [v] at [out], with [in] advanced over [it] *)
  assert (Hemit : ∀ v lag1 colon1,
    lag1 = bool_decide (out st + 1 < in_ st + length it) ->
    colon1 = (char_at (<[out st := v]> (buf st)) (in_ st + length it - 1) =? ":")%char ->
    demangle_loop f e {| buf := <[out st := v]> (buf st);
                         in_ := in_ st + length it; out := out st + 1 |}
    = Ret (ex, st') ->
    take (out st') (buf st')
    = take (out st) (buf st) ++ v :: decode_items lag1 colon1 items).
  { intros v lag1 colon1 Hl1 Hc1 H1.
    apply (IH items _ r e ex st' lag1 colon1) in H1; cbn [buf in_ out] in *.
    - rewrite H1, take_S_insert by lia. by rewrite <- app_assoc.
    - done.
    - rewrite drop_insert_lt by lia. by apply drop_add_app.
    - done.
    - subst e. f_equal. lia.
    - lia.
    - done.
    - rewrite Hc1. destruct (Nat.eqb_spec (in_ st + length it) 0); [lia|done]. }
  destruct Hi as [(c & Hc & ->)|Hin].
  - (* a plain character *)
    change ([c] ++ concat items ++ r) with (c :: concat items ++ r) in Hd.
    assert (Ec : char_at (buf st) (in_ st) = c)
      by (by rewrite <- deref_drop, Hd).
    assert (En : char_at (buf st) (in_ st + 1) = deref (concat items ++ r)).
    { by rewrite <- char_at_drop, Hd, char_at_cons_S. }
    rewrite Ec, En in H. cbn [length] in Hemit.
    pose proof (plain_char_props c Hc) as (Hdollar & HcN & _).
    destruct (Ascii.eqb_spec c "$"); [done|].
    rewrite decode_items_char.
    assert (Hsame : ∀ v, (v =? ":")%char = (c =? ":")%char ∨ out st < in_ st ->
              (char_at (<[out st := v]> (buf st)) (in_ st + 1 - 1) =? ":")%char
              = (c =? ":")%char).
    { intros v Hv. rewrite char_at_insert by lia.
      replace (in_ st + 1 - 1) with (in_ st) by lia.
      destruct (decide (out st = in_ st)); [|by rewrite Ec].
      destruct Hv; [done|lia]. }
    assert (Hlag1 : lag = bool_decide (out st + 1 < in_ st + 1)).
    { rewrite Hlag. apply bool_decide_ext. lia. }
    destruct (Ascii.eqb_spec c "_") as [->|Hus].
    { rewrite (deref_concat_items items r "$") in H by done.
      rewrite <- Hcolon in H.
      destruct (colon && _).
      - apply (IH items _ r e ex st' true false) in H; cbn [buf in_ out] in *.
        + done.
        + done.
        + by rewrite <- drop_drop, Hd.
        + done.
        + subst e. f_equal. simpl. lia.
        + lia.
        + symmetry. apply bool_decide_eq_true_2. lia.
        + replace (in_ st + 1 - 1) with (in_ st) by lia. rewrite Ec.
          by destruct (Nat.eqb_spec (in_ st + 1) 0); [lia|].
      - apply bind_Ret_inv in H as (st1 & He & H).
        apply emit_Ret_inv in He as [_ ->].
        apply (Hemit "_" lag false) in H; [done|done|].
        rewrite Hsame; [done|by left]. }
    destruct (Ascii.eqb_spec c ".") as [->|Hdot].
    2:{ apply plain_char_cases in Hc.
        destruct (Ascii.eqb_spec c "."); [done|].
        destruct (Ascii.eqb_spec c "_"); [done|].
        simpl in Hc. rewrite orb_false_r in Hc. rewrite Hc in H.
        apply bind_Ret_inv in H as (st1 & He & H).
        apply emit_Ret_inv in He as [_ ->].
        apply (Hemit c lag (c =? ":")%char) in H; [done|done|].
        rewrite Hsame; [done|by left]. }
    rewrite (deref_concat_items items r ".") in H by done.
    destruct (deref (concat items) =? ".")%char eqn:E2.
    2:{ apply bind_Ret_inv in H as (st1 & He & H).
        apply emit_Ret_inv in He as [_ ->].
        apply (Hemit "-" lag false) in H.
        - rewrite H. by destruct items.
        - done.
        - rewrite char_at_insert by lia.
          replace (in_ st + 1 - 1) with (in_ st) by lia.
          destruct (decide (out st = in_ st)); [done|by rewrite Ec]. }
    (* ".." *)
    apply Ascii.eqb_eq in E2.
    destruct items as [|it2 items]; [discriminate E2|].
    apply Forall_cons in Hit as [Hi2 Hit].
    assert (it2 = ["."]) as ->.
    { destruct Hi2 as [(c2 & _ & ->)|Hin2].
      - simpl in E2. unfold deref in E2. by rewrite char_at_cons_0 in E2; subst.
      - destruct (token_props it2 Hin2) as (_ & _ & _ & Hhd & _).
        destruct it2 as [|x it2]; [discriminate|]. injection Hhd as ->.
        discriminate E2. }
    cbn [concat] in *. change (["."] ++ concat items) with ("." :: concat items) in *.
    change (("." :: concat items) ++ r) with ("." :: concat items ++ r) in *.
    assert (Hlt2 : in_ st + 1 < length (buf st)).
    { pose proof (drop_lt_length (buf st) (in_ st + 1) "." (concat items ++ r)) as Hx.
      apply Hx. by rewrite <- drop_drop, Hd. }
    apply bind_Ret_inv in H as (st1 & He & H).
    apply emit_Ret_inv in He as [_ ->].
    apply bind_Ret_inv in H as (st2 & He & H).
    apply emit_Ret_inv in He as [_ ->]. cbn [buf in_ out] in H.
    apply (IH items _ r e ex st' lag (negb lag)) in H; cbn [buf in_ out] in *.
    + rewrite H, take_S_insert by (rewrite length_insert; lia).
      rewrite take_S_insert by lia. by rewrite <- !app_assoc.
    + done.
    + rewrite !drop_insert_lt by lia.
      replace (in_ st + 0 + 2) with (in_ st + 2) by lia.
      by rewrite <- drop_drop, Hd.
    + done.
    + subst e. f_equal. simpl. lia.
    + lia.
    + rewrite Hlag. apply bool_decide_ext. lia.
    + destruct (Nat.eqb_spec (in_ st + 0 + 2) 0); [lia|].
      replace (in_ st + 0 + 2 - 1) with (in_ st + 1) by lia.
      rewrite !char_at_insert by (rewrite ?length_insert; lia).
      rewrite Hlag.
      destruct (decide (out st + 1 = in_ st + 1)).
      * by rewrite bool_decide_eq_false_2 by lia.
      * destruct (decide (out st = in_ st + 1)); [lia|].
        rewrite bool_decide_eq_true_2 by lia.
        by rewrite <- char_at_drop, Hd, char_at_cons_S, char_at_cons_0.
  - (* an escape sequence *)
    destruct (token_props it Hin) as (_ & _ & _ & Hhd & Hl3).
    assert (Ec : char_at (buf st) (in_ st) = "$").
    { rewrite <- deref_drop, Hd. destruct it as [|x it]; [discriminate|].
      by injection Hhd as ->. }
    rewrite Ec in H. cbv iota in H.
    change (if ("$" =? "$")%char then ?a else ?b) with a in H.
    rewrite (unescape_any_token_value st it _ Hin Hd ltac:(lia)) in H.
    rewrite bind_Ret in H. cbv iota beta in H.
    rewrite decode_items_token by done.
    apply (Hemit (escape_value it) true false) in H; [done| |].
    + symmetry. apply bool_decide_eq_true_2. lia.
    + rewrite char_at_insert by lia.
      destruct (decide (out st = in_ st + length it - 1)); [lia|].
      replace (in_ st + length it - 1) with (in_ st + (length it - 1)) by lia.
      rewrite <- char_at_drop, Hd. unfold char_at.
      rewrite lookup_app_l by lia. by rewrite (token_last it Hin).
Qed.

(** The end of [rust_demangle_sym] after a scan that has reached [end]. *)
Lemma rust_demangle_sym_of_scan (m : list HChar) st :
  rust_demangle_scan m = Ret (S_done, st) ->
  out st < length (buf st) -> out st + 1 <= strlen m ->
  NUL ∉ take (out st) (buf st) ->
  rust_demangle_sym (Some m) = Ret (Some (<[out st := NUL]> (buf st)))
  ∧ cstr (<[out st := NUL]> (buf st)) = take (out st) (buf st).
Proof.
  intros E Hout Hle Hn.
  unfold rust_demangle_sym. rewrite E, !bind_Ret.
  rewrite emit_spec by done. rewrite bind_Ret. cbn [buf out].
  destruct (Nat.leb_spec (out st + 1) (strlen m)); [|lia].
  split; [done|].
  rewrite (cstr_take_NUL _ (out st)).
  - by rewrite take_insert_ge.
  - by rewrite take_insert_ge by lia.
  - by apply list_lookup_insert_eq.
Qed.

(** The scan of a block whose string is a name made of items followed by
    [::h] and sixteen bytes. *)
Lemma rust_demangle_scan_items (m : list HChar) (items : list (list HChar))
    (hex : list HChar) :
  Forall Spec.item items ->
  cstr m = concat items ++ lit "::h" ++ hex -> length hex = 16 ->
  ∃ st,
    rust_demangle_scan m = Ret (S_done, st)
    ∧ out st < length (buf st) ∧ out st + 1 <= strlen m
    ∧ (NUL ∉ take (out st) (buf st))
    ∧ take (out st) (buf st) = decode_items false true items.
Proof.
  intros Hit Ec Hl16.
  assert (Elen : strlen m = length (concat items) + 19).
  { rewrite <- length_cstr, Ec, !length_app, Hl16. done. }
  assert (Em : m = concat items ++ lit "::h" ++ hex ++ drop (strlen m) m).
  { rewrite (block_split m) at 1. rewrite Ec. by rewrite <- !app_assoc. }
  destruct (demangle_loop_accepts (S (strlen m)) items
              {| buf := m; in_ := 0; out := 0 |}
              (lit "::h" ++ hex ++ drop (strlen m) m)
              (Z.of_nat (strlen m) - Z.of_nat (hash_prefix_len + hash_len))%Z)
    as (st & E & H1 & H2 & H3 & H4 & H5).
  - done.
  - simpl. by rewrite drop_0.
  - done.
  - simpl. unfold hash_prefix_len, hash_len. lia.
  - simpl. lia.
  - simpl. constructor.
  - lia.
  - cbn [buf in_ out] in H1, H2, H3, H4, H5.
    pose proof (strlen_le m) as Hlen.
    exists st. split; [exact E|]. split; [lia|]. split; [lia|].
    split; [by apply good_no_NUL|].
    apply (demangle_loop_decodes _ items _
             (lit "::h" ++ hex ++ drop (strlen m) m) _ _ _ false true) in E;
      cbn [buf in_ out] in *.
    + by rewrite take_0, app_nil_l in E.
    + done.
    + by rewrite drop_0.
    + done.
    + unfold hash_prefix_len, hash_len. lia.
    + lia.
    + done.
    + done.
Qed.

(** X8.  The in-place decoder as a function of the name.  Let the string
    of the block be a name made of items, single characters among a-z, A-Z,
    0-9, [_], [:], [.] and escape sequences of the table, followed by [::h]
    and sixteen more bytes.  [rust_demangle_sym] leaves the string that
    [decode_items] gives for the name: each escape sequence becomes its
    character, [..] becomes [::], a single [.] becomes [-], a [_] before
    [$] is dropped when it is the first byte or the byte found before it is
    [:], and every other character is copied. *)
Theorem rust_demangle_sym_decodes (m : list HChar) (items : list (list HChar))
    (hex : list HChar) :
  Forall Spec.item items ->
  cstr m = concat items ++ lit "::h" ++ hex -> length hex = 16 ->
  ∃ b,
    rust_demangle_sym (Some m) = Ret (Some b)
    ∧ cstr b = decode_items false true items.
Proof.
  intros Hit Ec Hl.
  destruct (rust_demangle_scan_items m items hex Hit Ec Hl)
    as (st & E & Hout & Hle & Hn & Hdec).
  destruct (rust_demangle_sym_of_scan m st E Hout Hle Hn) as [Es Hc].
  exists (<[out st := NUL]> (buf st)). split; [exact Es|]. by rewrite Hc.
Qed.

Lemma rust_demangle_sym_decodes_witness :
  ∃ b,
    rust_demangle_sym (Some (lit "_$LT$T$GT$..f::h0123456789abcde0"))
    = Ret (Some b)
    ∧ cstr b
      = decode_items false true
          [["_"]; lit "$LT$"; ["T"]; lit "$GT$"; ["."]; ["."]; ["f"]].
Proof.
  apply (rust_demangle_sym_decodes (lit "_$LT$T$GT$..f::h0123456789abcde0")
           [["_"]; lit "$LT$"; ["T"]; lit "$GT$"; ["."]; ["."]; ["f"]]
           (lit "0123456789abcde0")).
  - repeat (apply List.Forall_cons;
            [first [ right; compute_done
                   | left; eexists; split; [|reflexivity]; compute_done ]|]).
    apply List.Forall_nil.
  - reflexivity.
  - reflexivity.
Defined.

Lemma is_copied_plain c : is_copied c = true -> Spec.plain_char c.
Proof.
  intros H. apply plain_char_cases. unfold is_copied in H.
  apply orb_true_iff in H as [H|H]; [apply orb_true_iff in H as [H|H]|];
    rewrite H; by rewrite ?orb_true_r.
Qed.

Lemma is_copied_facts c :
  is_copied c = true -> c ≠ "$" ∧ c ≠ "." ∧ c ≠ NUL.
Proof. intros H. repeat split; intros ->; discriminate H. Qed.

Lemma items_of_copied p :
  Forall (fun c => is_copied c = true) p ->
  Forall Spec.item (map (fun c => [c]) p) ∧ concat (map (fun c => [c]) p) = p.
Proof.
  induction 1 as [|c p Hc _ [IH1 IH2]]; [by split|]. split.
  - constructor; [|done]. left. exists c. split; [by apply is_copied_plain|done].
  - simpl. by rewrite IH2.
Qed.

(** Copied characters before something that does not begin with [$] are
    given back as they are. *)
Lemma decode_items_copied p rest lag colon :
  Forall (fun c => is_copied c = true) p ->
  (deref (concat rest) =? "$")%char = false ->
  ∃ colon', decode_items lag colon (map (fun c => [c]) p ++ rest)
            = p ++ decode_items lag colon' rest.
Proof.
  intros Hp Hr. revert colon.
  induction Hp as [|c p Hc Hp IH]; intros colon; [by exists colon|].
  simpl map. simpl app. rewrite decode_items_char.
  destruct (is_copied_facts c Hc) as (_ & Hdot & _).
  destruct (Ascii.eqb_spec c "."); [done|].
  assert (Hnext : (deref (concat (map (fun c => [c]) p ++ rest)) =? "$")%char
                  = false).
  { destruct Hp as [|c' p' Hc' _]; [done|]. simpl. unfold deref.
    rewrite char_at_cons_0. apply Ascii.eqb_neq.
    by destruct (is_copied_facts c' Hc'). }
  destruct (Ascii.eqb_spec c "_") as [->|].
  - rewrite Hnext, andb_false_r. destruct (IH false) as [colon' ->].
    by exists colon'.
  - destruct (IH (c =? ":")%char) as [colon' ->]. by exists colon'.
Qed.

Lemma escape_value_table t v : (t, v) ∈ rust_escapes -> escape_value t = v.
Proof.
  unfold rust_escapes. rewrite !elem_of_cons.
  intros H. repeat (destruct H as [[= -> ->]|H]; [reflexivity|]).
  by apply elem_of_nil in H.
Qed.

Lemma escape_token t v : (t, v) ∈ rust_escapes -> t ∈ Spec.rust_tokens.
Proof.
  unfold rust_escapes. rewrite !elem_of_cons.
  intros H. repeat (destruct H as [[= -> ->]|H]; [compute_done|]).
  by apply elem_of_nil in H.
Qed.

Lemma decode_items_dots lag colon rest :
  decode_items lag colon (["."] :: ["."] :: rest)
  = ":" :: ":" :: decode_items lag (negb lag) rest.
Proof. reflexivity. Qed.

Lemma decode_items_underscore_token lag colon seq rest :
  seq ∈ Spec.rust_tokens ->
  decode_items lag colon (["_"] :: seq :: rest)
  = if colon then decode_items true false (seq :: rest)
    else "_" :: decode_items lag false (seq :: rest).
Proof.
  intros Ht. destruct (token_props seq Ht) as (_ & _ & _ & Hhd & _).
  destruct seq as [|x seq]; [discriminate|]. injection Hhd as ->.
  rewrite decode_items_char. change (("_" =? "_")%char) with true. cbv iota.
  change (deref (concat (("$" :: seq) :: rest))) with "$".
  change (("$" =? "$")%char) with true. by rewrite andb_true_r.
Qed.

(** X9.  A name without escape sequences and without dots loses its hash
    and nothing else.  When the string of the block is a name made of the
    characters a-z, A-Z, 0-9, [:] and [_] only, followed by [::h] and
    sixteen bytes, [rust_demangle_sym] leaves exactly that name. *)
Theorem rust_demangle_sym_plain_name (m p hex : list HChar) :
  Forall (fun c => is_alnum c || (c =? ":")%char || (c =? "_")%char = true) p ->
  cstr m = p ++ lit "::h" ++ hex -> length hex = 16 ->
  ∃ b, rust_demangle_sym (Some m) = Ret (Some b) ∧ cstr b = p.
Proof.
  intros Hp Ec Hl.
  destruct (items_of_copied p Hp) as [Hit Econ].
  destruct (rust_demangle_scan_items m (map (fun c => [c]) p) hex Hit)
    as (st & E & Hout & Hle & Hn & Hb); [by rewrite Econ|done|].
  destruct (rust_demangle_sym_of_scan m st E Hout Hle Hn) as [Es Hc].
  exists (<[out st := NUL]> (buf st)). split; [done|]. rewrite Hc, Hb.
  destruct (decode_items_copied p [] false true Hp eq_refl) as [colon' Hd].
  rewrite app_nil_r in Hd. rewrite Hd. apply app_nil_r.
Qed.

Lemma rust_demangle_sym_plain_name_witness :
  ∃ b,
    rust_demangle_sym (Some (lit "core::fmt::write_str::h0123456789abcde0"))
    = Ret (Some b)
    ∧ cstr b = lit "core::fmt::write_str".
Proof.
  apply (rust_demangle_sym_plain_name
           (lit "core::fmt::write_str::h0123456789abcde0")
           (lit "core::fmt::write_str") (lit "0123456789abcde0")).
  - repeat (apply List.Forall_cons; [reflexivity|]). apply List.Forall_nil.
  - reflexivity.
  - reflexivity.
Defined.

(** X10.  The underscore of [.._$] and the bytes already written.  Let
    [p] be made of the characters a-z, A-Z, 0-9, [:] and [_], and let [seq]
    and [seq0] be escape sequences of the table, with values [v] and [v0].
    On the name [p .._ seq] the two dots become [::] and the underscore is
    dropped: every earlier byte was copied one for one, so the byte found
    before the underscore is the [:] just written.  On the name
    [seq0 p .._ seq] the underscore is kept: the output is behind the
    input, and the byte found before the underscore is still the dot of
    the name. *)
Theorem rust_demangle_sym_underscore_after_dots
    (m p seq seq0 hex : list HChar) (v v0 : HChar) :
  Forall (fun c => is_alnum c || (c =? ":")%char || (c =? "_")%char = true) p ->
  (seq, v) ∈ rust_escapes -> (seq0, v0) ∈ rust_escapes -> length hex = 16 ->
  (cstr m = p ++ lit ".._" ++ seq ++ lit "::h" ++ hex ->
   ∃ b, rust_demangle_sym (Some m) = Ret (Some b)
        ∧ cstr b = p ++ lit "::" ++ [v])
  ∧ (cstr m = seq0 ++ p ++ lit ".._" ++ seq ++ lit "::h" ++ hex ->
     ∃ b, rust_demangle_sym (Some m) = Ret (Some b)
          ∧ cstr b = v0 :: p ++ lit "::_" ++ [v]).
Proof.
  intros Hp Hs Hs0 Hl.
  destruct (items_of_copied p Hp) as [Hit Econ].
  pose proof (escape_token _ _ Hs) as Ht.
  pose proof (escape_token _ _ Hs0) as Ht0.
  set (tl := [["."]; ["."]; ["_"]; seq]).
  assert (Htl : Forall Spec.item tl).
  { repeat (apply List.Forall_cons;
            [first [ by right
                   | left; eexists; split; [|reflexivity]; compute_done ]|]).
    apply List.Forall_nil. }
  assert (Ectl : ∀ r : list HChar, concat tl ++ r = lit ".._" ++ seq ++ r).
  { intros r. subst tl. simpl. by rewrite app_nil_r. }
  assert (Hdec : ∀ lag colon,
    decode_items lag colon tl
    = ":" :: ":" :: (if negb lag then [v] else ["_"; v])).
  { intros lag colon. subst tl.
    rewrite decode_items_dots, decode_items_underscore_token by done.
    rewrite !decode_items_token by done. rewrite (escape_value_table _ _ Hs).
    by destruct lag. }
  split; intros Ec.
  - destruct (rust_demangle_scan_items m (map (fun c => [c]) p ++ tl) hex)
      as (st & E & Hout & Hle & Hn & Hb).
    + by apply Forall_app.
    + by rewrite concat_app, Econ, <- app_assoc, Ectl.
    + done.
    + destruct (rust_demangle_sym_of_scan m st E Hout Hle Hn) as [Es Hc].
      exists (<[out st := NUL]> (buf st)). split; [done|]. rewrite Hc, Hb.
      destruct (decode_items_copied p tl false true Hp eq_refl) as [colon' ->].
      by rewrite Hdec.
  - destruct (rust_demangle_scan_items m (seq0 :: map (fun c => [c]) p ++ tl) hex)
      as (st & E & Hout & Hle & Hn & Hb).
    + constructor; [by right|]. by apply Forall_app.
    + cbn [concat]. by rewrite concat_app, Econ, <- !app_assoc, Ectl.
    + done.
    + destruct (rust_demangle_sym_of_scan m st E Hout Hle Hn) as [Es Hc].
      exists (<[out st := NUL]> (buf st)). split; [done|]. rewrite Hc, Hb.
      rewrite decode_items_token by done. rewrite (escape_value_table _ _ Hs0).
      destruct (decode_items_copied p tl true false Hp eq_refl) as [colon' ->].
      by rewrite Hdec.
Qed.

Lemma rust_demangle_sym_underscore_after_dots_witness :
  (∃ b, rust_demangle_sym (Some (lit "a.._$C$::h0123456789abcde0"))
        = Ret (Some b)
        ∧ cstr b = lit "a" ++ lit "::" ++ [","])
  ∧ (∃ b, rust_demangle_sym (Some (lit "$LT$a.._$C$::h0123456789abcde0"))
          = Ret (Some b)
          ∧ cstr b = "<" :: lit "a" ++ lit "::_" ++ [","]).
Proof.
  assert (H1 : Forall (fun c => is_alnum c || (c =? ":")%char || (c =? "_")%char
                               = true) (lit "a")).
  { repeat (apply List.Forall_cons; [reflexivity|]). apply List.Forall_nil. }
  assert (H2 : (lit "$C$", ",") ∈ rust_escapes) by compute_done.
  assert (H3 : (lit "$LT$", "<") ∈ rust_escapes) by compute_done.
  split.
  - apply (proj1 (rust_demangle_sym_underscore_after_dots
             (lit "a.._$C$::h0123456789abcde0") (lit "a") (lit "$C$")
             (lit "$LT$") (lit "0123456789abcde0") "," "<" H1 H2 H3 eq_refl)).
    reflexivity.
  - apply (proj2 (rust_demangle_sym_underscore_after_dots
             (lit "$LT$a.._$C$::h0123456789abcde0") (lit "a") (lit "$C$")
             (lit "$LT$") (lit "0123456789abcde0") "," "<" H1 H2 H3 eq_refl)).
    reflexivity.
Defined.

(* --------------------------------------------------------------------- *)
(** ** Further properties of the main entry point *)
(* --------------------------------------------------------------------- *)

Section EntryPointFacts.
Variable uninit : nat -> HChar.
Variable cplus_demangle : list HChar -> option (list HChar).
Variable clo_demangle : bool.

Lemma heap_released_one_buffer st : one_buffer st -> dom (heap_released st) =@{gset addr} ∅.
Proof.
  unfold one_buffer, heap_released. destruct (demangled st) as [a|]; [|done].
  intros H. by rewrite dom_delete_L, H, difference_diag_L.
Qed.

(** X11.  No result buffer is lost.  Of the blocks the stage-1 demangler
    has returned, the arena holds none before the first call, and every
    call of [VG_(demangle)] that returns keeps the arena holding the block
    the static [demangled] points to and no other: at most one result
    buffer is allocated at any time. *)
Theorem VG_demangle_keeps_one_buffer :
  one_buffer state_init
  ∧ ∀ (do_cxx do_z : bool) (orig : option (list HChar)) (st st' : state)
      (res : strptr),
      one_buffer st ->
      VG_demangle uninit cplus_demangle clo_demangle do_cxx do_z orig st
      = Ret (res, st') ->
      one_buffer st'.
Proof.
  split; [done|].
  intros do_cxx do_z orig st st' res Hone H.
  destruct (VG_demangle_stages uninit cplus_demangle clo_demangle _ _ _ _ _ _ H)
    as (p & pre & st1 & EZ & Hs).
  destruct (undo_Z_shape uninit _ _ _ _ _ _ EZ) as (Hd & Hh & _ & _).
  assert (Hone1 : one_buffer st1) by (unfold one_buffer; by rewrite Hd, Hh).
  pose proof (heap_released_one_buffer st1 Hone1) as Hrel.
  destruct (wants_cxx clo_demangle do_cxx pre).
  - destruct Hs as (m & _ & _ & _ & Hc).
    destruct (cplus_demangle (cstr m)) as [blk|].
    + destruct Hc as (a & blk' & _ & Ed & _ & Eh).
      unfold one_buffer. by rewrite Ed, Eh, dom_insert_L, Hrel, union_empty_r_L.
    + destruct Hc as (_ & Ed & Eh). unfold one_buffer. by rewrite Ed, Eh.
  - by destruct Hs as [_ ->].
Qed.

(** What stage 1 and the Rust stage leave when the stage-1 demangler gives
    a block. *)
Lemma VG_demangle_stage0 do_cxx do_z orig st res st' p_pre m st1 blk :
  VG_demangle uninit cplus_demangle clo_demangle do_cxx do_z orig st
  = Ret (res, st') ->
  undo_Z uninit do_z orig st = Ret (p_pre, Some m, st1) ->
  wants_cxx clo_demangle do_cxx (Some m) = true ->
  cplus_demangle (cstr m) = Some blk ->
  ∃ a blk',
    res = P_heap a ∧ demangled st' = Some a ∧ heap st' !! a = Some blk'
    ∧ (Rust.rust_is_mangled (Some blk) = Ret false ∧ blk' = blk
       ∨ Rust.rust_is_mangled (Some blk) = Ret true
         ∧ Rust.rust_demangle_sym (Some blk) = Ret (Some blk')).
Proof.
  unfold VG_demangle. intros H EZ Hw Ec. rewrite EZ, bind_Ret in H.
  cbv beta iota in H. rewrite Hw in H.
  unfold call_cplus_demangle in H.
  change (default [] (Some m)) with m in H. rewrite Ec in H.
  cbn [demangled heap] in H. cbv zeta in H.
  rewrite lookup_insert_eq in H.
  change (default [] (Some blk)) with blk in H.
  destruct (Rust.rust_is_mangled (Some blk)) as [r|w| |] eqn:Er;
    try discriminate H.
  rewrite bind_Ret in H. destruct r.
  - destruct (Rust.rust_demangle_sym (Some blk)) as [b|w| |] eqn:Ed;
      try discriminate H.
    destruct (rust_demangle_sym_accepted blk Er) as (s0 & b' & _ & Ed' & _).
    rewrite Ed' in Ed. injection Ed as <-.
    rewrite !bind_Ret in H. cbn [default] in H. injection H as <- <-.
    eexists _, b'. split; [done|]. split; [done|]. cbn [heap].
    rewrite lookup_insert_eq. split; [done|]. by right.
  - rewrite bind_Ret in H. injection H as <- <-.
    eexists _, blk. split; [done|]. split; [done|]. cbn [heap].
    rewrite lookup_insert_eq. split; [done|]. by left.
Qed.

(** X12.  Stage 1, then the Rust stage.  When a call reaches stage 1 and
    the stage-1 demangler returns a block, [*result] points to that block,
    and the string behind it is the demangler's own output if
    [rust_is_mangled] refuses it, and otherwise what [rust_demangle_sym]
    makes of it in place, which holds no [?]. *)
Theorem VG_demangle_cxx_then_rust
    (do_cxx do_z : bool) (orig : option (list HChar)) (st st' st1 : state)
    (res p_pre : strptr) (m blk : list HChar) :
  VG_demangle uninit cplus_demangle clo_demangle do_cxx do_z orig st
  = Ret (res, st') ->
  undo_Z uninit do_z orig st = Ret (p_pre, Some m, st1) ->
  wants_cxx clo_demangle do_cxx (Some m) = true ->
  cplus_demangle (cstr m) = Some blk ->
  ∃ a, res = P_heap a ∧ demangled st' = Some a
    ∧ (Rust.rust_is_mangled (Some blk) = Ret false
       ∧ string_at orig st' res = Some (cstr blk)
       ∨ Rust.rust_is_mangled (Some blk) = Ret true
         ∧ ∃ b, Rust.rust_demangle_sym (Some blk) = Ret (Some b)
                ∧ string_at orig st' res = Some (cstr b)
                ∧ "?" ∉ cstr b).
Proof.
  intros H EZ Hw Ec.
  destruct (VG_demangle_stage0 _ _ _ _ _ _ _ _ _ _ H EZ Hw Ec)
    as (a & blk' & -> & Hd & Hh & Hr).
  exists a. split; [done|]. split; [done|]. simpl. rewrite Hh. simpl.
  destruct Hr as [[Er ->]|[Er Ed]]; [by left|right].
  split; [done|]. exists blk'. split; [done|]. split; [done|].
  destruct (rust_demangle_sym_accepted blk Er) as (s0 & b' & _ & Ed' & Hrest).
  rewrite Ed' in Ed. injection Ed as ->.
  destruct Hrest as (_ & _ & _ & _ & _ & _ & Hg). by apply good_no_NUL.
Qed.

(** What follows the Z-decoding step does not look at the Z-decoder's
    statics. *)
Lemma VG_demangle_after_undo_Z do_cxx (pre : option (list HChar)) p st zs :
  let k := fun st0 : state =>
    if wants_cxx clo_demangle do_cxx pre then
      let st := free_previous st0 in
      let st := call_cplus_demangle cplus_demangle (default [] pre) st in
      match demangled st with
      | Some a =>
          let blk := default [] (heap st !! a) in
          do r <- Rust.rust_is_mangled (Some blk);
          do blk' <-
            (if r then
               do b <- Rust.rust_demangle_sym (Some blk);
               Ret (default blk b)
             else Ret blk);
          Ret (P_heap a,
               {| zstatics := zstatics st; demangled := demangled st;
                  heap := <[a := blk']> (heap st); trace := trace st |})
      | None => Ret (p, st)
      end
    else Ret (p, st0) in
  ∀ res st', k st = Ret (res, st') ->
             k (with_zstatics st zs) = Ret (res, with_zstatics st' zs).
Proof.
  intros k res st'. subst k. cbv beta.
  destruct (wants_cxx clo_demangle do_cxx pre); [|by intros [= <- <-]].
  unfold free_previous, call_cplus_demangle, with_zstatics.
  cbn [demangled heap trace zstatics].
  destruct (demangled st) as [a0|], (cplus_demangle (cstr (default [] pre)))
    as [blk|]; cbn [demangled heap trace zstatics]; cbv zeta;
    try (by intros [= <- <-]).
  - destruct (Rust.rust_is_mangled _) as [r|w| |]; try discriminate.
    rewrite !bind_Ret. destruct r.
    + destruct (Rust.rust_demangle_sym _) as [b|w| |]; try discriminate.
      rewrite !bind_Ret. by intros [= <- <-].
    + rewrite !bind_Ret. by intros [= <- <-].
  - destruct (Rust.rust_is_mangled _) as [r|w| |]; try discriminate.
    rewrite !bind_Ret. destruct r.
    + destruct (Rust.rust_demangle_sym _) as [b|w| |]; try discriminate.
      rewrite !bind_Ret. by intros [= <- <-].
    + rewrite !bind_Ret. by intros [= <- <-].
Qed.

(** X13.  Asking for Z-demangling is harmless on a symbol that is not
    Z-encoded.  When the first twelve bytes of [orig] are not a header the
    Z-decoder accepts, the call with [do_z_demangling] set gives the same
    [*result], the same arena and the same events as the call without it;
    only the static buffers of the Z-decoder differ, and [fnbuf] then holds
    the empty string, whatever an earlier call had left there. *)
Theorem VG_demangle_do_z_on_unencoded
    (do_cxx : bool) (sym : list HChar) (st : state) :
  state_wf st -> valid sym = false ->
  ∃ res st0 zs,
    VG_demangle uninit cplus_demangle clo_demangle do_cxx false (Some sym) st
    = Ret (res, st0)
    ∧ VG_demangle uninit cplus_demangle clo_demangle do_cxx true (Some sym) st
      = Ret (res, with_zstatics st0 zs)
    ∧ res ≠ P_fnbuf
    ∧ cstr (fnbuf zs) = [].
Proof.
  intros Hwf Hv.
  pose proof (VG_demangle_outcome uninit cplus_demangle clo_demangle do_cxx
                false (Some sym) st Hwf ltac:(done)) as Hout.
  destruct (VG_demangle uninit cplus_demangle clo_demangle do_cxx false
              (Some sym) st) as [[res st0]|w| |] eqn:E; [| |done|done].
  2:{ subst w. exfalso. revert E. unfold VG_demangle, undo_Z.
      rewrite bind_Ret. cbv beta iota.
      destruct (wants_cxx _ _ _); [|discriminate].
      cbv zeta. destruct (demangled _) as [a|]; [|discriminate].
      set (blk := default [] _).
      destruct (rust_is_mangled_total (Some blk)) as [r Er]. rewrite Er.
      rewrite bind_Ret. destruct r; [|discriminate].
      destruct (rust_demangle_sym_accepted _ Er) as (s0 & b' & _ & -> & _).
      rewrite !bind_Ret. discriminate. }
  pose proof (VG_maybe_Z_demangle_char uninit sym false false false false
                (zstatics st)
                {| ZDemangle.so_v := None; ZDemangle.fn_v := None;
                   ZDemangle.isWrap_v := false; ZDemangle.eclassTag_v := 0%Z;
                   ZDemangle.eclassPrio_v := 0%Z |} Hwf) as Hc.
  rewrite Hv in Hc. destruct Hc as (zs & EZ & _ & _ & _ & Hfn).
  exists res, st0, zs. split; [done|].
  assert (Hres : res ≠ P_fnbuf).
  { destruct (VG_demangle_stages uninit cplus_demangle clo_demangle
                _ _ _ _ _ _ E) as (p & pre & st1 & EU & Hs).
    injection EU as <- <- <-.
    destruct (wants_cxx clo_demangle do_cxx (Some sym)).
    - destruct Hs as (m & _ & _ & _ & Hc).
      destruct (cplus_demangle (cstr m)).
      + by destruct Hc as (a & blk' & -> & _).
      + by destruct Hc as (-> & _).
    - by destruct Hs as [-> _]. }
  split; [|by split].
  unfold VG_demangle in E |- *. unfold undo_Z in E |- *.
  cbv iota in E. rewrite bind_Ret in E. cbv beta iota in E.
  cbv iota. rewrite EZ, bind_Ret. cbv beta iota. rewrite bind_Ret.
  cbv beta iota.
  apply (VG_demangle_after_undo_Z do_cxx (Some sym) P_orig st zs) in E.
  exact E.
Qed.

Lemma wants_cxx_cstr do_cxx (b : list HChar) :
  wants_cxx clo_demangle do_cxx (Some b)
  = wants_cxx clo_demangle do_cxx (Some (cstr b)).
Proof.
  unfold wants_cxx. f_equal.
  destruct b as [|c0 b]; [done|].
  destruct (Ascii.eqb_spec c0 NUL) as [->|H0]; [done|].
  rewrite cstr_cons by done. rewrite !char_at_cons_0, !char_at_cons_S. f_equal.
  destruct b as [|c1 b]; [done|].
  destruct (Ascii.eqb_spec c1 NUL) as [->|H1]; [done|].
  by rewrite cstr_cons by done.
Qed.

(** X14.  The pipeline on a Z-encoded symbol: the soname is discarded and
    the later stages work on the decoded function name.  For a symbol made
    of an accepted header, an encoded soname, [_] and an encoded function
    name, a call with [do_z_demangling] set leaves the decoded function
    name in [fnbuf]; the test guarding stage 1 is made on that name; when
    it fails, [*result] points to [fnbuf] and the arena and the events are
    untouched; when it holds, the stage-1 demangler is called on the
    decoded name, and [*result] points to its block, or to [fnbuf] when it
    gives none.  The soname plays no part. *)
Theorem VG_demangle_Z_encoded_symbol
    (do_cxx : bool) (hdr soname fnname : list HChar) (st st' : state)
    (res : strptr) :
  state_wf st ->
  length hdr = 12 -> valid hdr = true -> char_at hdr 10 = "Z" ->
  NUL ∉ soname -> NUL ∉ fnname ->
  VG_demangle uninit cplus_demangle clo_demangle do_cxx true
    (Some (hdr ++ z_encode soname ++ "_" :: z_encode fnname)) st
  = Ret (res, st') ->
  cstr (fnbuf (zstatics st')) = fnname
  ∧ if wants_cxx clo_demangle do_cxx (Some fnname) then
      trace st' = trace st ++ release_events st ++ [E_cplus_demangle fnname]
      ∧ match cplus_demangle fnname with
        | None => res = P_fnbuf
        | Some _ => ∃ a, res = P_heap a ∧ demangled st' = Some a
        end
    else
      res = P_fnbuf ∧ trace st' = trace st ∧ heap st' = heap st
      ∧ demangled st' = demangled st.
Proof.
  intros Hwf Hl Hv Hk Hns Hnf H.
  destruct (encoded_symbol_scan hdr soname fnname Hl Hv Hk Hns Hnf)
    as (Hvs & Hp & _ & Hfn').
  pose proof (VG_maybe_Z_demangle_char uninit
                (hdr ++ z_encode soname ++ "_" :: z_encode fnname)
                false false false false (zstatics st)
                {| ZDemangle.so_v := None; ZDemangle.fn_v := None;
                   ZDemangle.isWrap_v := false; ZDemangle.eclassTag_v := 0%Z;
                   ZDemangle.eclassPrio_v := 0%Z |} Hwf) as Hc.
  rewrite Hvs, Hp, Hfn' in Hc. destruct Hc as (zs & EZ & _ & _ & _ & Hfn).
  cbn [fst snd] in EZ, Hfn.
  destruct (VG_demangle_stages uninit cplus_demangle clo_demangle _ _ _ _ _ _ H)
    as (p & pre & st1 & EU & Hs).
  unfold undo_Z in EU. rewrite EZ, bind_Ret in EU. cbv beta iota in EU.
  injection EU as <- <- <-.
  rewrite wants_cxx_cstr, Hfn in Hs.
  unfold release_events in *. cbn [demangled trace heap zstatics] in Hs.
  destruct (wants_cxx clo_demangle do_cxx (Some fnname)).
  - destruct Hs as (m & [= <-] & Ht & Ezs & Hc). rewrite Hfn in Ht, Hc.
    split; [by rewrite Ezs|]. split; [done|].
    destruct (cplus_demangle fnname).
    + destruct Hc as (a & blk' & -> & Hd & _). by exists a.
    + by destruct Hc as (-> & _).
  - destruct Hs as [-> ->]. done.
Qed.

Lemma wants_cxx_option do_cxx (pre pre' : option (list HChar)) :
  cstr <$> pre = cstr <$> pre' ->
  wants_cxx clo_demangle do_cxx pre = wants_cxx clo_demangle do_cxx pre'.
Proof.
  destruct pre as [b|], pre' as [b'|]; try done.
  intros [= E]. by rewrite (wants_cxx_cstr _ b), (wants_cxx_cstr _ b'), E.
Qed.

End EntryPointFacts.

Section EntryPointRuns.
Variable cplus_demangle : list HChar -> option (list HChar).
Variable clo_demangle : bool.

(** The strings two Z-decoding steps leave for the same symbol. *)
Lemma undo_Z_agree uninit uninit' do_z orig st1 st2 p1 pre1 s1 p2 pre2 s2 :
  state_wf st1 -> state_wf st2 ->
  undo_Z uninit do_z orig st1 = Ret (p1, pre1, s1) ->
  undo_Z uninit' do_z orig st2 = Ret (p2, pre2, s2) ->
  cstr <$> pre1 = cstr <$> pre2
  ∧ (∀ st, zstatics st = zstatics s1 -> string_at orig st p1 = cstr <$> pre1)
  ∧ (∀ st, zstatics st = zstatics s2 -> string_at orig st p2 = cstr <$> pre2).
Proof.
  intros Hwf1 Hwf2. unfold undo_Z.
  destruct do_z.
  2:{ intros [= <- <- <-] [= <- <- <-]. by destruct orig. }
  destruct orig as [sym|]; [|discriminate].
  pose (o0 := {| ZDemangle.so_v := None; ZDemangle.fn_v := None;
                 ZDemangle.isWrap_v := false; ZDemangle.eclassTag_v := 0%Z;
                 ZDemangle.eclassPrio_v := 0%Z |}).
  pose proof (VG_maybe_Z_demangle_char uninit sym false false false false
                (zstatics st1) o0 Hwf1) as Hc1.
  pose proof (VG_maybe_Z_demangle_char uninit' sym false false false false
                (zstatics st2) o0 Hwf2) as Hc2.
  fold o0.
  destruct (valid sym).
  - destruct (is_VG_Z_prefixed sym); [by rewrite Hc1|].
    destruct Hc1 as (z1 & -> & _ & _ & _ & Hf1).
    destruct Hc2 as (z2 & -> & _ & _ & _ & Hf2).
    rewrite !bind_Ret. cbv beta iota.
    destruct (z_fnname sym).2; intros [= <- <- <-] [= <- <- <-]; simpl.
    + split; [congruence|]. split; intros st ->; done.
    + done.
  - destruct Hc1 as (z1 & -> & _). destruct Hc2 as (z2 & -> & _).
    rewrite !bind_Ret. cbv beta iota. by intros [= <- <- <-] [= <- <- <-].
Qed.

(** X15.  The demangled string does not depend on earlier calls.  Two
    calls of [VG_(demangle)] with the same arguments, made in any two states
    and with any contents of fresh memory, leave the same string behind
    [*result]: neither the static buffers of the Z-decoder nor the retained
    result buffer carry anything over from one call to the next. *)
Theorem VG_demangle_string_depends_on_arguments_only
    (uninit uninit' : nat -> HChar) (do_cxx do_z : bool)
    (orig : option (list HChar)) (st1 st2 st1' st2' : state)
    (res1 res2 : strptr) :
  state_wf st1 -> state_wf st2 ->
  VG_demangle uninit cplus_demangle clo_demangle do_cxx do_z orig st1
  = Ret (res1, st1') ->
  VG_demangle uninit' cplus_demangle clo_demangle do_cxx do_z orig st2
  = Ret (res2, st2') ->
  string_at orig st1' res1 = string_at orig st2' res2.
Proof.
  intros Hwf1 Hwf2 H1 H2.
  destruct (VG_demangle_stages _ _ _ _ _ _ _ _ _ H1)
    as (p1 & pre1 & s1 & EZ1 & Hs1).
  destruct (VG_demangle_stages _ _ _ _ _ _ _ _ _ H2)
    as (p2 & pre2 & s2 & EZ2 & Hs2).
  destruct (undo_Z_agree _ _ _ _ _ _ _ _ _ _ _ _ Hwf1 Hwf2 EZ1 EZ2)
    as (Epre & Hstr1 & Hstr2).
  rewrite (wants_cxx_option clo_demangle do_cxx pre2 pre1) in Hs2 by done.
  destruct (wants_cxx clo_demangle do_cxx pre1) eqn:Hw.
  2:{ destruct Hs1 as [-> ->], Hs2 as [-> ->].
      rewrite Hstr1, Hstr2 by done. done. }
  destruct Hs1 as (m1 & -> & _ & Ez1 & Hc1).
  destruct Hs2 as (m2 & -> & _ & Ez2 & Hc2).
  injection Epre as Em. rewrite <- Em in Hc2.
  destruct (cplus_demangle (cstr m1)) as [blk|] eqn:Ec.
  2:{ destruct Hc1 as (-> & _), Hc2 as (-> & _).
      rewrite Hstr1, Hstr2 by done. simpl. by rewrite Em. }
  destruct (VG_demangle_stage0 _ _ _ _ _ _ _ _ _ _ _ _ _ H1 EZ1 Hw Ec)
    as (a1 & b1 & -> & _ & Hh1 & Hr1).
  assert (Hw2 : wants_cxx clo_demangle do_cxx (Some m2) = true).
  { rewrite <- Hw. apply wants_cxx_option. simpl. by rewrite Em. }
  rewrite Em in Ec.
  destruct (VG_demangle_stage0 _ _ _ _ _ _ _ _ _ _ _ _ _ H2 EZ2 Hw2 Ec)
    as (a2 & b2 & -> & _ & Hh2 & Hr2).
  simpl. rewrite Hh1, Hh2. simpl. f_equal. f_equal.
  destruct Hr1 as [[E1 ->]|[E1 D1]], Hr2 as [[E2 ->]|[E2 D2]]; congruence.
Qed.

End EntryPointRuns.

Lemma VG_demangle_keeps_one_buffer_witness :
  one_buffer state_init
  ∧ ∃ res st',
      VG_demangle uninit_x cxx_test true true true (Some (lit "_Zrust"))
        state_after_foo = Ret (res, st')
      ∧ one_buffer st'.
Proof.
  split; [exact (proj1 (VG_demangle_keeps_one_buffer uninit_x cxx_test true))|].
  assert (E : ∃ res st',
    VG_demangle uninit_x cxx_test true true true (Some (lit "_Zrust"))
      state_after_foo = Ret (res, st')).
  { do 2 eexists. vm_compute. reflexivity. }
  destruct E as (res & st' & E). exists res, st'. split; [exact E|].
  refine (proj2 (VG_demangle_keeps_one_buffer uninit_x cxx_test true)
            true true (Some (lit "_Zrust")) state_after_foo st' res _ E).
  vm_compute. reflexivity.
Defined.

Lemma VG_demangle_cxx_then_rust_witness :
  ∃ res st' a,
    VG_demangle uninit_x cxx_test true true true (Some (lit "_Zrust")) state_init
    = Ret (res, st')
    ∧ res = P_heap a ∧ demangled st' = Some a
    ∧ string_at (Some (lit "_Zrust")) st' res
      = Some (lit "<std::sys::fd::FileDesc as core::ops::Drop>::drop").
Proof.
  assert (E : ∃ res st',
    VG_demangle uninit_x cxx_test true true true (Some (lit "_Zrust")) state_init
    = Ret (res, st')).
  { do 2 eexists. vm_compute. reflexivity. }
  destruct E as (res & st' & E).
  assert (EZ : ∃ st1, undo_Z uninit_x true (Some (lit "_Zrust")) state_init
                      = Ret (P_orig, Some (lit "_Zrust"), st1)).
  { eexists. vm_compute. reflexivity. }
  destruct EZ as (st1 & EZ).
  destruct (VG_demangle_cxx_then_rust uninit_x cxx_test true true true
              (Some (lit "_Zrust")) state_init st' st1 res P_orig
              (lit "_Zrust")
              (lit "_$LT$std..sys..fd..FileDesc$u20$as$u20$core..ops..Drop$GT$::drop::hc68340e1baa4987a" ++ [NUL])
              E EZ eq_refl eq_refl)
    as (a & Hres & Hd & [[Er _]|(_ & b & Eb & Hs & _)]).
  - exfalso. vm_compute in Er. discriminate Er.
  - exists res, st', a. split; [exact E|]. split; [exact Hres|].
    split; [exact Hd|]. rewrite Hs.
    vm_compute in Eb. injection Eb as <-. vm_compute. reflexivity.
Defined.

Lemma VG_demangle_do_z_on_unencoded_witness :
  ∃ res st0 zs,
    VG_demangle uninit_x cxx_test true true false (Some (lit "_Z3foov"))
      state_after_foo = Ret (res, st0)
    ∧ VG_demangle uninit_x cxx_test true true true (Some (lit "_Z3foov"))
        state_after_foo = Ret (res, with_zstatics st0 zs)
    ∧ res ≠ P_fnbuf
    ∧ cstr (fnbuf zs) = [].
Proof.
  apply (VG_demangle_do_z_on_unencoded uninit_x cxx_test true true
           (lit "_Z3foov") state_after_foo).
  - vm_compute. split; reflexivity.
  - reflexivity.
Defined.

Lemma VG_demangle_Z_encoded_symbol_witness :
  ∃ res st',
    VG_demangle uninit_x cxx_test true true true
      (Some (lit "_vgw00000ZZ_" ++ z_encode (lit "libc.so.*") ++ "_"
               :: z_encode (lit "_Z3foov"))) state_init
    = Ret (res, st')
    ∧ cstr (fnbuf (zstatics st')) = lit "_Z3foov"
    ∧ if wants_cxx true true (Some (lit "_Z3foov")) then
        trace st' = trace state_init ++ release_events state_init
                    ++ [E_cplus_demangle (lit "_Z3foov")]
        ∧ match cxx_test (lit "_Z3foov") with
          | None => res = P_fnbuf
          | Some _ => ∃ a, res = P_heap a ∧ demangled st' = Some a
          end
      else
        res = P_fnbuf ∧ trace st' = trace state_init
        ∧ heap st' = heap state_init ∧ demangled st' = demangled state_init.
Proof.
  assert (E : ∃ res st',
    VG_demangle uninit_x cxx_test true true true
      (Some (lit "_vgw00000ZZ_" ++ z_encode (lit "libc.so.*") ++ "_"
               :: z_encode (lit "_Z3foov"))) state_init
    = Ret (res, st')).
  { do 2 eexists. vm_compute. reflexivity. }
  destruct E as (res & st' & E). exists res, st'. split; [exact E|].
  refine (VG_demangle_Z_encoded_symbol uninit_x cxx_test true true
            (lit "_vgw00000ZZ_") (lit "libc.so.*") (lit "_Z3foov")
            state_init st' res statics_init_wf eq_refl eq_refl eq_refl _ _ E);
    compute_done.
Defined.

Lemma VG_demangle_string_depends_on_arguments_only_witness :
  ∃ res1 st1' res2 st2',
    VG_demangle uninit_x cxx_test true true true (Some (lit "_Zrust")) state_init
    = Ret (res1, st1')
    ∧ VG_demangle (fun _ => "y") cxx_test true true true (Some (lit "_Zrust"))
        state_after_foo = Ret (res2, st2')
    ∧ string_at (Some (lit "_Zrust")) st1' res1
      = string_at (Some (lit "_Zrust")) st2' res2.
Proof.
  assert (E1 : ∃ res st',
    VG_demangle uninit_x cxx_test true true true (Some (lit "_Zrust")) state_init
    = Ret (res, st')).
  { do 2 eexists. vm_compute. reflexivity. }
  assert (E2 : ∃ res st',
    VG_demangle (fun _ => "y") cxx_test true true true (Some (lit "_Zrust"))
      state_after_foo = Ret (res, st')).
  { do 2 eexists. vm_compute. reflexivity. }
  destruct E1 as (res1 & st1' & E1), E2 as (res2 & st2' & E2).
  exists res1, st1', res2, st2'. split; [exact E1|]. split; [exact E2|].
  refine (VG_demangle_string_depends_on_arguments_only cxx_test true
            uninit_x (fun _ => "y") true true (Some (lit "_Zrust"))
            state_init state_after_foo st1' st2' res1 res2
            statics_init_wf _ E1 E2).
  vm_compute. split; reflexivity.
Defined.
